(** * WeatherBoard: favourites synchronisation and weather caching

    A shallow embedding of the services of the WeatherBoard client
    ([FavoritesService], [FavoritesUpdateService], [WeatherService],
    [GeoService], [AppInitService], [NetworkUtils], [StorageUtils], and of
    [api/graphql.ts] the favourites part and [verifyToken]) together with
    the properties the specification states about them and further
    properties of the code.

    Conventions of the embedding.
    - An asynchronous function is a computation in the monad [Eff]: it reads
      and writes the [World] (the AsyncStorage contents and the module-level
      [activeRequests] object), may throw, and appends the calls it makes to
      the outside (connectivity, HTTP, GraphQL, timers) to a log.  A function
      run in [Eff] runs to completion without another task interleaving; the
      interleavings of [fetchWeatherFromApi] are the subject of the separate
      small-step machine [InFlight].
    - What the outside answers is fixed by an [Env].
    - JavaScript numbers that are only copied, compared or tested for zero
      are integers ([Z]); the temperatures, which the code rounds, are
      rationals ([Q]).
    - A string that the code only hands to [JSON.parse] or to [new Date] is
      represented by what that call yields for it; the values read from
      parsed metadata have the types api/graphql.ts declares for them. *)

From Stdlib Require Import ZArith QArith Qround ZifyNat.
From stdpp Require Import gmap strings list fin_maps pretty.
Close Scope Q_scope.
Local Open Scope string_scope.
Local Open Scope Z_scope.
Local Open Scope list_scope.

Set Default Proof Using "Type".

(** * JavaScript values and exceptions *)

(** ** Exceptions

    [Throw] stands for any thrown value: no handler in the services inspects
    what it caught (beyond logging it). *)

Inductive result (A : Type) : Type :=
| Ok (a : A)
| Throw.
Arguments Ok {A} a.
Arguments Throw {A}.

Definition rbind {A B : Type} (r : result A) (k : A -> result B) : result B :=
  match r with
  | Ok a => k a
  | Throw => Throw
  end.

(** ** Optional values: [None] is [undefined] *)

(** [ToBoolean] of an optional number: [undefined] and [0] are falsy. *)
Definition truthy_num (v : option Z) : bool :=
  match v with
  | Some n => negb (n =? 0)
  | None => false
  end.

(** [ToBoolean] of an optional string: [undefined] and the empty string are
    falsy. *)
Definition truthy_str (v : option string) : bool :=
  match v with
  | Some s => negb (String.eqb s "")
  | None => false
  end.

(** [v === true]. *)
Definition is_true_value (v : option bool) : bool :=
  match v with
  | Some true => true
  | _ => false
  end.

(** [v === n] for a number [n]. *)
Definition strict_eq_num (v : option Z) (n : Z) : bool :=
  match v with
  | Some m => m =? n
  | None => false
  end.

(** ** Strings and numbers *)

(** [String.prototype.toLowerCase] on the letters [A]-[Z]. *)
Definition lower_ascii (c : Ascii.ascii) : Ascii.ascii :=
  let n := Ascii.nat_of_ascii c in
  if (Nat.leb 65 n && Nat.leb n 90)%bool then Ascii.ascii_of_nat (n + 32) else c.

Fixpoint toLowerCase (s : string) : string :=
  match s with
  | EmptyString => EmptyString
  | String c s' => String (lower_ascii c) (toLowerCase s')
  end.

(** [s.includes(sub)]. *)
Definition includes (s sub : string) : bool :=
  match String.index 0 sub s with
  | Some _ => true
  | None => false
  end.

(** [Math.round]: the nearest integer, halves towards plus infinity. *)
Definition Math_round (q : Q) : Z := Qfloor (q + (1 # 2))%Q.

(** [l.filter((_, index) => p(index))], the indices counted from [i]. *)
Fixpoint filter_index {A : Type} (p : nat -> bool) (i : nat) (l : list A) : list A :=
  match l with
  | [] => []
  | x :: l' =>
      if p i then x :: filter_index p (S i) l' else filter_index p (S i) l'
  end.

(** ** Parsed metadata

    The properties the services read from [JSON.parse(item.metadata)], with
    the types of [FavoriteWeatherData] and of the deletion marker
    [toggleFavorite] writes.  A parsed value that is no object (a number, a
    string, an array) has none of them. *)
Module Metadata.
Record t : Type := mk {
  deleted : option bool;
  weatherId : option Z;
  lat : option Z;
  lon : option Z;
  country : option string
}.
End Metadata.

(** What [JSON.parse] returned: [null], or a value with properties. *)
Inductive parsed : Type :=
| JNull
| JValue (m : Metadata.t).

(** [metadata.p]: a [TypeError] on [null]. *)
Definition get_prop {A : Type} (p : Metadata.t -> option A) (metadata : parsed) : result (option A) :=
  match metadata with
  | JNull => Throw
  | JValue m => Ok (p m)
  end.

(** * Data model *)

(** [City] of GeoService. *)
Module City.
Record t : Type := mk {
  name : string;
  lat : Z;
  lon : Z;
  country : string
}.
End City.

#[global] Instance City_eq_dec : EqDecision City.t.
Proof. solve_decision. Defined.

(** One day of the forecast kept in a snapshot. *)
Module ForecastDay.
Record t : Type := mk {
  date : string;
  temperature : Z;
  icon : string
}.
End ForecastDay.

(** [WeatherData] of WeatherService; a field declared with [?] is an
    [option]. *)
Module WeatherData.
Record t : Type := mk {
  city : string;
  temperature : Z;
  conditions : string;
  humidity : Z;
  windSpeed : Z;
  icon : string;
  description : string;
  weatherId : Z;
  lastUpdated : string;
  forecast : list ForecastDay.t;
  lat : option Z;
  lon : option Z;
  country : option string;
  timezone : option Z;
  sunrise : option Z;
  sunset : option Z
}.
End WeatherData.

(** [FavoriteWeatherData] of api/graphql.ts, the argument of
    [saveFavoriteCity]. *)
Module FavoriteWeatherData.
Record t : Type := mk {
  id : option string;
  city : string;
  temperature : Z;
  conditions : string;
  humidity : Z;
  windSpeed : Z;
  icon : string;
  description : string;
  weatherId : option Z;
  lat : option Z;
  lon : option Z;
  country : option string;
  timezone : option Z;
  sunrise : option Z;
  sunset : option Z
}.
End FavoriteWeatherData.

(** An item of the remote list ([FavoriteItem] of FavoritesUpdateService;
    the fields LIST_ITEMS selects).  [metadata] is what
    [JSON.parse(item.metadata)] yields, [None] when it throws; [updatedAt]
    is the time value of [new Date(item.updatedAt)], [None] for an invalid
    date, whose time value is NaN. *)
Module FavoriteItem.
Record t : Type := mk {
  id : string;
  name : string;
  metadata : option parsed;
  content : string;
  createdAt : string;
  updatedAt : option Z
}.
End FavoriteItem.

(** The objects [saveFavoriteCity] and [toggleFavorite] serialise into the
    [content] and [metadata] strings of an upsert. *)
Inductive upsert_content : Type :=
| ContentSummary (temperature : Z) (conditions description : string)
| ContentEmpty.

Inductive upsert_metadata : Type :=
| MetadataWeather (data : FavoriteWeatherData.t)
| MetadataDeleted (deletedAt : string) (originalWeatherId : Z) (originalCityName : string).

(** The [input] variable of the UPSERT_ITEM mutation; [id] is absent on a
    creation. *)
Module ItemInput.
Record t : Type := mk {
  id : option string;
  name : string;
  content : upsert_content;
  metadata : upsert_metadata
}.
End ItemInput.

(** ** Payloads of the weather provider

    A reading the code copies is kept as it is; a payload in which [main],
    [wind], [sys] or [list] is missing makes the code throw where it reads
    it, like a body that is no JSON: both are a body [None] below. *)
Record WeatherCond : Type := {
  cond_main : string;
  cond_description : string;
  cond_icon : string
}.

Record CurrentData : Type := {
  cur_main_temp : Q;
  cur_main_humidity : Z;
  cur_wind_speed : Z;
  cur_weather : list WeatherCond;
  cur_id : Z;
  cur_timezone : Z;
  cur_sys_sunrise : Z;
  cur_sys_sunset : Z
}.

Record ForecastItem : Type := {
  fc_dt : Z;
  fc_main_temp : Q;
  fc_weather : list WeatherCond
}.

(** What [fetch(url)] settles with: a rejection, or a response with its
    [ok] flag and what [response.json()] yields ([None] when it rejects). *)
Inductive http_response (A : Type) : Type :=
| NetworkFailure
| Response (ok : bool) (body : option A).
Arguments NetworkFailure {A}.
Arguments Response {A} ok body.

(** [NetworkState] of expo-network. *)
Record NetworkState : Type := {
  isConnected : option bool;
  isInternetReachable : option bool
}.

(** * The outside world *)

(** Calls that leave the process, in the order they are made. *)
Inductive event : Type :=
| NetworkGetState
| HttpGeo (query : string)
| HttpWeather (lat lon : Z)
| HttpForecast (lat lon : Z)
| GqlListItems
| GqlUpsert (input : ItemInput.t)
| Sleep (ms : Z).

(** The answers of the outside during one run. *)
Record Env : Type := {
  getNetworkStateAsync : result NetworkState;
  Date_now : Z;
  Date_toISOString : string;
  toLocaleWeekday : Z -> string;
  geo_response : string -> http_response (list City.t);
  weather_response : Z -> Z -> http_response CurrentData;
  forecast_response : Z -> Z -> http_response (list ForecastItem);
  listItems_response : result (option (list FavoriteItem.t));
  upsertItem_response : ItemInput.t -> result unit
}.

(** The AsyncStorage entries of the services, one field per storage key;
    [None] is a key that is not set ([getData] returns [null]).  The
    storage itself is taken to work: its calls do not reject. *)
Record Store : Type := {
  weather_data : option (gmap string WeatherData.t);
  weather_last_fetch : option (gmap string Z);
  weather_pending_requests : option (list City.t);
  recent_city_searches : option (list City.t)
}.

(** The mutable state of the process: the storage, and the module-level
    [activeRequests] of WeatherService, in which a promise in flight is
    represented by what it will settle with. *)
Record World : Type := {
  storage : Store;
  activeRequests : gmap string (result WeatherData.t)
}.

(** ** Effectful computations *)

Definition Eff (A : Type) : Type := World -> result A * World * list event.

Definition ret {A : Type} (a : A) : Eff A := fun w => (Ok a, w, []).

Definition throw {A : Type} : Eff A := fun w => (Throw, w, []).

Definition bind {A B : Type} (m : Eff A) (k : A -> Eff B) : Eff B :=
  fun w =>
    match m w with
    | (Ok a, w1, t1) =>
        match k a w1 with
        | (r, w2, t2) => (r, w2, t1 ++ t2)
        end
    | (Throw, w1, t1) => (Throw, w1, t1)
    end.

(** [try { body } catch (e) { handler }]: what [body] did before it threw
    stays done. *)
Definition catch {A : Type} (body handler : Eff A) : Eff A :=
  fun w =>
    match body w with
    | (Ok a, w1, t1) => (Ok a, w1, t1)
    | (Throw, w1, t1) =>
        match handler w1 with
        | (r, w2, t2) => (r, w2, t1 ++ t2)
        end
    end.

Notation "'let!' x ':=' m 'in' k" := (bind m (fun x => k))
  (at level 10, x name, m at level 100, k at level 200).
Notation "'do!' m 'in' k" := (bind m (fun _ => k))
  (at level 10, m at level 100, k at level 200).

Definition emit (e : event) : Eff unit := fun w => (Ok tt, w, [e]).

Definition lift {A : Type} (r : result A) : Eff A := fun w => (r, w, []).

Definition get_world : Eff World := fun w => (Ok w, w, []).

Definition set_storage (s : Store) : Eff unit :=
  fun w => (Ok tt, {| storage := s; activeRequests := activeRequests w |}, []).

Definition set_activeRequests (a : gmap string (result WeatherData.t)) : Eff unit :=
  fun w => (Ok tt, {| storage := storage w; activeRequests := a |}, []).

(** [Promise.all(l.map(f))] for callbacks that do not throw, and
    [Promise.allSettled(l.map(f))]: every callback runs, whatever the
    others did; the results are in the order of [l]. *)
Fixpoint all_settled {A B : Type} (f : A -> Eff B) (l : list A) : Eff (list (result B)) :=
  match l with
  | [] => ret []
  | x :: l' =>
      fun w =>
        match f x w with
        | (r, w1, t1) =>
            match all_settled f l' w1 with
            | (rs, w2, t2) => (rbind rs (fun rs' => Ok (r :: rs')), w2, t1 ++ t2)
            end
        end
  end.

(** * NetworkUtils *)

Definition isInternetAvailable (env : Env) : Eff bool :=
  catch
    (do! emit NetworkGetState in
     let! networkState := lift (getNetworkStateAsync env) in
     ret (match isConnected networkState, isInternetReachable networkState with
          | Some true, Some true => true
          | _, _ => false
          end))
    (ret false).

(** * StorageUtils

    A storage key is given by the field of [Store] that holds it. *)

Definition getData {T : Type} (key : Store -> option T) : Eff (option T) :=
  fun w => (Ok (key (storage w)), w, []).

Definition put_weather_data (v : option (gmap string WeatherData.t)) (s : Store) : Store :=
  {| weather_data := v;
     weather_last_fetch := weather_last_fetch s;
     weather_pending_requests := weather_pending_requests s;
     recent_city_searches := recent_city_searches s |}.

Definition put_weather_last_fetch (v : option (gmap string Z)) (s : Store) : Store :=
  {| weather_data := weather_data s;
     weather_last_fetch := v;
     weather_pending_requests := weather_pending_requests s;
     recent_city_searches := recent_city_searches s |}.

Definition put_weather_pending_requests (v : option (list City.t)) (s : Store) : Store :=
  {| weather_data := weather_data s;
     weather_last_fetch := weather_last_fetch s;
     weather_pending_requests := v;
     recent_city_searches := recent_city_searches s |}.

Definition put_recent_city_searches (v : option (list City.t)) (s : Store) : Store :=
  {| weather_data := weather_data s;
     weather_last_fetch := weather_last_fetch s;
     weather_pending_requests := weather_pending_requests s;
     recent_city_searches := v |}.

(** [storeData(key, value)], [put] being the setter of the key. *)
Definition storeData {T : Type} (put : option T -> Store -> Store) (value : T) : Eff unit :=
  fun w => (Ok tt, {| storage := put (Some value) (storage w);
                      activeRequests := activeRequests w |}, []).

Definition removeData {T : Type} (put : option T -> Store -> Store) : Eff unit :=
  fun w => (Ok tt, {| storage := put None (storage w);
                      activeRequests := activeRequests w |}, []).

(** * GeoService *)

Definition getRecentSearches : Eff (list City.t) :=
  catch
    (let! recentSearches := getData recent_city_searches in
     ret (default [] recentSearches))
    (ret []).

Definition searchCities (env : Env) (query : string) : Eff (list City.t) :=
  if (String.length query <? 2)%nat then ret []
  else
    catch
      (let! isOnline := isInternetAvailable env in
       if negb isOnline then
         let! recentSearches := getRecentSearches in
         ret (List.filter
                (fun city => includes (toLowerCase (City.name city)) (toLowerCase query))
                recentSearches)
       else
         do! emit (HttpGeo query) in
         match geo_response env query with
         | NetworkFailure => throw
         | Response ok body =>
             if negb ok then throw
             else match body with
                  | None => throw
                  | Some data => ret data
                  end
         end)
      (ret []).

Definition addToRecentSearches (city : City.t) : Eff unit :=
  catch
    (let! recentSearches := getRecentSearches in
     let cityExists :=
       existsb (fun c => String.eqb (City.name c) (City.name city)
                         && String.eqb (City.country c) (City.country city))
               recentSearches in
     if negb cityExists then
       storeData put_recent_city_searches (take 10 (city :: recentSearches))
     else ret tt)
    (ret tt).

(** * WeatherService *)

Definition CACHE_EXPIRATION : Z := 60 * 60 * 1000.

(** [`${city.name}-${city.country}`]. *)
Definition cityKey (city : City.t) : string :=
  City.name city +:+ "-" +:+ City.country city.

(** [a[0]]. *)
Definition first {A : Type} (a : list A) : result A :=
  match a with
  | x :: _ => Ok x
  | [] => Throw
  end.

Fixpoint map_result {A B : Type} (f : A -> result B) (l : list A) : result (list B) :=
  match l with
  | [] => Ok []
  | x :: l' => rbind (f x) (fun y => rbind (map_result f l') (fun ys => Ok (y :: ys)))
  end.

(** The request [fetchWeatherFromApi] stores in [activeRequests]: what the
    asynchronous function of lines 70-121 settles with, given what the two
    [fetch] calls settled with. *)
Definition weather_request (env : Env) (city : City.t) : result WeatherData.t :=
  match weather_response env (City.lat city) (City.lon city),
        forecast_response env (City.lat city) (City.lon city) with
  | Response current_ok current_body, Response forecast_ok forecast_body =>
      if negb current_ok then Throw
      else if negb forecast_ok then Throw
      else
        match current_body, forecast_body with
        | Some currentData, Some forecastData =>
            rbind
              (map_result
                 (fun item =>
                    rbind (first (fc_weather item)) (fun w0 =>
                    Ok {| ForecastDay.date := toLocaleWeekday env (fc_dt item * 1000);
                          ForecastDay.temperature := Math_round (fc_main_temp item);
                          ForecastDay.icon := cond_icon w0 |}))
                 (take 5 (filter_index (fun index => (index mod 8 =? 0)%nat) 0%nat forecastData)))
              (fun processedForecast =>
            rbind (first (cur_weather currentData)) (fun w0 =>
            Ok {| WeatherData.city := City.name city;
                  WeatherData.temperature := Math_round (cur_main_temp currentData);
                  WeatherData.conditions := cond_main w0;
                  WeatherData.humidity := cur_main_humidity currentData;
                  WeatherData.windSpeed := cur_wind_speed currentData;
                  WeatherData.icon := cond_icon w0;
                  WeatherData.description := cond_description w0;
                  WeatherData.weatherId := cur_id currentData;
                  WeatherData.lastUpdated := Date_toISOString env;
                  WeatherData.forecast := processedForecast;
                  WeatherData.lat := Some (City.lat city);
                  WeatherData.lon := Some (City.lon city);
                  WeatherData.country := Some (City.country city);
                  WeatherData.timezone := Some (cur_timezone currentData);
                  WeatherData.sunrise := Some (cur_sys_sunrise currentData);
                  WeatherData.sunset := Some (cur_sys_sunset currentData) |}))
        | _, _ => Throw
        end
  | _, _ => Throw
  end.

(** One call of [fetchWeatherFromApi] awaited to its end.  When the key is
    in [activeRequests] the call returns the request found there; otherwise
    it sends the two requests, registers its own request, awaits it and then
    deletes the entry, on success (line 127) and on failure (line 132). *)
Definition fetchWeatherFromApi (env : Env) (city : City.t) : Eff WeatherData.t :=
  let! w := get_world in
  match activeRequests w !! cityKey city with
  | Some inFlight => lift inFlight
  | None =>
      catch
        (do! emit (HttpWeather (City.lat city) (City.lon city)) in
         do! emit (HttpForecast (City.lat city) (City.lon city)) in
         do! set_activeRequests (<[cityKey city := weather_request env city]> (activeRequests w)) in
         let! w1 := get_world in
         let! result := lift (default Throw (activeRequests w1 !! cityKey city)) in
         let! w2 := get_world in
         do! set_activeRequests (delete (cityKey city) (activeRequests w2)) in
         ret result)
        (let! w2 := get_world in
         do! set_activeRequests (delete (cityKey city) (activeRequests w2)) in
         throw)
  end.

Definition storePendingRequest (city : City.t) : Eff unit :=
  catch
    (let! stored := getData weather_pending_requests in
     let pendingRequests := default [] stored in
     let cityExists :=
       existsb (fun c => String.eqb (City.name c) (City.name city)
                         && String.eqb (City.country c) (City.country city))
               pendingRequests in
     if negb cityExists then
       storeData put_weather_pending_requests (pendingRequests ++ [city])
     else ret tt)
    (ret tt).

Definition clearCityWeatherCache (city : City.t) : Eff unit :=
  catch
    (let! storedWeather := getData weather_data in
     let weatherCache := default ∅ storedWeather in
     let! storedTime := getData weather_last_fetch in
     let timeCache := default ∅ storedTime in
     do! (match weatherCache !! cityKey city with
          | Some _ => storeData put_weather_data (delete (cityKey city) weatherCache)
          | None => ret tt
          end) in
     if truthy_num (timeCache !! cityKey city)
     then storeData put_weather_last_fetch (delete (cityKey city) timeCache)
     else ret tt)
    throw.

(** [isCacheExpired] of [getWeatherData], [lastFetch] being
    [lastFetchTime[cityKey]]. *)
Definition isCacheExpired (lastFetch : option Z) (currentTime : Z) (forceRefresh : bool) : bool :=
  negb (truthy_num lastFetch)
  || match lastFetch with
     | Some t => currentTime - t >? CACHE_EXPIRATION
     | None => false
     end
  || forceRefresh.

(** The statements that put a fresh snapshot into both caches (lines
    248-256 and 288-296). *)
Definition cacheFreshData (city : City.t) (freshData : WeatherData.t) (currentTime : Z) : Eff unit :=
  let! storedWeather := getData weather_data in
  let weatherCache := <[cityKey city := freshData]> (default ∅ storedWeather) in
  let! storedTime := getData weather_last_fetch in
  let timeCache := <[cityKey city := currentTime]> (default ∅ storedTime) in
  do! storeData put_weather_data weatherCache in
  storeData put_weather_last_fetch timeCache.

Definition getWeatherData (env : Env) (city : City.t) (forceRefresh : bool) : Eff (option WeatherData.t) :=
  catch
    (let! isOnline := isInternetAvailable env in
     let! storedTime := getData weather_last_fetch in
     let lastFetchTime := default ∅ storedTime in
     let currentTime := Date_now env in
     let expired := isCacheExpired (lastFetchTime !! cityKey city) currentTime forceRefresh in
     if isOnline && expired then
       catch
         (do! (if forceRefresh then clearCityWeatherCache city else ret tt) in
          let! freshData := fetchWeatherFromApi env city in
          do! cacheFreshData city freshData currentTime in
          ret (Some freshData))
         (let! storedWeather := getData weather_data in
          match default ∅ storedWeather !! cityKey city with
          | Some cached => ret (Some cached)
          | None => throw
          end)
     else
       let! storedWeather := getData weather_data in
       let cachedData := default ∅ storedWeather !! cityKey city in
       match cachedData with
       | None =>
           if negb isOnline then
             do! storePendingRequest city in
             ret None
           else
             let! freshData := fetchWeatherFromApi env city in
             do! cacheFreshData city freshData currentTime in
             ret (Some freshData)
       | Some cached => ret (Some cached)
       end)
    (ret None).

(** * api/graphql.ts: favourites *)

(** [JSON.parse(item.metadata)]. *)
Definition JSON_parse (text : option parsed) : result parsed :=
  match text with
  | Some v => Ok v
  | None => Throw
  end.

Definition saveFavoriteCity (env : Env) (weatherData : FavoriteWeatherData.t) : Eff unit :=
  catch
    (let content :=
       ContentSummary (FavoriteWeatherData.temperature weatherData)
                      (FavoriteWeatherData.conditions weatherData)
                      (FavoriteWeatherData.description weatherData) in
     let metadata := MetadataWeather weatherData in
     let input :=
       {| ItemInput.id :=
            if truthy_str (FavoriteWeatherData.id weatherData)
            then FavoriteWeatherData.id weatherData else None;
          ItemInput.name := FavoriteWeatherData.city weatherData;
          ItemInput.content := content;
          ItemInput.metadata := metadata |} in
     do! emit (GqlUpsert input) in
     lift (upsertItem_response env input))
    throw.

(** The callback of [items.some] in [checkIfCityInFavorites].  The [try]
    block yields [Ok (Some b)] when it returns [b] and [Ok None] when it
    runs to its end; the [catch] block is empty. *)
Definition isFavoriteItem (cityName : string) (weatherId : option Z) (item : FavoriteItem.t) : bool :=
  if negb (String.eqb (toLowerCase (FavoriteItem.name item)) (toLowerCase cityName)) then false
  else
    match
      rbind (JSON_parse (FavoriteItem.metadata item)) (fun metadata =>
      rbind (if String.eqb (FavoriteItem.content item) "" then Ok true
             else rbind (get_prop Metadata.deleted metadata) (fun d => Ok (is_true_value d)))
            (fun isDeleted =>
      if isDeleted : bool then Ok (Some false)
      else if truthy_num weatherId then
        rbind (get_prop Metadata.weatherId metadata) (fun metadataWeatherId =>
        if truthy_num metadataWeatherId then
          if negb (strict_eq_num metadataWeatherId (default 0 weatherId))
          then Ok (Some false) else Ok None
        else Ok None)
      else Ok None))
    with
    | Ok (Some returned) => returned
    | Ok None => true
    | Throw => true
    end.

Definition checkIfCityInFavorites (env : Env) (cityName : string) (weatherId : option Z) : Eff bool :=
  catch
    (do! emit GqlListItems in
     let! listItems := lift (listItems_response env) in
     let items := default [] listItems in
     ret (existsb (isFavoriteItem cityName weatherId) items))
    (ret false).

(** * FavoritesService *)

Definition convertToFavoriteData (weather : WeatherData.t) : FavoriteWeatherData.t :=
  let hasGeo :=
    match WeatherData.lat weather, WeatherData.lon weather with
    | Some _, Some _ => true
    | _, _ => false
    end in
  {| FavoriteWeatherData.id := None;
     FavoriteWeatherData.city := WeatherData.city weather;
     FavoriteWeatherData.temperature := WeatherData.temperature weather;
     FavoriteWeatherData.conditions := WeatherData.conditions weather;
     FavoriteWeatherData.humidity := WeatherData.humidity weather;
     FavoriteWeatherData.windSpeed := WeatherData.windSpeed weather;
     FavoriteWeatherData.icon := WeatherData.icon weather;
     FavoriteWeatherData.description := WeatherData.description weather;
     FavoriteWeatherData.weatherId := Some (WeatherData.weatherId weather);
     FavoriteWeatherData.lat := if hasGeo then WeatherData.lat weather else None;
     FavoriteWeatherData.lon := if hasGeo then WeatherData.lon weather else None;
     FavoriteWeatherData.country :=
       if hasGeo then
         Some (if truthy_str (WeatherData.country weather)
               then default "" (WeatherData.country weather) else "Unknown")
       else None;
     FavoriteWeatherData.timezone := WeatherData.timezone weather;
     FavoriteWeatherData.sunrise := WeatherData.sunrise weather;
     FavoriteWeatherData.sunset := WeatherData.sunset weather |}.

Definition isCityInFavorites (env : Env) (cityName : string) (weatherId : option Z) : Eff bool :=
  catch (checkIfCityInFavorites env cityName weatherId) (ret false).

(** The callback of [items.filter] in [toggleFavorite] (lines 79-105): two
    [try] blocks with empty [catch] blocks, then the disjunction. *)
Definition isMatchingItem (weatherData : WeatherData.t) (item : FavoriteItem.t) : bool :=
  let nameMatches :=
    String.eqb (toLowerCase (FavoriteItem.name item)) (toLowerCase (WeatherData.city weatherData)) in
  let weatherIdMatches :=
    match
      rbind (JSON_parse (FavoriteItem.metadata item)) (fun metadata =>
      if truthy_num (Some (WeatherData.weatherId weatherData)) then
        rbind (get_prop Metadata.weatherId metadata) (fun metadataWeatherId =>
        if truthy_num metadataWeatherId
        then Ok (strict_eq_num metadataWeatherId (WeatherData.weatherId weatherData))
        else Ok false)
      else Ok false)
    with
    | Ok b => b
    | Throw => false
    end in
  match
    rbind (JSON_parse (FavoriteItem.metadata item)) (fun metadata =>
    if String.eqb (FavoriteItem.content item) "" then Ok true
    else rbind (get_prop Metadata.deleted metadata) (fun d => Ok (is_true_value d)))
  with
  | Ok true => false
  | Ok false => nameMatches || weatherIdMatches
  | Throw => nameMatches || weatherIdMatches
  end.

(** The callback of [matchingItems.map] in [toggleFavorite]: the upsert that
    marks one item as deleted; [true] when it counted in [removedCount]. *)
Definition markDeleted (env : Env) (weatherData : WeatherData.t) (item : FavoriteItem.t) : Eff bool :=
  let emptyInput :=
    {| ItemInput.id := Some (FavoriteItem.id item);
       ItemInput.name := FavoriteItem.name item;
       ItemInput.content := ContentEmpty;
       ItemInput.metadata :=
         MetadataDeleted (Date_toISOString env) (WeatherData.weatherId weatherData)
                         (WeatherData.city weatherData) |} in
  catch
    (do! emit (GqlUpsert emptyInput) in
     do! lift (upsertItem_response env emptyInput) in
     ret true)
    (ret false).

Definition count_true (results : list (result bool)) : nat :=
  length (List.filter (fun r => match r with Ok true => true | _ => false end) results).

Definition toggleFavorite (env : Env) (weatherData : WeatherData.t) : Eff bool :=
  catch
    (let! isAlreadyFavorite :=
       isCityInFavorites env (WeatherData.city weatherData)
                         (Some (WeatherData.weatherId weatherData)) in
     if isAlreadyFavorite : bool then
       do! emit GqlListItems in
       let! listItems := lift (listItems_response env) in
       let items := default [] listItems in
       let matchingItems := List.filter (isMatchingItem weatherData) items in
       if (0 <? length matchingItems)%nat then
         let! removed := all_settled (markDeleted env weatherData) matchingItems in
         ret (0 <? count_true removed)%nat
       else ret false
     else
       do! saveFavoriteCity env (convertToFavoriteData weatherData) in
       ret true)
    (ret false).

(** * FavoritesUpdateService *)

Definition getGeoDataForCity (env : Env) (cityName : string) : Eff (option City.t) :=
  catch
    (let! cities := searchCities env cityName in
     match cities with
     | city0 :: _ => ret (Some city0)
     | [] => ret None
     end)
    (ret None).

(** The callback of [allItems.filter] (lines 238-252). *)
Definition isValidItem (item : FavoriteItem.t) : bool :=
  match
    rbind (JSON_parse (FavoriteItem.metadata item)) (fun metadata =>
    if String.eqb (FavoriteItem.content item) "" then Ok false
    else rbind (get_prop Metadata.deleted metadata) (fun d =>
         if is_true_value d then Ok false else Ok true))
  with
  | Ok b => b
  | Throw => false
  end.

(** ** The [Map] of the deduplication

    A JavaScript [Map] iterates in insertion order, and [set] on a key that
    is present replaces the value where it is. *)
Definition cityMap_t : Type := list (string * FavoriteItem.t).

Fixpoint Map_get (key : string) (m : cityMap_t) : option FavoriteItem.t :=
  match m with
  | [] => None
  | (k, v) :: m' => if String.eqb k key then Some v else Map_get key m'
  end.

Fixpoint Map_set (key : string) (value : FavoriteItem.t) (m : cityMap_t) : cityMap_t :=
  match m with
  | [] => [(key, value)]
  | (k, v) :: m' =>
      if String.eqb k key then (key, value) :: m' else (k, v) :: Map_set key value m'
  end.

Definition Map_values (m : cityMap_t) : list FavoriteItem.t := map snd m.

(** [new Date(a) > new Date(b)]: false as soon as one date is invalid. *)
Definition date_gt (a b : option Z) : bool :=
  match a, b with
  | Some x, Some y => x >? y
  | _, _ => false
  end.

(** The composite key of lines 260-264; [Throw] when the [try] block throws
    before the key is built. *)
Definition compositeKey (item : FavoriteItem.t) : result string :=
  rbind (JSON_parse (FavoriteItem.metadata item)) (fun metadata =>
  let cityName := toLowerCase (FavoriteItem.name item) in
  rbind (get_prop Metadata.weatherId metadata) (fun metadataWeatherId =>
  let weatherId := if truthy_num metadataWeatherId then default 0 metadataWeatherId else 0 in
  Ok (cityName +:+ "-" +:+ pretty weatherId))).

(** The test and the [set] shared by the [try] and the [catch] block. *)
Definition keepMostRecent (key : string) (item : FavoriteItem.t) (cityMap : cityMap_t) : cityMap_t :=
  match Map_get key cityMap with
  | None => Map_set key item cityMap
  | Some existing =>
      if date_gt (FavoriteItem.updatedAt item) (FavoriteItem.updatedAt existing)
      then Map_set key item cityMap
      else cityMap
  end.

(** The callback of [validItems.forEach] (lines 258-280). *)
Definition dedupeItem (cityMap : cityMap_t) (item : FavoriteItem.t) : cityMap_t :=
  match compositeKey item with
  | Ok key => keepMostRecent key item cityMap
  | Throw => keepMostRecent (toLowerCase (FavoriteItem.name item)) item cityMap
  end.

(** The candidates: [favorites] of line 283, from [allItems]. *)
Definition uniqueFavorites (allItems : list FavoriteItem.t) : list FavoriteItem.t :=
  let validItems := List.filter isValidItem allItems in
  Map_values (fold_left dedupeItem validItems []).

(** [lat], [lon] and [country] after the inner [try] of lines 305-312. *)
Definition metadataGeo (favorite : FavoriteItem.t) : option Z * option Z * option string :=
  match JSON_parse (FavoriteItem.metadata favorite) with
  | Throw => (None, None, None)
  | Ok metadata =>
      match get_prop Metadata.lat metadata with
      | Throw => (None, None, None)
      | Ok mlat =>
          let lat := if truthy_num mlat then mlat else None in
          match get_prop Metadata.lon metadata with
          | Throw => (lat, None, None)
          | Ok mlon =>
              let lon := if truthy_num mlon then mlon else None in
              match get_prop Metadata.country metadata with
              | Throw => (lat, lon, None)
              | Ok mcountry => (lat, lon, if truthy_str mcountry then mcountry else None)
              end
          end
      end
  end.

(** Lines 332-364: from the resolved coordinates to the upsert. *)
Definition refreshFavorite (env : Env) (favorite : FavoriteItem.t)
    (lat lon : Z) (country : option string) : Eff bool :=
  let city :=
    {| City.name := FavoriteItem.name favorite;
       City.lat := lat;
       City.lon := lon;
       City.country := if truthy_str country then default "" country else "Unknown" |} in
  let! weatherData := fetchWeatherFromApi env city in
  let favoriteData :=
    {| FavoriteWeatherData.id := Some (FavoriteItem.id favorite);
       FavoriteWeatherData.city := WeatherData.city weatherData;
       FavoriteWeatherData.temperature := WeatherData.temperature weatherData;
       FavoriteWeatherData.conditions := WeatherData.conditions weatherData;
       FavoriteWeatherData.humidity := WeatherData.humidity weatherData;
       FavoriteWeatherData.windSpeed := WeatherData.windSpeed weatherData;
       FavoriteWeatherData.icon := WeatherData.icon weatherData;
       FavoriteWeatherData.description := WeatherData.description weatherData;
       FavoriteWeatherData.weatherId := Some (WeatherData.weatherId weatherData);
       FavoriteWeatherData.lat := WeatherData.lat weatherData;
       FavoriteWeatherData.lon := WeatherData.lon weatherData;
       FavoriteWeatherData.country := WeatherData.country weatherData;
       FavoriteWeatherData.timezone := None;
       FavoriteWeatherData.sunrise := None;
       FavoriteWeatherData.sunset := None |} in
  do! saveFavoriteCity env favoriteData in
  ret true.

(** The callback of [batch.map] (lines 300-369). *)
Definition updateFavorite (env : Env) (favorite : FavoriteItem.t) : Eff bool :=
  catch
    (match metadataGeo favorite with
     | (lat, lon, country) =>
         if negb (truthy_num lat) || negb (truthy_num lon) then
           let! cityGeoData := getGeoDataForCity env (FavoriteItem.name favorite) in
           match cityGeoData with
           | Some geo =>
               refreshFavorite env favorite (City.lat geo) (City.lon geo)
                               (Some (City.country geo))
           | None => ret false
           end
         else refreshFavorite env favorite (default 0 lat) (default 0 lon) country
     end)
    (ret false).

Definition batchSize : nat := 3.

(** The [for] loop of lines 295-381 from index [i] on; [fuel] bounds the
    number of iterations. *)
Fixpoint updateBatches (env : Env) (fuel : nat) (favorites : list FavoriteItem.t)
    (i successCount : nat) : Eff nat :=
  match fuel with
  | O => ret successCount
  | S fuel' =>
      if (i <? length favorites)%nat then
        let batch := take batchSize (drop i favorites) in
        let! results := all_settled (updateFavorite env) batch in
        let successCount' := (successCount + count_true results)%nat in
        do! (if (i + batchSize <? length favorites)%nat
             then emit (Sleep 1000) else ret tt) in
        updateBatches env fuel' favorites (i + batchSize)%nat successCount'
      else ret successCount
  end.

Definition updateAllFavorites (env : Env) : Eff nat :=
  catch
    (do! emit GqlListItems in
     let! listItems := lift (listItems_response env) in
     let allItems := default [] listItems in
     let favorites := uniqueFavorites allItems in
     if (length favorites =? 0)%nat then ret 0%nat
     else updateBatches env (length favorites) favorites 0 0)
    (ret 0%nat).

(** * Interleaved calls of [fetchWeatherFromApi]

    JavaScript runs a call without interruption up to its [await].  A call
    of [fetchWeatherFromApi] therefore has two atomic parts: from its start
    to the [await] of line 124 (or to the [return] of line 54), and from the
    settling of the awaited request to its [return] or [throw].  The machine
    below interleaves these parts for any number of calls. *)
Module InFlight.

(** A request: the promise the asynchronous function of lines 70-121
    returned.  [req_settled] is [None] while it is in flight. *)
Record request : Type := {
  req_key : string;
  req_city : City.t;
  req_settled : option (result WeatherData.t)
}.

(** A call either created the request it awaits ([Owner]) or found it in
    [activeRequests] ([Joiner]). *)
Inductive role : Type := Owner | Joiner.

(** A call of [fetchWeatherFromApi]; [call_returned] is [None] while it is
    suspended. *)
Record call : Type := {
  call_city : City.t;
  call_request : nat;
  call_role : role;
  call_returned : option (result WeatherData.t)
}.

Record state : Type := {
  active : gmap string nat;
  requests : list request;
  calls : gmap nat call;
  wire : list event
}.

Definition init : state :=
  {| active := ∅; requests := []; calls := ∅; wire := [] |}.

Inductive action : Type :=
| Call (caller : nat) (city : City.t)
| Settle (req : nat)
| Resume (caller : nat).

(** Lines 49-55, and lines 57-124 up to the [await]. *)
Definition do_call (caller : nat) (city : City.t) (s : state) : option state :=
  match calls s !! caller with
  | Some _ => None
  | None =>
      match active s !! cityKey city with
      | Some req =>
          Some {| active := active s;
                  requests := requests s;
                  calls := <[caller := {| call_city := city; call_request := req;
                                          call_role := Joiner; call_returned := None |}]> (calls s);
                  wire := wire s |}
      | None =>
          let req := length (requests s) in
          Some {| active := <[cityKey city := req]> (active s);
                  requests := requests s ++ [{| req_key := cityKey city; req_city := city;
                                                req_settled := None |}];
                  calls := <[caller := {| call_city := city; call_request := req;
                                          call_role := Owner; call_returned := None |}]> (calls s);
                  wire := wire s ++ [HttpWeather (City.lat city) (City.lon city);
                                     HttpForecast (City.lat city) (City.lon city)] |}
      end
  end.

(** The request settles: fulfilled with the snapshot or rejected. *)
Definition do_settle (env : Env) (req : nat) (s : state) : option state :=
  match requests s !! req with
  | Some r =>
      match req_settled r with
      | None =>
          Some {| active := active s;
                  requests := <[req := {| req_key := req_key r; req_city := req_city r;
                                          req_settled := Some (weather_request env (req_city r)) |}]>
                                (requests s);
                  calls := calls s;
                  wire := wire s |}
      | Some _ => None
      end
  | None => None
  end.

(** The call continues after its request has settled: the owner deletes
    the entry of its key (line 127 on success, line 132 on failure); both
    roles hand the outcome to their caller. *)
Definition do_resume (caller : nat) (s : state) : option state :=
  match calls s !! caller with
  | Some c =>
      match call_returned c, requests s !! call_request c with
      | None, Some r =>
          match req_settled r with
          | Some outcome =>
              Some {| active := match call_role c with
                                | Owner => delete (cityKey (call_city c)) (active s)
                                | Joiner => active s
                                end;
                      requests := requests s;
                      calls := <[caller := {| call_city := call_city c;
                                              call_request := call_request c;
                                              call_role := call_role c;
                                              call_returned := Some outcome |}]> (calls s);
                      wire := wire s |}
          | None => None
          end
      | _, _ => None
      end
  | None => None
  end.

Definition step (env : Env) (a : action) (s : state) : option state :=
  match a with
  | Call caller city => do_call caller city s
  | Settle req => do_settle env req s
  | Resume caller => do_resume caller s
  end.

Fixpoint run (env : Env) (actions : list action) (s : state) : option state :=
  match actions with
  | [] => Some s
  | a :: actions' =>
      match step env a s with
      | Some s' => run env actions' s'
      | None => None
      end
  end.

Definition reachable (env : Env) (s : state) : Prop :=
  exists actions, run env actions init = Some s.

Definition in_flight (r : request) : Prop := req_settled r = None.

(** The two HTTP requests sent for a request. *)
Definition sent (r : request) : list event :=
  [HttpWeather (City.lat (req_city r)) (City.lon (req_city r));
   HttpForecast (City.lat (req_city r)) (City.lon (req_city r))].

(** What holds of every reachable state. *)
Record inv (env : Env) (s : state) : Prop := {
  (* a request in flight is the entry of its key *)
  inv_pending : forall i r,
    requests s !! i = Some r -> req_settled r = None -> active s !! req_key r = Some i;
  (* the entry of a key is the request of the owner that has not resumed *)
  inv_owner : forall c cl,
    calls s !! c = Some cl -> call_role cl = Owner -> call_returned cl = None ->
    active s !! cityKey (call_city cl) = Some (call_request cl);
  (* a request has one owner *)
  inv_owner_unique : forall c c' cl cl',
    calls s !! c = Some cl -> calls s !! c' = Some cl' ->
    call_role cl = Owner -> call_role cl' = Owner ->
    call_request cl = call_request cl' -> c = c';
  (* a call awaits a request of its key, and returned what it settled with *)
  inv_call : forall c cl,
    calls s !! c = Some cl ->
    exists r, requests s !! call_request cl = Some r /\
      req_key r = cityKey (call_city cl) /\
      (call_role cl = Owner -> req_city r = call_city cl) /\
      (forall o, call_returned cl = Some o -> req_settled r = Some o);
  (* a request settles with the snapshot of the city that started it *)
  inv_request : forall i r,
    requests s !! i = Some r ->
    req_key r = cityKey (req_city r) /\
    (forall o, req_settled r = Some o -> o = weather_request env (req_city r));
  (* an entry is a request of its key *)
  inv_active : forall k i,
    active s !! k = Some i -> exists r, requests s !! i = Some r /\ req_key r = k;
  (* two HTTP requests were sent for each request, and none else *)
  inv_wire : wire s = flat_map sent (requests s)
}.

End InFlight.

(** * Sample data *)

Definition sample_metadata (deleted : option bool) (weatherId : option Z) : parsed :=
  JValue {| Metadata.deleted := deleted; Metadata.weatherId := weatherId;
            Metadata.lat := Some 48; Metadata.lon := Some 2;
            Metadata.country := Some "FR" |}.

Definition sample_item (id name : string) (metadata : option parsed) (content : string)
    (updatedAt : option Z) : FavoriteItem.t :=
  {| FavoriteItem.id := id; FavoriteItem.name := name; FavoriteItem.metadata := metadata;
     FavoriteItem.content := content; FavoriteItem.createdAt := "2025-01-01T00:00:00.000Z";
     FavoriteItem.updatedAt := updatedAt |}.

(** The scenario of the specification: two live records of Paris and a
    deleted one that is the most recent. *)
Definition paris_T1 : FavoriteItem.t :=
  sample_item "id-1" "Paris" (Some (sample_metadata (Some false) (Some 10))) "{...}" (Some 1000).
Definition paris_T2 : FavoriteItem.t :=
  sample_item "id-2" "Paris" (Some (sample_metadata (Some false) (Some 10))) "{...}" (Some 2000).
Definition paris_T3_deleted : FavoriteItem.t :=
  sample_item "id-3" "Paris" (Some (sample_metadata (Some true) (Some 10))) "" (Some 3000).

(** A record whose metadata is no JSON. *)
Definition paris_unparseable : FavoriteItem.t :=
  sample_item "id-4" "Paris" None "{...}" (Some 4000).

(** A record with empty content whose metadata is no JSON. *)
Definition paris_empty_unparseable : FavoriteItem.t :=
  sample_item "id-5" "Paris" None "" (Some 5000).

Definition sample_cond : WeatherCond :=
  {| cond_main := "Clouds"; cond_description := "few clouds"; cond_icon := "02d" |}.

Definition sample_current : CurrentData :=
  {| cur_main_temp := (37 # 2)%Q; cur_main_humidity := 60; cur_wind_speed := 4;
     cur_weather := [sample_cond]; cur_id := 10; cur_timezone := 3600;
     cur_sys_sunrise := 1700000000; cur_sys_sunset := 1700040000 |}.

Definition sample_forecast : list ForecastItem :=
  [ {| fc_dt := 1700000000; fc_main_temp := (25 # 2)%Q; fc_weather := [sample_cond] |} ].

Definition online_state : result NetworkState :=
  Ok {| isConnected := Some true; isInternetReachable := Some true |}.

Definition offline_state : result NetworkState :=
  Ok {| isConnected := Some false; isInternetReachable := Some false |}.

(** An environment in which everything succeeds. *)
Definition env_ok (items : list FavoriteItem.t) : Env :=
  {| getNetworkStateAsync := online_state;
     Date_now := 1700000000000;
     Date_toISOString := "2023-11-14T22:13:20.000Z";
     toLocaleWeekday := fun _ => "Tue";
     geo_response := fun _ => Response true (Some []);
     weather_response := fun _ _ => Response true (Some sample_current);
     forecast_response := fun _ _ => Response true (Some sample_forecast);
     listItems_response := Ok (Some items);
     upsertItem_response := fun _ => Ok tt |}.

(** Online, but the weather provider answers with an error status. *)
Definition env_weather_down : Env :=
  {| getNetworkStateAsync := online_state;
     Date_now := 1700000000000;
     Date_toISOString := "2023-11-14T22:13:20.000Z";
     toLocaleWeekday := fun _ => "Tue";
     geo_response := fun _ => Response true (Some []);
     weather_response := fun _ _ => Response false None;
     forecast_response := fun _ _ => Response true (Some sample_forecast);
     listItems_response := Ok (Some []);
     upsertItem_response := fun _ => Ok tt |}.

(** No connectivity. *)
Definition env_offline : Env :=
  {| getNetworkStateAsync := offline_state;
     Date_now := 1700000000000;
     Date_toISOString := "2023-11-14T22:13:20.000Z";
     toLocaleWeekday := fun _ => "Tue";
     geo_response := fun _ => NetworkFailure;
     weather_response := fun _ _ => NetworkFailure;
     forecast_response := fun _ _ => NetworkFailure;
     listItems_response := Throw;
     upsertItem_response := fun _ => Throw |}.

Definition empty_store : Store :=
  {| weather_data := None; weather_last_fetch := None;
     weather_pending_requests := None; recent_city_searches := None |}.

Definition empty_world : World :=
  {| storage := empty_store; activeRequests := ∅ |}.

Definition paris : City.t :=
  {| City.name := "Paris"; City.lat := 48; City.lon := 2; City.country := "FR" |}.

(** Two towns of one name in one country. *)
Definition springfield_IL : City.t :=
  {| City.name := "Springfield"; City.lat := 39; City.lon := -89; City.country := "US" |}.
Definition springfield_MO : City.t :=
  {| City.name := "Springfield"; City.lat := 37; City.lon := -93; City.country := "US" |}.

(** A snapshot of Paris and a world that cached it at time [t]. *)
Definition sample_snapshot : WeatherData.t :=
  {| WeatherData.city := "Paris"; WeatherData.temperature := 19;
     WeatherData.conditions := "Clouds"; WeatherData.humidity := 60;
     WeatherData.windSpeed := 4; WeatherData.icon := "02d";
     WeatherData.description := "few clouds"; WeatherData.weatherId := 10;
     WeatherData.lastUpdated := "2023-11-14T21:13:20.000Z";
     WeatherData.forecast := [];
     WeatherData.lat := Some 48; WeatherData.lon := Some 2;
     WeatherData.country := Some "FR"; WeatherData.timezone := Some 3600;
     WeatherData.sunrise := Some 1700000000; WeatherData.sunset := Some 1700040000 |}.

Definition world_with_cache (t : Z) : World :=
  {| storage :=
       {| weather_data := Some {[ "Paris-FR" := sample_snapshot ]};
          weather_last_fetch := Some {[ "Paris-FR" := t ]};
          weather_pending_requests := None;
          recent_city_searches := None |};
     activeRequests := ∅ |}.

(** Five favourites of distinct cities, and an environment in which the
    upsert of the second one is refused. *)
Definition five_favorites : list FavoriteItem.t :=
  [ sample_item "id-a" "Paris" (Some (sample_metadata None (Some 1))) "{...}" (Some 1000);
    sample_item "id-b" "Lyon" (Some (sample_metadata None (Some 2))) "{...}" (Some 1000);
    sample_item "id-c" "Nice" (Some (sample_metadata None (Some 3))) "{...}" (Some 1000);
    sample_item "id-d" "Lille" (Some (sample_metadata None (Some 4))) "{...}" (Some 1000);
    sample_item "id-e" "Brest" (Some (sample_metadata None (Some 5))) "{...}" (Some 1000) ].


(** The remote list cannot be read. *)
Definition env_list_fails : Env :=
  {| getNetworkStateAsync := online_state;
     Date_now := 1700000000000;
     Date_toISOString := "2023-11-14T22:13:20.000Z";
     toLocaleWeekday := fun _ => "Tue";
     geo_response := fun _ => Response true (Some []);
     weather_response := fun _ _ => Response true (Some sample_current);
     forecast_response := fun _ _ => Response true (Some sample_forecast);
     listItems_response := Throw;
     upsertItem_response := fun _ => Ok tt |}.

(** Two calls for Paris that overlap, and two overlapping calls for the
    two Springfields; in both the first call starts request 0. *)
Definition two_calls_for_paris : list InFlight.action :=
  [InFlight.Call 1 paris; InFlight.Call 2 paris; InFlight.Settle 0;
   InFlight.Resume 1; InFlight.Resume 2].

Definition two_springfields : list InFlight.action :=
  [InFlight.Call 1 springfield_IL; InFlight.Call 2 springfield_MO; InFlight.Settle 0;
   InFlight.Resume 1; InFlight.Resume 2].

Definition state_after (env : Env) (actions : list InFlight.action) : InFlight.state :=
  default InFlight.init (InFlight.run env actions InFlight.init).

(** * Notions used in the statements *)

(** The three components of a finished computation. *)
Definition outcome {A : Type} (x : result A * World * list event) : result A := fst (fst x).
Definition world_after {A : Type} (x : result A * World * list event) : World := snd (fst x).
Definition calls_made {A : Type} (x : result A * World * list event) : list event := snd x.

(** What [isInternetAvailable] answers under [env]. *)
Definition online (env : Env) : bool :=
  match getNetworkStateAsync env with
  | Ok {| isConnected := Some true; isInternetReachable := Some true |} => true
  | _ => false
  end.

(** The snapshot cached for a city, and the time of its fetch. *)
Definition cachedSnapshot (w : World) (city : City.t) : option WeatherData.t :=
  default ∅ (weather_data (storage w)) !! cityKey city.

Definition cachedTime (w : World) (city : City.t) : option Z :=
  default ∅ (weather_last_fetch (storage w)) !! cityKey city.

(** The pending-request queue, and the test [storePendingRequest] applies
    to its entries. *)
Definition pendingQueue (w : World) : list City.t :=
  default [] (weather_pending_requests (storage w)).

Definition sameCity (city c : City.t) : bool :=
  String.eqb (City.name c) (City.name city) && String.eqb (City.country c) (City.country city).

(** What awaiting [fetchWeatherFromApi env city] yields in world [w]. *)
Definition fetchOutcome (env : Env) (city : City.t) (w : World) : result WeatherData.t :=
  match activeRequests w !! cityKey city with
  | Some inFlight => inFlight
  | None => weather_request env city
  end.

Definition is_weather_fetch (e : event) : bool :=
  match e with
  | HttpWeather _ _ => true
  | _ => false
  end.

Definition is_sleep (e : event) : bool :=
  match e with
  | Sleep _ => true
  | _ => false
  end.

(** A record the soft-delete rule makes absent although its metadata
    parses: empty content, or [deleted] equal to [true]. *)
Definition softDeleted (item : FavoriteItem.t) : bool :=
  match FavoriteItem.metadata item with
  | Some v =>
      String.eqb (FavoriteItem.content item) ""
      || match v with
         | JValue m => is_true_value (Metadata.deleted m)
         | JNull => false
         end
  | None => false
  end.

(** The key under which [dedupeItem] files an item. *)
Definition dedupeKey (item : FavoriteItem.t) : string :=
  match compositeKey item with
  | Ok key => key
  | Throw => toLowerCase (FavoriteItem.name item)
  end.

(** What holds of the [Map] once the items [processed] went through
    [dedupeItem]: its keys are distinct, every entry is a processed item
    filed under its key that no processed item of the key is more recent
    than, and every processed item has its key in the map. *)
Definition dedupeInv (processed : list FavoriteItem.t) (m : cityMap_t) : Prop :=
  NoDup (map fst m) /\
  (forall k v, In (k, v) m ->
     In v processed /\ dedupeKey v = k /\
     forall x, In x processed -> dedupeKey x = k ->
       date_gt (FavoriteItem.updatedAt x) (FavoriteItem.updatedAt v) = false) /\
  (forall x, In x processed -> In (dedupeKey x) (map fst m)).

(** ** The pipeline of one candidate, as the specification words it

    Geo resolution, then a fresh weather fetch, then an upsert that keeps
    the id of the record; each stage can fail, and the candidate succeeds
    when all three did. *)

(** The HTTP requests a call of [fetchWeatherFromApi] sends. *)
Definition fetchCalls (city : City.t) (w : World) : list event :=
  match activeRequests w !! cityKey city with
  | Some _ => []
  | None => [HttpWeather (City.lat city) (City.lon city);
             HttpForecast (City.lat city) (City.lon city)]
  end.

(** The city the geo search gives a candidate: its first match. *)
Definition searchedCity (env : Env) (favorite : FavoriteItem.t) (w : World)
    : option City.t * list event :=
  match searchCities env (FavoriteItem.name favorite) w with
  | (Ok (geo :: _), _, t) =>
      (Some {| City.name := FavoriteItem.name favorite;
               City.lat := City.lat geo; City.lon := City.lon geo;
               City.country := if String.eqb (City.country geo) "" then "Unknown"
                               else City.country geo |}, t)
  | (_, _, t) => (None, t)
  end.

(** The city of a candidate: from its metadata when that has both
    coordinates (0 counting as missing), else from the geo search. *)
Definition resolveCity (env : Env) (favorite : FavoriteItem.t) (w : World)
    : option City.t * list event :=
  match metadataGeo favorite with
  | (Some lat, Some lon, country) =>
      if (lat =? 0) || (lon =? 0) then searchedCity env favorite w
      else
        (Some {| City.name := FavoriteItem.name favorite;
                 City.lat := lat; City.lon := lon;
                 City.country := match country with
                                 | Some c => if String.eqb c "" then "Unknown" else c
                                 | None => "Unknown"
                                 end |}, [])
  | _ => searchedCity env favorite w
  end.

(** The upsert of a refreshed candidate: the id of the record (when it is
    not empty), and the content and metadata of the new snapshot. *)
Definition upsertOf (favorite : FavoriteItem.t) (weatherData : WeatherData.t) : ItemInput.t :=
  {| ItemInput.id := if String.eqb (FavoriteItem.id favorite) "" then None
                     else Some (FavoriteItem.id favorite);
     ItemInput.name := WeatherData.city weatherData;
     ItemInput.content :=
       ContentSummary (WeatherData.temperature weatherData)
                      (WeatherData.conditions weatherData)
                      (WeatherData.description weatherData);
     ItemInput.metadata :=
       MetadataWeather
         {| FavoriteWeatherData.id := Some (FavoriteItem.id favorite);
            FavoriteWeatherData.city := WeatherData.city weatherData;
            FavoriteWeatherData.temperature := WeatherData.temperature weatherData;
            FavoriteWeatherData.conditions := WeatherData.conditions weatherData;
            FavoriteWeatherData.humidity := WeatherData.humidity weatherData;
            FavoriteWeatherData.windSpeed := WeatherData.windSpeed weatherData;
            FavoriteWeatherData.icon := WeatherData.icon weatherData;
            FavoriteWeatherData.description := WeatherData.description weatherData;
            FavoriteWeatherData.weatherId := Some (WeatherData.weatherId weatherData);
            FavoriteWeatherData.lat := WeatherData.lat weatherData;
            FavoriteWeatherData.lon := WeatherData.lon weatherData;
            FavoriteWeatherData.country := WeatherData.country weatherData;
            FavoriteWeatherData.timezone := None;
            FavoriteWeatherData.sunrise := None;
            FavoriteWeatherData.sunset := None |} |}.

(** Fetch and upsert for the city that was resolved, with the calls made
    so far. *)
Definition refreshResolved (env : Env) (w : World) (favorite : FavoriteItem.t)
    (resolved : option City.t * list event) : bool * list event :=
  match resolved with
  | (None, t) => (false, t)
  | (Some city, t) =>
      match fetchOutcome env city w with
      | Throw => (false, t ++ fetchCalls city w)
      | Ok weatherData =>
          let input := upsertOf favorite weatherData in
          (match upsertItem_response env input with
           | Ok _ => true
           | Throw => false
           end,
           t ++ fetchCalls city w ++ [GqlUpsert input])
      end
  end.

(** Whether the candidate succeeded, and the calls its pipeline made. *)
Definition pipeline (env : Env) (w : World) (favorite : FavoriteItem.t) : bool * list event :=
  refreshResolved env w favorite (resolveCity env favorite w).

(** The calls of a run whose batches made the calls [batches]: a pause of
    one second after each batch but the last. *)
Fixpoint batchLogs (batches : list (list (list event))) : list event :=
  match batches with
  | [] => []
  | batch :: rest =>
      concat batch ++
      match rest with
      | [] => []
      | _ :: _ => Sleep 1000 :: batchLogs rest
      end
  end.

(** The batches of the specification: [l] cut into pieces of [n], the last
    one possibly shorter; [fuel] bounds the number of pieces. *)
Fixpoint chunks_fuel {A : Type} (fuel n : nat) (l : list A) : list (list A) :=
  match fuel with
  | O => []
  | S fuel' =>
      match l with
      | [] => []
      | _ :: _ => take n l :: chunks_fuel fuel' n (drop n l)
      end
  end.

Definition chunks {A : Type} (n : nat) (l : list A) : list (list A) :=
  chunks_fuel (length l) n l.

(** * The rest of the services *)

(** ** WeatherService: the pending requests and the whole cache *)

(** The callback of [batch.map] in [processPendingRequests] (lines
    183-202): fetch, put the snapshot into both caches, and swallow what
    goes wrong. *)
Definition processPendingCity (env : Env) (city : City.t) : Eff unit :=
  catch
    (let! data := fetchWeatherFromApi env city in
     cacheFreshData city data (Date_now env))
    (ret tt).

(** The [for] loop of lines 179-208 from index [i] on; [fuel] bounds the
    number of iterations. *)
Fixpoint processPendingBatches (env : Env) (fuel : nat) (pendingRequests : list City.t)
    (i : nat) : Eff unit :=
  match fuel with
  | O => ret tt
  | S fuel' =>
      if (i <? length pendingRequests)%nat then
        let batch := take batchSize (drop i pendingRequests) in
        do! all_settled (processPendingCity env) batch in
        do! (if (i + batchSize <? length pendingRequests)%nat
             then emit (Sleep 1000) else ret tt) in
        processPendingBatches env fuel' pendingRequests (i + batchSize)%nat
      else ret tt
  end.

Definition processPendingRequests (env : Env) : Eff unit :=
  catch
    (let! isOnline := isInternetAvailable env in
     if negb isOnline then ret tt
     else
       let! stored := getData weather_pending_requests in
       let pendingRequests := default [] stored in
       if (length pendingRequests =? 0)%nat then ret tt
       else
         do! processPendingBatches env (length pendingRequests) pendingRequests 0 in
         removeData put_weather_pending_requests)
    (ret tt).


(** ** AppInitService

    [token] is what [AsyncStorage.getItem(TOKEN_STORAGE_KEY)] yields; the
    entry of the session is no part of [Store]. *)
Definition initializeApp (env : Env) (token : option string) : Eff unit :=
  catch
    (let! isOnline := isInternetAvailable env in
     if negb isOnline then ret tt
     else if negb (truthy_str token) then ret tt
     else
       do! updateAllFavorites env in
       ret tt)
    (ret tt).

(** ** AuthContext: the validity of a token

    [jwtDecode] is the function of the jwt-decode package: it throws on a
    malformed token and returns the payload otherwise; of the payload only
    [exp] is read. *)
Record JWTPayload : Type := {
  exp : option Z
}.

Definition verifyToken (jwtDecode : string -> result (option JWTPayload))
    (currentTime : Z) (token : string) : bool :=
  if String.eqb token "" then false
  else
    match
      rbind (jwtDecode token) (fun decodedToken =>
      match decodedToken with
      | None => Ok false
      | Some payload =>
          if negb (truthy_num (exp payload)) then Ok false
          else
            let expirationTime := default 0 (exp payload) * 1000 in
            if currentTime >? expirationTime then Ok false else Ok true
      end)
    with
    | Ok valid => valid
    | Throw => false
    end.

(** ** Notions used in the statements *)

(** The recent searches. *)
Definition recentSearches (w : World) : list City.t :=
  default [] (recent_city_searches (storage w)).

(** No two entries of a list of cities have the same name and country. *)
Fixpoint distinctCities (l : list City.t) : bool :=
  match l with
  | [] => true
  | c :: l' => negb (existsb (sameCity c) l') && distinctCities l'
  end.

Definition is_upsert (e : event) : bool :=
  match e with
  | GqlUpsert _ => true
  | _ => false
  end.

Definition is_geo_call (e : event) : bool :=
  match e with
  | NetworkGetState | HttpGeo _ => true
  | _ => false
  end.

Definition is_list_query (e : event) : bool :=
  match e with
  | GqlListItems => true
  | _ => false
  end.

(** The upsert by which [toggleFavorite] marks an item as deleted. *)
Definition deletionOf (env : Env) (weatherData : WeatherData.t) (item : FavoriteItem.t)
    : ItemInput.t :=
  {| ItemInput.id := Some (FavoriteItem.id item);
     ItemInput.name := FavoriteItem.name item;
     ItemInput.content := ContentEmpty;
     ItemInput.metadata :=
       MetadataDeleted (Date_toISOString env) (WeatherData.weatherId weatherData)
                       (WeatherData.city weatherData) |}.

(** The upsert by which [toggleFavorite] adds a snapshot. *)
Definition insertionOf (weatherData : WeatherData.t) : ItemInput.t :=
  {| ItemInput.id := None;
     ItemInput.name := WeatherData.city weatherData;
     ItemInput.content :=
       ContentSummary (WeatherData.temperature weatherData)
                      (WeatherData.conditions weatherData)
                      (WeatherData.description weatherData);
     ItemInput.metadata := MetadataWeather (convertToFavoriteData weatherData) |}.

(** ** More sample data *)

(** A world that remembers a fetch of Paris at time [t] but holds no
    snapshot. *)
Definition world_time_only (t : Z) : World :=
  {| storage :=
       {| weather_data := None;
          weather_last_fetch := Some {[ "Paris-FR" := t ]};
          weather_pending_requests := None;
          recent_city_searches := None |};
     activeRequests := ∅ |}.

Definition lyon : City.t :=
  {| City.name := "Lyon"; City.lat := 45; City.lon := 4; City.country := "FR" |}.

(** A world with the given pending queue and recent searches. *)
Definition world_with_lists (pending recent : list City.t) : World :=
  {| storage :=
       {| weather_data := None;
          weather_last_fetch := None;
          weather_pending_requests := Some pending;
          recent_city_searches := Some recent |};
     activeRequests := ∅ |}.

(** A second record of Paris as recent as [paris_T2]. *)
Definition paris_T2_again : FavoriteItem.t :=
  sample_item "id-6" "Paris" (Some (sample_metadata (Some false) (Some 10))) "{...}" (Some 2000).

(** What holds besides [dedupeInv]: the entry of a key is more recent than
    every item of the key processed before it. *)
Definition dedupeFirst (processed : list FavoriteItem.t) (m : cityMap_t) : Prop :=
  forall k v, In (k, v) m ->
    exists before after, processed = before ++ v :: after /\
      forall x, In x before -> dedupeKey x = k ->
        date_gt (FavoriteItem.updatedAt v) (FavoriteItem.updatedAt x) = true.

(** Every entry of [activeRequests] is the request of an owner that has
    not resumed. *)
Definition entriesOwned (s : InFlight.state) : Prop :=
  forall k i, InFlight.active s !! k = Some i ->
    exists c cl, InFlight.calls s !! c = Some cl /\
      InFlight.call_role cl = InFlight.Owner /\
      InFlight.call_returned cl = None /\
      cityKey (InFlight.call_city cl) = k /\
      InFlight.call_request cl = i.

(** Two calls for Paris, both suspended. *)
Definition two_suspended_calls : list InFlight.action :=
  [InFlight.Call 1 paris; InFlight.Call 2 paris].

(** A decoder that rejects the token [bad] and reads an expiry of
    1700000000 seconds from any other. *)
Definition sample_jwtDecode (token : string) : result (option JWTPayload) :=
  if String.eqb token "bad" then Throw else Ok (Some {| exp := Some 1700000000 |}).

(** The provider sends forty-one forecast samples. *)
Definition env_long_forecast : Env :=
  {| getNetworkStateAsync := online_state;
     Date_now := 1700000000000;
     Date_toISOString := "2023-11-14T22:13:20.000Z";
     toLocaleWeekday := fun _ => "Tue";
     geo_response := fun _ => Response true (Some []);
     weather_response := fun _ _ => Response true (Some sample_current);
     forecast_response := fun _ _ =>
       Response true
         (Some (List.repeat {| fc_dt := 1700000000; fc_main_temp := (25 # 2)%Q;
                               fc_weather := [sample_cond] |} 41));
     listItems_response := Ok (Some []);
     upsertItem_response := fun _ => Ok tt |}.

(** Linear arithmetic with division and remainder by a constant. *)
Ltac lia_mod := zify; Z.to_euclidean_division_equations; lia.

(** * Properties *)

(** ** The monad and the helpers *)

Lemma outcome_catch_ret {A : Type} (body : Eff A) (a0 : A) (w : World) :
  exists a, outcome (catch body (ret a0) w) = Ok a.
Proof.
  unfold outcome, catch, ret.
  destruct (body w) as [[[a|] w1] t1]; simpl; eauto.
Qed.

Lemma isInternetAvailable_eq (env : Env) (w : World) :
  isInternetAvailable env w = (Ok (online env), w, [NetworkGetState]).
Proof.
  unfold isInternetAvailable, online, catch, bind, emit, lift, ret.
  destruct (getNetworkStateAsync env) as [[[[]|] [[]|]]|]; reflexivity.
Qed.

Lemma getData_eq {T : Type} (key : Store -> option T) (w : World) :
  getData key w = (Ok (key (storage w)), w, []).
Proof. reflexivity. Qed.


Lemma truthy_num_false (v : option Z) :
  truthy_num v = false <-> v = None \/ v = Some 0.
Proof.
  destruct v as [n|]; simpl.
  - destruct (Z.eqb_spec n 0); simpl; split; intros H; try discriminate.
    + right. congruence.
    + reflexivity.
    + destruct H as [H|H]; congruence.
  - split; auto.
Qed.

Lemma catch_bind_ok {A B : Type} (m : Eff A) (k : A -> Eff B) (h : Eff B)
    (w w1 : World) (a : A) (t : list event) :
  m w = (Ok a, w1, t) ->
  catch (bind m k) h w
  = (outcome (catch (k a) h w1), world_after (catch (k a) h w1),
     t ++ calls_made (catch (k a) h w1)).
Proof.
  intros Hm. unfold catch, bind, outcome, world_after, calls_made. rewrite Hm.
  destruct (k a w1) as [[[b|] w2] t2]; simpl; [reflexivity|].
  destruct (h w2) as [[r w3] t3]; simpl. rewrite app_assoc. reflexivity.
Qed.

(** ** GeoService: short queries and failures *)



(** ** WeatherService: the age of the cache *)

Lemma isCacheExpired_true (lastFetch : option Z) (currentTime : Z) (forceRefresh : bool) :
  isCacheExpired lastFetch currentTime forceRefresh = true <->
  lastFetch = None \/ lastFetch = Some 0 \/
  (exists t, lastFetch = Some t /\ currentTime - t > 3600000) \/
  forceRefresh = true.
Proof.
  unfold isCacheExpired, CACHE_EXPIRATION.
  destruct lastFetch as [t|]; simpl.
  - destruct (Z.eqb_spec t 0) as [->|Hne]; simpl.
    + split; auto.
    + destruct (Z.gtb_spec (currentTime - t) (60 * 60 * 1000)) as [Hgt0|Hle0]; simpl.
      * split; [|reflexivity]. intros _. right. right. left. exists t. split; [reflexivity|lia].
      * split.
        -- intros ->. auto.
        -- intros [H|[H|[[t' [H Hgt]]|H]]]; try congruence.
           injection H as <-. lia.
  - split; auto.
Qed.

(** ** WeatherService: one call run to its end *)

Lemma fetchWeatherFromApi_eq (env : Env) (city : City.t) (w : World) :
  fetchWeatherFromApi env city w =
  match activeRequests w !! cityKey city with
  | Some inFlight => (inFlight, w, [])
  | None => (weather_request env city, w,
             [HttpWeather (City.lat city) (City.lon city);
              HttpForecast (City.lat city) (City.lon city)])
  end.
Proof.
  unfold fetchWeatherFromApi, bind, get_world.
  destruct (activeRequests w !! cityKey city) as [inFlight|] eqn:Hkey.
  - unfold lift. destruct inFlight; reflexivity.
  - unfold catch, bind, emit, set_activeRequests, get_world, lift, ret, throw.
    destruct w as [st ar]. simpl in *.
    rewrite lookup_insert_eq. simpl.
    destruct (weather_request env city) as [snapshot|]; simpl;
      rewrite (delete_insert_id _ _ _ Hkey); reflexivity.
Qed.

Lemma fetchWeatherFromApi_outcome (env : Env) (city : City.t) (w : World) :
  outcome (fetchWeatherFromApi env city w) = fetchOutcome env city w /\
  world_after (fetchWeatherFromApi env city w) = w.
Proof.
  rewrite fetchWeatherFromApi_eq. unfold fetchOutcome.
  destruct (activeRequests w !! cityKey city); split; reflexivity.
Qed.

(** [clearCityWeatherCache] does not throw, leaves [activeRequests] alone
    and leaves no snapshot under the key of the city. *)
Lemma clearCityWeatherCache_spec (city : City.t) (w : World) :
  exists w', clearCityWeatherCache city w = (Ok tt, w', []) /\
    activeRequests w' = activeRequests w /\
    cachedSnapshot w' city = None /\
    pendingQueue w' = pendingQueue w.
Proof.
  unfold clearCityWeatherCache, catch, bind, getData, storeData, ret, throw.
  unfold cachedSnapshot, pendingQueue.
  destruct w as [[wd lf pq rs] ar]. simpl.
  destruct (default ∅ wd !! cityKey city) as [snap|] eqn:Hsnap; simpl;
    destruct (truthy_num (default ∅ lf !! cityKey city)); simpl;
    eexists; (split; [reflexivity|]); simpl;
    rewrite ?lookup_delete_eq; auto.
Qed.

Lemma storePendingRequest_eq (city : City.t) (w : World) :
  storePendingRequest city w =
  (Ok tt,
   if existsb (sameCity city) (pendingQueue w) then w
   else {| storage := put_weather_pending_requests (Some (pendingQueue w ++ [city])) (storage w);
           activeRequests := activeRequests w |},
   []).
Proof.
  unfold storePendingRequest, catch, bind, getData, storeData, ret, pendingQueue.
  fold (sameCity city).
  destruct (existsb (sameCity city) (default [] (weather_pending_requests (storage w))));
    reflexivity.
Qed.

Lemma sameCity_refl (city : City.t) : sameCity city city = true.
Proof. unfold sameCity. rewrite !String.eqb_refl. reflexivity. Qed.

Lemma existsb_sameCity_snoc (city : City.t) (q : list City.t) :
  existsb (sameCity city) (q ++ [city]) = true.
Proof.
  rewrite existsb_app. simpl. rewrite sameCity_refl.
  rewrite orb_true_r. reflexivity.
Qed.

Lemma filter_sameCity_none (city : City.t) (q : list City.t) :
  existsb (sameCity city) q = false -> List.filter (sameCity city) q = [].
Proof.
  induction q as [|c q IH]; simpl; [reflexivity|].
  intros H. apply orb_false_iff in H as [Hc Hq].
  rewrite Hc. auto.
Qed.

(** What [getWeatherData] does when the device is offline: the outcome of
    lines 271-281 and 301. *)
Lemma getWeatherData_offline_eq (env : Env) (city : City.t) (forceRefresh : bool) (w : World) :
  online env = false ->
  getWeatherData env city forceRefresh w =
  match cachedSnapshot w city with
  | Some cached => (Ok (Some cached), w, [NetworkGetState])
  | None =>
      (Ok None,
       if existsb (sameCity city) (pendingQueue w) then w
       else {| storage := put_weather_pending_requests (Some (pendingQueue w ++ [city])) (storage w);
               activeRequests := activeRequests w |},
       [NetworkGetState])
  end.
Proof.
  intros Hoff. unfold getWeatherData, catch at 1, bind at 1.
  rewrite isInternetAvailable_eq, Hoff. simpl.
  unfold bind at 1. rewrite getData_eq. simpl.
  unfold bind at 1. rewrite getData_eq. simpl.
  unfold cachedSnapshot.
  destruct (default ∅ (weather_data (storage w)) !! cityKey city) as [cached|]; simpl.
  - reflexivity.
  - unfold bind. rewrite storePendingRequest_eq. reflexivity.
Qed.

(** C8.  Offline and without a cached snapshot, [getWeatherData] returns
    [null] after asking for connectivity only, and puts the city at the end
    of the pending queue unless an entry with its name and country is
    there; a second call with the same city returns [null] again and leaves
    the world as the first call left it, so the city that was not queued
    before is queued exactly once. *)
Theorem getWeatherData_offline_cold_miss (env : Env) (city : City.t)
    (force1 force2 : bool) (w : World) :
  online env = false ->
  cachedSnapshot w city = None ->
  let first_call := getWeatherData env city force1 w in
  let second_call := getWeatherData env city force2 (world_after first_call) in
  outcome first_call = Ok None /\
  calls_made first_call = [NetworkGetState] /\
  pendingQueue (world_after first_call)
  = (if existsb (sameCity city) (pendingQueue w) then pendingQueue w
     else pendingQueue w ++ [city]) /\
  outcome second_call = Ok None /\
  world_after second_call = world_after first_call /\
  (existsb (sameCity city) (pendingQueue w) = false ->
   List.filter (sameCity city) (pendingQueue (world_after second_call)) = [city]).
Proof.
  intros Hoff Hcold. cbv zeta.
  rewrite (getWeatherData_offline_eq env city force1 w Hoff), Hcold.
  unfold outcome, world_after, calls_made. simpl.
  set (w1 := if existsb (sameCity city) (pendingQueue w) then w else _).
  assert (Hcold1 : cachedSnapshot w1 city = None).
  { subst w1. destruct (existsb (sameCity city) (pendingQueue w)); [exact Hcold|].
    exact Hcold. }
  assert (Hq1 : pendingQueue w1
                = if existsb (sameCity city) (pendingQueue w) then pendingQueue w
                  else pendingQueue w ++ [city]).
  { subst w1. destruct (existsb (sameCity city) (pendingQueue w)); reflexivity. }
  assert (Hin1 : existsb (sameCity city) (pendingQueue w1) = true).
  { rewrite Hq1. destruct (existsb (sameCity city) (pendingQueue w)) eqn:Hin; [exact Hin|].
    apply existsb_sameCity_snoc. }
  rewrite (getWeatherData_offline_eq env city force2 w1 Hoff), Hcold1, Hin1. simpl.
  repeat split; try assumption.
  intros Hnew. rewrite Hq1, Hnew.
  rewrite List.filter_app, (filter_sameCity_none _ _ Hnew). simpl.
  rewrite sameCity_refl. reflexivity.
Qed.

Lemma getWeatherData_offline_cold_miss_witness :
  outcome (getWeatherData env_offline paris false empty_world) = Ok None /\
  pendingQueue
    (world_after
       (getWeatherData env_offline paris false
          (world_after (getWeatherData env_offline paris false empty_world))))
  = [paris].
Proof.
  assert (Hoff : online env_offline = false) by reflexivity.
  assert (Hcold : cachedSnapshot empty_world paris = None) by reflexivity.
  pose proof (getWeatherData_offline_cold_miss env_offline paris false false
                empty_world Hoff Hcold) as H.
  cbv zeta in H.
  destruct H as (H1 & _ & _ & _ & _ & _).
  split; [exact H1|reflexivity].
Defined.

Lemma fetchOutcome_same_requests (env : Env) (city : City.t) (w w' : World) :
  activeRequests w' = activeRequests w ->
  fetchOutcome env city w' = fetchOutcome env city w.
Proof. unfold fetchOutcome. intros ->. reflexivity. Qed.

Lemma fetchWeatherFromApi_throw (env : Env) (city : City.t) (w : World) :
  fetchOutcome env city w = Throw ->
  exists t, fetchWeatherFromApi env city w = (Throw, w, t).
Proof.
  unfold fetchOutcome. rewrite fetchWeatherFromApi_eq.
  destruct (activeRequests w !! cityKey city); intros ->; eauto.
Qed.

(** Online with a cache that is not expired and holds a snapshot:
    [getWeatherData] returns the snapshot and sends nothing. *)
Lemma getWeatherData_fresh (env : Env) (city : City.t) (forceRefresh : bool)
    (w : World) (cached : WeatherData.t) :
  isCacheExpired (cachedTime w city) (Date_now env) forceRefresh = false ->
  cachedSnapshot w city = Some cached ->
  getWeatherData env city forceRefresh w = (Ok (Some cached), w, [NetworkGetState]).
Proof.
  unfold cachedTime, cachedSnapshot. intros Hfresh Hcached.
  unfold getWeatherData, catch at 1, bind at 1.
  rewrite isInternetAvailable_eq. simpl.
  unfold bind at 1. rewrite getData_eq. simpl.
  rewrite Hfresh, andb_false_r.
  unfold bind at 1. rewrite getData_eq. simpl.
  rewrite Hcached. reflexivity.
Qed.

(** Online with an expired cache and a fetch that fails: the outer handler
    of [getWeatherData] turns the failure into [null] unless the cache
    still holds a snapshot, which a forced refresh has evicted. *)
Lemma getWeatherData_fetch_fails (env : Env) (city : City.t) (forceRefresh : bool) (w : World) :
  online env = true ->
  isCacheExpired (cachedTime w city) (Date_now env) forceRefresh = true ->
  fetchOutcome env city w = Throw ->
  outcome (getWeatherData env city forceRefresh w)
  = Ok (if forceRefresh then None else cachedSnapshot w city).
Proof.
  unfold cachedTime. intros Hon Hexp Hfail.
  unfold getWeatherData, catch at 1, bind at 1.
  rewrite isInternetAvailable_eq, Hon. simpl.
  unfold bind at 1. rewrite getData_eq. simpl.
  rewrite Hexp. simpl.
  destruct forceRefresh.
  - destruct (clearCityWeatherCache_spec city w) as (w' & Hclear & Har & Hnone & _).
    rewrite <- (fetchOutcome_same_requests env city w w' Har) in Hfail.
    destruct (fetchWeatherFromApi_throw env city w' Hfail) as [t Hfetch].
    unfold catch, bind. rewrite Hclear, Hfetch. simpl.
    unfold cachedSnapshot in Hnone. rewrite Hnone. reflexivity.
  - destruct (fetchWeatherFromApi_throw env city w Hfail) as [t Hfetch].
    unfold catch, bind, ret at 1. rewrite Hfetch. simpl.
    unfold cachedSnapshot.
    destruct (default ∅ (weather_data (storage w)) !! cityKey city); reflexivity.
Qed.

(** C4, as the code has it.  The cache is expired exactly when no time is
    stored for the key, or the stored time is 0, or the age is strictly
    greater than one hour, or a refresh is forced; so a snapshot whose age
    is at most one hour (one hour included), cached at a time other than 0
    and read without [forceRefresh], is fresh: [getWeatherData] returns it
    and sends no request. *)
Theorem cache_expiry_boundary (env : Env) (city : City.t) (w : World)
    (t : Z) (cached : WeatherData.t) (forceRefresh : bool) :
  (isCacheExpired (cachedTime w city) (Date_now env) forceRefresh = true <->
   cachedTime w city = None \/ cachedTime w city = Some 0 \/
   (exists t', cachedTime w city = Some t' /\ Date_now env - t' > 3600000) \/
   forceRefresh = true) /\
  (cachedTime w city = Some t -> t <> 0 -> Date_now env - t <= 3600000 ->
   cachedSnapshot w city = Some cached ->
   getWeatherData env city false w = (Ok (Some cached), w, [NetworkGetState])).
Proof.
  split.
  - apply isCacheExpired_true.
  - intros Ht Hne Hage Hcached.
    apply getWeatherData_fresh; [|exact Hcached].
    destruct (isCacheExpired (cachedTime w city) (Date_now env) false) eqn:Hexp;
      [|reflexivity].
    apply isCacheExpired_true in Hexp.
    rewrite Ht in Hexp.
    destruct Hexp as [H|[H|[[t' [H Hgt]]|H]]]; try discriminate.
    + congruence.
    + injection H as <-. lia.
Qed.

Lemma cache_expiry_boundary_witness :
  getWeatherData (env_ok []) paris false (world_with_cache (1700000000000 - 3600000))
  = (Ok (Some sample_snapshot), world_with_cache (1700000000000 - 3600000), [NetworkGetState]).
Proof.
  apply (cache_expiry_boundary (env_ok []) paris
           (world_with_cache (1700000000000 - 3600000))
           (1700000000000 - 3600000) sample_snapshot false).
  - reflexivity.
  - discriminate.
  - simpl. lia.
  - reflexivity.
Defined.

(** C4 as stated fails: a snapshot cached exactly one hour ago, read without
    [forceRefresh], is not expired, and [getWeatherData] serves it from
    the cache without a request although the device is online. *)
Lemma cache_one_hour_old_is_fresh :
  Date_now (env_ok []) - (1700000000000 - 3600000) = 3600000 /\
  isCacheExpired (cachedTime (world_with_cache (1700000000000 - 3600000)) paris)
                 (Date_now (env_ok [])) false = false /\
  getWeatherData (env_ok []) paris false (world_with_cache (1700000000000 - 3600000))
  = (Ok (Some sample_snapshot), world_with_cache (1700000000000 - 3600000), [NetworkGetState]).
Proof. repeat split; vm_compute; reflexivity. Qed.

(** C5, as the code has it.  [getWeatherData] never throws.  When the
    device is online, the cache is expired or the refresh forced, and the
    fetch fails, it returns the snapshot the cache holds for the key, and
    [null] when there is none; after a forced refresh there is none, the
    cache having been cleared before the fetch. *)
Theorem getWeatherData_fetch_failure (env : Env) (city : City.t)
    (forceRefresh : bool) (w : World) :
  (exists value, outcome (getWeatherData env city forceRefresh w) = Ok value) /\
  (online env = true ->
   isCacheExpired (cachedTime w city) (Date_now env) forceRefresh = true ->
   fetchOutcome env city w = Throw ->
   outcome (getWeatherData env city forceRefresh w)
   = Ok (if forceRefresh then None else cachedSnapshot w city)).
Proof.
  split.
  - apply outcome_catch_ret.
  - apply getWeatherData_fetch_fails.
Qed.

Lemma getWeatherData_fetch_failure_witness :
  outcome (getWeatherData env_weather_down paris false (world_with_cache 1000))
  = Ok (Some sample_snapshot).
Proof.
  apply (getWeatherData_fetch_failure env_weather_down paris false (world_with_cache 1000));
    reflexivity.
Defined.

(** C5 as stated fails: online, nothing cached and the provider down,
    [getWeatherData] returns [null] and does not throw; and with a forced
    refresh the snapshot that was cached is not returned either. *)
Lemma getWeatherData_swallows_fetch_failure :
  online env_weather_down = true /\
  fetchOutcome env_weather_down paris empty_world = Throw /\
  cachedSnapshot empty_world paris = None /\
  outcome (getWeatherData env_weather_down paris false empty_world) = Ok None /\
  cachedSnapshot (world_with_cache 1000) paris = Some sample_snapshot /\
  outcome (getWeatherData env_weather_down paris true (world_with_cache 1000)) = Ok None.
Proof. repeat split; vm_compute; reflexivity. Qed.

(** ** Favourites: the soft-delete rule *)

Lemma isValidItem_true (item : FavoriteItem.t) :
  isValidItem item = true <->
  exists m, FavoriteItem.metadata item = Some (JValue m) /\
            FavoriteItem.content item <> "" /\
            Metadata.deleted m <> Some true.
Proof.
  unfold isValidItem, JSON_parse.
  destruct (FavoriteItem.metadata item) as [[|m]|]; simpl.
  - destruct (String.eqb_spec (FavoriteItem.content item) ""); simpl;
      split; try discriminate; intros (m & H & _); discriminate.
  - destruct (String.eqb_spec (FavoriteItem.content item) "") as [Hc|Hc]; simpl.
    + split; [discriminate|]. intros (m' & _ & Hne & _). contradiction.
    + destruct (Metadata.deleted m) as [[|]|] eqn:Hd; simpl.
      * split; [discriminate|]. intros (m' & Hm & _ & Hnd).
        injection Hm as <-. congruence.
      * split; [|reflexivity]. intros _. exists m. rewrite Hd. repeat split; congruence.
      * split; [|reflexivity]. intros _. exists m. rewrite Hd. repeat split; congruence.
  - split; [discriminate|]. intros (m & H & _). discriminate.
Qed.

Lemma isValidItem_not_softDeleted (item : FavoriteItem.t) :
  isValidItem item = true ->
  softDeleted item = false /\ FavoriteItem.metadata item <> None.
Proof.
  intros (m & Hm & Hc & Hd)%isValidItem_true.
  unfold softDeleted. rewrite Hm. split; [|discriminate].
  apply orb_false_iff. split.
  - apply String.eqb_neq. exact Hc.
  - destruct (Metadata.deleted m) as [[|]|]; simpl; congruence.
Qed.

Lemma softDeleted_isFavoriteItem (cityName : string) (weatherId : option Z)
    (item : FavoriteItem.t) :
  softDeleted item = true -> isFavoriteItem cityName weatherId item = false.
Proof.
  unfold softDeleted, isFavoriteItem, JSON_parse.
  destruct (negb _); [reflexivity|].
  destruct (FavoriteItem.metadata item) as [[|m]|]; simpl; try discriminate.
  - rewrite orb_false_r. intros ->. reflexivity.
  - destruct (String.eqb (FavoriteItem.content item) ""); simpl; [reflexivity|].
    intros ->. reflexivity.
Qed.

Lemma softDeleted_isMatchingItem (weatherData : WeatherData.t) (item : FavoriteItem.t) :
  softDeleted item = true -> isMatchingItem weatherData item = false.
Proof.
  unfold softDeleted, isMatchingItem, JSON_parse.
  destruct (FavoriteItem.metadata item) as [[|m]|]; simpl; try discriminate.
  - rewrite orb_false_r. intros ->. reflexivity.
  - destruct (String.eqb (FavoriteItem.content item) ""); simpl; [reflexivity|].
    intros ->. reflexivity.
Qed.

Lemma unparseable_isFavoriteItem (cityName : string) (weatherId : option Z)
    (item : FavoriteItem.t) :
  FavoriteItem.metadata item = None ->
  isFavoriteItem cityName weatherId item
  = String.eqb (toLowerCase (FavoriteItem.name item)) (toLowerCase cityName).
Proof.
  unfold isFavoriteItem, JSON_parse. intros ->. simpl.
  destruct (String.eqb _ _); reflexivity.
Qed.

Lemma unparseable_isMatchingItem (weatherData : WeatherData.t) (item : FavoriteItem.t) :
  FavoriteItem.metadata item = None ->
  isMatchingItem weatherData item
  = String.eqb (toLowerCase (FavoriteItem.name item))
               (toLowerCase (WeatherData.city weatherData)).
Proof.
  unfold isMatchingItem, JSON_parse. intros ->. simpl.
  rewrite orb_false_r. reflexivity.
Qed.

Lemma existsb_filter_negb {A : Type} (p q : A -> bool) (l : list A) :
  (forall x, q x = true -> p x = false) ->
  existsb p l = existsb p (List.filter (fun x => negb (q x)) l).
Proof.
  intros Hpq. induction l as [|x l IH]; simpl; [reflexivity|].
  destruct (q x) eqn:Hq; simpl.
  - rewrite (Hpq x Hq). exact IH.
  - rewrite IH. reflexivity.
Qed.

Lemma checkIfCityInFavorites_eq (env : Env) (cityName : string) (weatherId : option Z)
    (w : World) :
  checkIfCityInFavorites env cityName weatherId w =
  (match listItems_response env with
   | Ok listItems => Ok (existsb (isFavoriteItem cityName weatherId) (default [] listItems))
   | Throw => Ok false
   end, w, [GqlListItems]).
Proof.
  unfold checkIfCityInFavorites, catch, bind, emit, lift, ret.
  destruct (listItems_response env); reflexivity.
Qed.

(** ** Favourites: the deduplication *)

Section MapFacts.

Implicit Types (m : cityMap_t) (key k : string) (v x item : FavoriteItem.t).

Lemma Map_get_In key m v : Map_get key m = Some v -> In (key, v) m.
Proof.
  induction m as [|[k x] m IH]; simpl; [discriminate|].
  destruct (String.eqb_spec k key) as [->|Hne].
  - intros [= ->]. left. reflexivity.
  - intros H. right. auto.
Qed.

Lemma Map_get_None key m : Map_get key m = None -> ~ In key (map fst m).
Proof.
  induction m as [|[k x] m IH]; simpl; [tauto|].
  destruct (String.eqb_spec k key) as [->|Hne]; [discriminate|].
  intros H [Hk|Hin]; [contradiction|]. exact (IH H Hin).
Qed.

Lemma Map_set_absent key v m :
  Map_get key m = None -> Map_set key v m = m ++ [(key, v)].
Proof.
  induction m as [|[k x] m IH]; simpl; [reflexivity|].
  destruct (String.eqb_spec k key) as [->|Hne]; [discriminate|].
  intros H. rewrite (IH H). reflexivity.
Qed.

Lemma Map_set_present_keys key v m :
  Map_get key m <> None -> map fst (Map_set key v m) = map fst m.
Proof.
  induction m as [|[k x] m IH]; simpl; [congruence|].
  destruct (String.eqb_spec k key) as [->|Hne]; simpl.
  - reflexivity.
  - intros H. rewrite (IH H). reflexivity.
Qed.

Lemma In_Map_set key item m k v :
  NoDup (map fst m) ->
  In (k, v) (Map_set key item m) ->
  (k = key /\ v = item) \/ (k <> key /\ In (k, v) m).
Proof.
  induction m as [|[k0 x0] m IH]; simpl.
  - intros _ [[= <- <-]|[]]. left. split; reflexivity.
  - intros [Hk0 Hnd]%NoDup_cons. rewrite list_elem_of_In in Hk0.
    destruct (String.eqb_spec k0 key) as [->|Hne]; simpl.
    + intros [[= <- <-]|Hin]; [left; split; reflexivity|].
      right. split; [|right; exact Hin].
      intros ->. apply Hk0. change key with (fst (key, v)). apply in_map. exact Hin.
    + intros [[= <- <-]|Hin].
      * right. split; [exact Hne|left; reflexivity].
      * destruct (IH Hnd Hin) as [H|[H1 H2]]; [left; exact H|right; split; auto].
Qed.

Lemma NoDup_fst_functional key m v x :
  NoDup (map fst m) -> In (key, v) m -> In (key, x) m -> v = x.
Proof.
  induction m as [|[k0 x0] m IH]; simpl; [tauto|].
  intros [Hk0 Hnd]%NoDup_cons. rewrite list_elem_of_In in Hk0.
  intros [Hv|Hv] [Hx|Hx].
  - congruence.
  - injection Hv as -> ->.
    exfalso. apply Hk0. change key with (fst (key, x)). apply in_map, Hx.
  - injection Hx as -> ->.
    exfalso. apply Hk0. change key with (fst (key, v)). apply in_map, Hv.
  - auto.
Qed.

Lemma Map_set_In_new key item m : In (key, item) (Map_set key item m).
Proof.
  induction m as [|[k0 x0] m IH]; simpl; [left; reflexivity|].
  destruct (String.eqb_spec k0 key); [left; reflexivity|right; exact IH].
Qed.

End MapFacts.

Lemma date_gt_irrefl (a : option Z) : date_gt a a = false.
Proof. destruct a as [x|]; simpl; [|reflexivity]. rewrite Z.gtb_ltb. apply Z.ltb_irrefl. Qed.

Lemma date_gt_trans (a b c : option Z) :
  date_gt a b = true -> date_gt b c = true -> date_gt a c = true.
Proof.
  destruct a as [x|], b as [y|], c as [z|]; simpl; try discriminate.
  rewrite !Z.gtb_ltb, !Z.ltb_lt. lia.
Qed.


Lemma dedupeItem_eq (m : cityMap_t) (item : FavoriteItem.t) :
  dedupeItem m item = keepMostRecent (dedupeKey item) item m.
Proof. unfold dedupeItem, dedupeKey. destruct (compositeKey item); reflexivity. Qed.

Lemma dedupeInv_nil : dedupeInv [] [].
Proof.
  split; [apply NoDup_nil_2|]. split; [intros k v []|intros x []].
Qed.

Lemma dedupeInv_step (processed : list FavoriteItem.t) (m : cityMap_t)
    (item : FavoriteItem.t) :
  dedupeInv processed m -> dedupeInv (processed ++ [item]) (dedupeItem m item).
Proof.
  intros (Hnd & Hent & Hkeys). rewrite dedupeItem_eq. unfold keepMostRecent.
  set (key := dedupeKey item).
  destruct (Map_get key m) as [existing|] eqn:Hget.
  - apply Map_get_In in Hget as Hin.
    destruct (Hent _ _ Hin) as (Hproc & Hkey & Hmax).
    destruct (date_gt (FavoriteItem.updatedAt item) (FavoriteItem.updatedAt existing)) eqn:Hgt.
    + (* the item replaces the entry of its key *)
      assert (Hfst : map fst (Map_set key item m) = map fst m).
      { apply Map_set_present_keys. congruence. }
      split; [rewrite Hfst; exact Hnd|]. split.
      * intros k v Hkv. destruct (In_Map_set _ _ _ _ _ Hnd Hkv) as [[-> ->]|[Hne Hkv']].
        -- split; [apply in_or_app; right; left; reflexivity|].
           split; [reflexivity|].
           intros x [Hx|[<-|[]]]%in_app_or Hxk.
           ++ destruct (date_gt (FavoriteItem.updatedAt x) (FavoriteItem.updatedAt item)) eqn:Hxi;
                [|reflexivity].
              rewrite <- (Hmax x Hx Hxk). symmetry.
              exact (date_gt_trans _ _ _ Hxi Hgt).
           ++ apply date_gt_irrefl.
        -- destruct (Hent _ _ Hkv') as (Hv & Hvk & Hvmax).
           split; [apply in_or_app; left; exact Hv|]. split; [exact Hvk|].
           intros x [Hx|[<-|[]]]%in_app_or Hxk; [auto|].
           exfalso. apply Hne. symmetry. exact Hxk.
      * intros x [Hx|[<-|[]]]%in_app_or; rewrite Hfst.
        -- auto.
        -- change (dedupeKey item) with (fst (key, existing)). apply in_map. exact Hin.
    + (* the entry stays *)
      split; [exact Hnd|]. split.
      * intros k v Hkv. destruct (Hent _ _ Hkv) as (Hv & Hvk & Hvmax).
        split; [apply in_or_app; left; exact Hv|]. split; [exact Hvk|].
        intros x [Hx|[<-|[]]]%in_app_or Hxk; [auto|].
        fold key in Hxk. subst k. rewrite <- Hxk in Hkv.
        rewrite (NoDup_fst_functional _ _ _ _ Hnd Hkv Hin).
        exact Hgt.
      * intros x [Hx|[<-|[]]]%in_app_or; [auto|].
        change (dedupeKey item) with (fst (key, existing)). apply in_map. exact Hin.
  - (* a new key: the item goes to the end *)
    rewrite (Map_set_absent _ _ _ Hget).
    pose proof (Map_get_None _ _ Hget) as Hfresh.
    split; [|split].
    + rewrite map_app. simpl. apply NoDup_app. split; [exact Hnd|]. split.
      * intros k Hk [->|[]]%list_elem_of_In. apply Hfresh, list_elem_of_In, Hk.
      * apply NoDup_singleton.
    + intros k v [Hkv|[[= <- <-]|[]]]%in_app_or.
      * destruct (Hent _ _ Hkv) as (Hv & Hvk & Hvmax).
        split; [apply in_or_app; left; exact Hv|]. split; [exact Hvk|].
        intros x [Hx|[<-|[]]]%in_app_or Hxk; [auto|].
        exfalso. apply Hfresh. fold key in Hxk. rewrite Hxk.
        change k with (fst (k, v)). apply in_map. exact Hkv.
      * split; [apply in_or_app; right; left; reflexivity|]. split; [reflexivity|].
        intros x [Hx|[<-|[]]]%in_app_or Hxk.
        -- exfalso. apply Hfresh. rewrite <- Hxk. auto.
        -- apply date_gt_irrefl.
    + intros x [Hx|[<-|[]]]%in_app_or; rewrite map_app; apply in_or_app.
      * left. auto.
      * right. left. reflexivity.
Qed.

Lemma dedupeInv_fold (items processed : list FavoriteItem.t) (m : cityMap_t) :
  dedupeInv processed m ->
  dedupeInv (processed ++ items) (fold_left dedupeItem items m).
Proof.
  revert processed m. induction items as [|item items IH]; intros processed m Hinv; simpl.
  - rewrite app_nil_r. exact Hinv.
  - replace (processed ++ item :: items) with ((processed ++ [item]) ++ items)
      by (rewrite <- app_assoc; reflexivity).
    apply IH, dedupeInv_step, Hinv.
Qed.


(** ** Favourites: one candidate *)

(** [searchCities] never throws and leaves the world as it is; it asks for
    connectivity and sends at most one geo request. *)
Lemma searchCities_spec (env : Env) (query : string) (w : World) :
  exists cities t, searchCities env query w = (Ok cities, w, t) /\
    (t = [] \/ t = [NetworkGetState] \/ t = [NetworkGetState; HttpGeo query]).
Proof.
  unfold searchCities.
  destruct (String.length query <? 2)%nat.
  - exists [], []. split; [reflexivity|]. left. reflexivity.
  - unfold catch, bind. rewrite isInternetAvailable_eq.
    destruct (online env); simpl.
    + unfold emit, throw, ret.
      destruct (geo_response env query) as [|[|] [data|]]; simpl;
        eexists; eexists; (split; [reflexivity|]); auto.
    + unfold getRecentSearches, catch, bind, getData, ret. simpl.
      eexists; eexists. split; [reflexivity|]. auto.
Qed.

Lemma getGeoDataForCity_eq (env : Env) (cityName : string) (w : World) :
  getGeoDataForCity env cityName w =
  match searchCities env cityName w with
  | (Ok (city0 :: _), _, t) => (Ok (Some city0), w, t)
  | (_, _, t) => (Ok None, w, t)
  end.
Proof.
  unfold getGeoDataForCity, catch, bind.
  destruct (searchCities_spec env cityName w) as (cities & t & -> & _).
  destruct cities; simpl; rewrite app_nil_r; reflexivity.
Qed.

Lemma saveFavoriteCity_eq (env : Env) (weatherData : FavoriteWeatherData.t) (w : World) :
  saveFavoriteCity env weatherData w =
  let input :=
    {| ItemInput.id := if truthy_str (FavoriteWeatherData.id weatherData)
                       then FavoriteWeatherData.id weatherData else None;
       ItemInput.name := FavoriteWeatherData.city weatherData;
       ItemInput.content :=
         ContentSummary (FavoriteWeatherData.temperature weatherData)
                        (FavoriteWeatherData.conditions weatherData)
                        (FavoriteWeatherData.description weatherData);
       ItemInput.metadata := MetadataWeather weatherData |} in
  (upsertItem_response env input, w, [GqlUpsert input]).
Proof.
  unfold saveFavoriteCity, catch, bind, emit, lift, throw. cbv zeta.
  destruct (upsertItem_response env _) as [[]|]; reflexivity.
Qed.

Lemma fetchWeatherFromApi_eq' (env : Env) (city : City.t) (w : World) :
  fetchWeatherFromApi env city w = (fetchOutcome env city w, w, fetchCalls city w).
Proof.
  rewrite fetchWeatherFromApi_eq. unfold fetchOutcome, fetchCalls.
  destruct (activeRequests w !! cityKey city); reflexivity.
Qed.

Lemma refreshFavorite_eq (env : Env) (favorite : FavoriteItem.t) (lat lon : Z)
    (country : option string) (w : World) :
  let city :=
    {| City.name := FavoriteItem.name favorite; City.lat := lat; City.lon := lon;
       City.country := if truthy_str country then default "" country else "Unknown" |} in
  refreshFavorite env favorite lat lon country w =
  match fetchOutcome env city w with
  | Throw => (Throw, w, fetchCalls city w)
  | Ok weatherData =>
      (match upsertItem_response env (upsertOf favorite weatherData) with
       | Ok _ => Ok true
       | Throw => Throw
       end, w, fetchCalls city w ++ [GqlUpsert (upsertOf favorite weatherData)])
  end.
Proof.
  cbv zeta. unfold refreshFavorite, bind. rewrite fetchWeatherFromApi_eq'.
  destruct (fetchOutcome env _ w) as [weatherData|]; [|reflexivity].
  rewrite saveFavoriteCity_eq. cbv zeta. simpl.
  assert (Hid : (if negb (String.eqb (FavoriteItem.id favorite) "")
                 then Some (FavoriteItem.id favorite) else None)
                = if String.eqb (FavoriteItem.id favorite) "" then None
                  else Some (FavoriteItem.id favorite)).
  { destruct (String.eqb (FavoriteItem.id favorite) ""); reflexivity. }
  rewrite Hid. fold (upsertOf favorite weatherData).
  destruct (upsertItem_response env (upsertOf favorite weatherData)) as [[]|];
    simpl; rewrite ?app_nil_r; reflexivity.
Qed.

Lemma refreshFavorite_resolved (env : Env) (favorite : FavoriteItem.t) (city : City.t)
    (country : option string) (t : list event) (w : World) :
  City.name city = FavoriteItem.name favorite ->
  City.country city = (if truthy_str country then default "" country else "Unknown") ->
  catch (refreshFavorite env favorite (City.lat city) (City.lon city) country) (ret false) w
  = (Ok (fst (refreshResolved env w favorite (Some city, []))), w,
     snd (refreshResolved env w favorite (Some city, []))).
Proof.
  intros Hname Hcountry. unfold catch. rewrite refreshFavorite_eq. cbv zeta.
  rewrite <- Hname, <- Hcountry.
  replace {| City.name := City.name city; City.lat := City.lat city;
             City.lon := City.lon city; City.country := City.country city |}
    with city by (destruct city; reflexivity).
  unfold refreshResolved.
  destruct (fetchOutcome env city w) as [weatherData|]; simpl.
  - destruct (upsertItem_response env (upsertOf favorite weatherData)) as [[]|];
      simpl; rewrite ?app_nil_r; reflexivity.
  - rewrite app_nil_r. reflexivity.
Qed.

Lemma refreshResolved_prefix (env : Env) (w : World) (favorite : FavoriteItem.t)
    (city : option City.t) (t : list event) :
  refreshResolved env w favorite (city, t)
  = (fst (refreshResolved env w favorite (city, [])),
     t ++ snd (refreshResolved env w favorite (city, []))).
Proof.
  unfold refreshResolved. destruct city as [city|]; simpl; [|rewrite app_nil_r; reflexivity].
  destruct (fetchOutcome env city w); reflexivity.
Qed.

Lemma updateFavorite_searched (env : Env) (favorite : FavoriteItem.t) (w : World) :
  catch
    (let! cityGeoData := getGeoDataForCity env (FavoriteItem.name favorite) in
     match cityGeoData with
     | Some geo => refreshFavorite env favorite (City.lat geo) (City.lon geo)
                                   (Some (City.country geo))
     | None => ret false
     end) (ret false) w
  = (Ok (fst (refreshResolved env w favorite (searchedCity env favorite w))), w,
     snd (refreshResolved env w favorite (searchedCity env favorite w))).
Proof.
  unfold searchedCity.
  pose proof (getGeoDataForCity_eq env (FavoriteItem.name favorite) w) as Hgeo.
  destruct (searchCities_spec env (FavoriteItem.name favorite) w) as (cities & t & Hs & _).
  rewrite Hs in Hgeo |- *.
  destruct cities as [|geo cities]; rewrite (catch_bind_ok _ _ _ _ _ _ _ Hgeo).
  - simpl. rewrite app_nil_r. reflexivity.
  - set (city := {| City.name := FavoriteItem.name favorite; City.lat := City.lat geo;
                    City.lon := City.lon geo;
                    City.country := if String.eqb (City.country geo) "" then "Unknown"
                                    else City.country geo |}).
    rewrite (refreshResolved_prefix env w favorite (Some city) t).
    assert (Hc : City.country city
                 = if truthy_str (Some (City.country geo))
                   then default "" (Some (City.country geo)) else "Unknown").
    { simpl. destruct (String.eqb (City.country geo) ""); reflexivity. }
    pose proof (refreshFavorite_resolved env favorite city (Some (City.country geo)) [] w
                  eq_refl Hc) as Href.
    change (City.lat city) with (City.lat geo) in Href.
    change (City.lon city) with (City.lon geo) in Href.
    rewrite Href. reflexivity.
Qed.

(** The callback of the batch does what the pipeline of the specification
    says: it returns whether the three stages succeeded, never throws, and
    leaves the world as it is. *)
Lemma updateFavorite_pipeline (env : Env) (favorite : FavoriteItem.t) (w : World) :
  updateFavorite env favorite w
  = (Ok (fst (pipeline env w favorite)), w, snd (pipeline env w favorite)).
Proof.
  unfold updateFavorite, pipeline, resolveCity.
  destruct (metadataGeo favorite) as [[lat lon] country].
  destruct lat as [lat|]; [destruct lon as [lon|]|]; simpl.
  - destruct (Z.eqb_spec lat 0) as [->|Hlat]; simpl.
    + apply updateFavorite_searched.
    + destruct (Z.eqb_spec lon 0) as [->|Hlon]; simpl.
      * apply updateFavorite_searched.
      * set (city := {| City.name := FavoriteItem.name favorite; City.lat := lat;
                        City.lon := lon; City.country := _ |}).
        apply (refreshFavorite_resolved env favorite city country [] w eq_refl).
        subst city. simpl.
        destruct country as [c|]; simpl; [|reflexivity].
        destruct (String.eqb c ""); reflexivity.
  - rewrite orb_true_r. apply updateFavorite_searched.
  - apply updateFavorite_searched.
Qed.

(** ** Favourites: the batches *)

Section Chunks.

Context {A : Type}.
Implicit Types (l : list A) (n fuel : nat).

Lemma chunks_fuel_enough n fuel1 fuel2 l :
  (length l <= fuel1)%nat -> (length l <= fuel2)%nat ->
  chunks_fuel fuel1 (S n) l = chunks_fuel fuel2 (S n) l.
Proof.
  revert fuel2 l. induction fuel1 as [|fuel1 IH]; intros fuel2 l H1 H2.
  - destruct l; [|simpl in H1; lia]. destruct fuel2; reflexivity.
  - destruct l as [|x l]; [destruct fuel2; reflexivity|].
    destruct fuel2 as [|fuel2]; [simpl in H2; lia|].
    simpl in H1, H2 |- *. f_equal.
    apply IH; rewrite length_drop; lia.
Qed.


Lemma chunks_cons n x l :
  chunks (S n) (x :: l) = take (S n) (x :: l) :: chunks (S n) (drop (S n) (x :: l)).
Proof.
  unfold chunks. simpl. f_equal.
  apply chunks_fuel_enough; rewrite ?length_drop; lia.
Qed.



Lemma chunks_eq_nil n l : chunks (S n) l = [] <-> l = [].
Proof.
  destruct l as [|x l]; [split; reflexivity|].
  rewrite chunks_cons. split; discriminate.
Qed.

End Chunks.

Lemma chunks_batch {A : Type} (x : A) (l : list A) :
  chunks batchSize (x :: l)
  = take batchSize (x :: l) :: chunks batchSize (drop batchSize (x :: l)).
Proof. apply (chunks_cons 2). Qed.

Lemma chunks_batch_nil {A : Type} (l : list A) : chunks batchSize l = [] <-> l = [].
Proof. apply (chunks_eq_nil 2). Qed.

Lemma count_true_map {A : Type} (p : A -> bool) (l : list A) :
  count_true (map (fun x => Ok (p x)) l) = length (List.filter p l).
Proof.
  unfold count_true. induction l as [|x l IH]; simpl; [reflexivity|].
  destruct (p x); simpl; rewrite IH; reflexivity.
Qed.

Lemma all_settled_updateFavorite (env : Env) (batch : list FavoriteItem.t) (w : World) :
  all_settled (updateFavorite env) batch w
  = (Ok (map (fun f => Ok (fst (pipeline env w f))) batch), w,
     concat (map (fun f => snd (pipeline env w f)) batch)).
Proof.
  induction batch as [|f batch IH]; simpl; [reflexivity|].
  rewrite updateFavorite_pipeline, IH. reflexivity.
Qed.

(** The loop from index [i] on, with enough fuel: the successes of the
    remaining candidates are added to the count, and the calls are those
    of the remaining batches with the pauses between them. *)
Lemma updateBatches_eq (env : Env) (favorites : list FavoriteItem.t) (w : World)
    (fuel i successCount : nat) :
  (length favorites <= i + 3 * fuel)%nat ->
  updateBatches env fuel favorites i successCount w
  = (Ok (successCount
         + length (List.filter (fun f => fst (pipeline env w f)) (drop i favorites)))%nat,
     w,
     batchLogs (map (map (fun f => snd (pipeline env w f)))
                    (chunks batchSize (drop i favorites)))).
Proof.
  revert i successCount. induction fuel as [|fuel IH]; intros i successCount Hfuel.
  - rewrite drop_ge by lia. simpl. rewrite Nat.add_0_r. reflexivity.
  - cbn [updateBatches].
    destruct (Nat.ltb_spec i (length favorites)) as [Hi|Hi].
    + destruct (drop i favorites) as [|f rest] eqn:Hdrop.
      { exfalso. assert (H : length (drop i favorites) = 0%nat) by (rewrite Hdrop; reflexivity).
        rewrite length_drop in H. lia. }
      rewrite chunks_batch.
      unfold bind. rewrite all_settled_updateFavorite.
      rewrite count_true_map.
      assert (Hrest : drop (i + batchSize) favorites = drop batchSize (f :: rest)).
      { rewrite <- Hdrop, drop_drop. reflexivity. }
      assert (Hcount :
        (successCount + length (List.filter (fun f0 => fst (pipeline env w f0)) (take batchSize (f :: rest)))
         + length (List.filter (fun f0 => fst (pipeline env w f0)) (drop batchSize (f :: rest))))%nat
        = (successCount + length (List.filter (fun f0 => fst (pipeline env w f0)) (f :: rest)))%nat).
      { rewrite <- (take_drop batchSize (f :: rest)) at 3.
        rewrite List.filter_app, length_app. lia. }
      destruct (Nat.ltb_spec (i + batchSize) (length favorites)) as [Hlt|Hge];
        unfold emit, ret; rewrite IH by (unfold batchSize; lia);
        rewrite Hrest, Hcount; cbn [map batchLogs].
      * destruct (chunks batchSize (drop batchSize (f :: rest))) as [|b bs] eqn:Hch.
        -- exfalso. apply (proj1 (chunks_batch_nil _)) in Hch.
           assert (H : length (drop (i + batchSize) favorites) = 0%nat)
             by (rewrite Hrest, Hch; reflexivity).
           rewrite length_drop in H. lia.
        -- reflexivity.
      * rewrite <- Hrest. rewrite drop_ge by lia. simpl. rewrite app_nil_r. reflexivity.
    + rewrite drop_ge by lia. simpl. rewrite Nat.add_0_r. reflexivity.
Qed.

(** The whole run, in the words of the specification. *)
Lemma updateAllFavorites_eq (env : Env) (w : World) :
  updateAllFavorites env w =
  match listItems_response env with
  | Throw => (Ok 0%nat, w, [GqlListItems])
  | Ok listItems =>
      let favorites := uniqueFavorites (default [] listItems) in
      (Ok (length (List.filter (fun f => fst (pipeline env w f)) favorites)), w,
       GqlListItems ::
       batchLogs (map (map (fun f => snd (pipeline env w f))) (chunks batchSize favorites)))
  end.
Proof.
  unfold updateAllFavorites, catch, bind, emit, lift.
  destruct (listItems_response env) as [listItems|]; [|reflexivity].
  cbv zeta. set (favorites := uniqueFavorites (default [] listItems)).
  destruct (Nat.eqb_spec (length favorites) 0) as [Hnil|Hne].
  - destruct favorites; [reflexivity|discriminate].
  - rewrite updateBatches_eq by lia. rewrite drop_0. reflexivity.
Qed.

(** ** Favourites: the candidates of a run *)

Lemma uniqueFavorites_inv (allItems : list FavoriteItem.t) :
  dedupeInv (List.filter isValidItem allItems)
            (fold_left dedupeItem (List.filter isValidItem allItems) []).
Proof. apply (dedupeInv_fold _ [] []), dedupeInv_nil. Qed.

Lemma In_uniqueFavorites (allItems : list FavoriteItem.t) (f : FavoriteItem.t) :
  In f (uniqueFavorites allItems) <->
  In (dedupeKey f, f) (fold_left dedupeItem (List.filter isValidItem allItems) []).
Proof.
  destruct (uniqueFavorites_inv allItems) as (_ & Hent & _).
  unfold uniqueFavorites, Map_values. rewrite in_map_iff. split.
  - intros ([k v] & <- & Hin). simpl.
    destruct (Hent _ _ Hin) as (_ & -> & _). exact Hin.
  - intros Hin. exists (dedupeKey f, f). split; [reflexivity|exact Hin].
Qed.

Lemma uniqueFavorites_valid (allItems : list FavoriteItem.t) (f : FavoriteItem.t) :
  In f (uniqueFavorites allItems) -> isValidItem f = true.
Proof.
  intros Hin%In_uniqueFavorites.
  destruct (uniqueFavorites_inv allItems) as (_ & Hent & _).
  destruct (Hent _ _ Hin) as (Hval & _).
  apply filter_In in Hval. tauto.
Qed.



(** ** Favourites: the calls of a run *)









(** C2, as the code has it.  A record whose metadata parses and that has
    empty content or [deleted] equal to [true] is matched by none of the
    three enumerations; the candidates of a run are records that passed
    the filter, hence neither such records nor records whose metadata does
    not parse.  [checkIfCityInFavorites] and the matching set of
    [toggleFavorite] keep going when the metadata does not parse and match
    such a record by its name alone. *)
Theorem soft_deleted_is_absent (env : Env) (w : World) (cityName : string)
    (weatherId : option Z) (weatherData : WeatherData.t)
    (allItems : list FavoriteItem.t) (item : FavoriteItem.t) :
  (softDeleted item = true ->
   isFavoriteItem cityName weatherId item = false /\
   isMatchingItem weatherData item = false /\
   isValidItem item = false) /\
  (FavoriteItem.metadata item = None ->
   isValidItem item = false /\
   isFavoriteItem cityName weatherId item
   = String.eqb (toLowerCase (FavoriteItem.name item)) (toLowerCase cityName) /\
   isMatchingItem weatherData item
   = String.eqb (toLowerCase (FavoriteItem.name item))
                (toLowerCase (WeatherData.city weatherData))) /\
  (In item (uniqueFavorites allItems) ->
   softDeleted item = false /\ FavoriteItem.metadata item <> None) /\
  (In item (List.filter (isMatchingItem weatherData) allItems) -> softDeleted item = false) /\
  (listItems_response env = Ok (Some allItems) ->
   outcome (checkIfCityInFavorites env cityName weatherId w)
   = Ok (existsb (isFavoriteItem cityName weatherId)
                 (List.filter (fun i => negb (softDeleted i)) allItems))).
Proof.
  split; [|split; [|split; [|split]]].
  - intros Hdel. split; [|split].
    + apply softDeleted_isFavoriteItem, Hdel.
    + apply softDeleted_isMatchingItem, Hdel.
    + destruct (isValidItem item) eqn:Hv; [|reflexivity].
      apply isValidItem_not_softDeleted in Hv as [Hv _]. congruence.
  - intros Hnone. split; [|split].
    + unfold isValidItem, JSON_parse. rewrite Hnone. reflexivity.
    + apply unparseable_isFavoriteItem, Hnone.
    + apply unparseable_isMatchingItem, Hnone.
  - intros Hin. apply isValidItem_not_softDeleted, (uniqueFavorites_valid allItems), Hin.
  - intros [_ Hm]%filter_In.
    destruct (softDeleted item) eqn:Hdel; [|reflexivity].
    rewrite (softDeleted_isMatchingItem weatherData item Hdel) in Hm. discriminate.
  - intros Hlist. rewrite checkIfCityInFavorites_eq, Hlist. unfold outcome. simpl.
    f_equal. apply existsb_filter_negb. intros i. apply softDeleted_isFavoriteItem.
Qed.

Lemma soft_deleted_is_absent_witness :
  isFavoriteItem "paris" (Some 10) paris_T3_deleted = false /\
  isMatchingItem sample_snapshot paris_T3_deleted = false /\
  isValidItem paris_T3_deleted = false.
Proof.
  apply (soft_deleted_is_absent (env_ok []) empty_world "paris" (Some 10) sample_snapshot
           [] paris_T3_deleted).
  reflexivity.
Defined.

(** C2 as stated fails: a record whose metadata does not parse is matched by
    [checkIfCityInFavorites], and one that has empty content besides is in
    the matching set of [toggleFavorite] and is upserted by it. *)
Lemma unparseable_record_is_matched :
  FavoriteItem.metadata paris_unparseable = None /\
  outcome (checkIfCityInFavorites (env_ok [paris_unparseable]) "Paris" None empty_world)
  = Ok true /\
  FavoriteItem.metadata paris_empty_unparseable = None /\
  FavoriteItem.content paris_empty_unparseable = "" /\
  outcome (checkIfCityInFavorites (env_ok [paris_empty_unparseable]) "Paris" None empty_world)
  = Ok true /\
  List.filter (isMatchingItem sample_snapshot) [paris_empty_unparseable]
  = [paris_empty_unparseable] /\
  toggleFavorite (env_ok [paris_empty_unparseable]) sample_snapshot empty_world
  = (Ok true, empty_world,
     [GqlListItems; GqlListItems;
      GqlUpsert {| ItemInput.id := Some "id-5"; ItemInput.name := "Paris";
                   ItemInput.content := ContentEmpty;
                   ItemInput.metadata :=
                     MetadataDeleted "2023-11-14T22:13:20.000Z" 10 "Paris" |}]).
Proof. repeat split; vm_compute; reflexivity. Qed.



(** C7.  [updateAllFavorites] never throws; when the list query fails it
    returns 0 having made no other call; and when no candidate is left it
    returns 0 after the list query alone, without a geo search, a weather
    request or an upsert. *)
Theorem reconcile_never_raises (env : Env) (w : World) :
  (exists count, outcome (updateAllFavorites env w) = Ok count) /\
  (listItems_response env = Throw ->
   updateAllFavorites env w = (Ok 0%nat, w, [GqlListItems])) /\
  (forall listItems, listItems_response env = Ok listItems ->
     uniqueFavorites (default [] listItems) = [] ->
     updateAllFavorites env w = (Ok 0%nat, w, [GqlListItems])).
Proof.
  split; [|split].
  - apply outcome_catch_ret.
  - intros Hfail. rewrite updateAllFavorites_eq, Hfail. reflexivity.
  - intros listItems Hlist Hnone. rewrite updateAllFavorites_eq, Hlist. cbv zeta.
    rewrite Hnone. reflexivity.
Qed.

Lemma reconcile_never_raises_witness :
  updateAllFavorites env_list_fails empty_world = (Ok 0%nat, empty_world, [GqlListItems]) /\
  updateAllFavorites (env_ok [paris_T3_deleted; paris_unparseable]) empty_world
  = (Ok 0%nat, empty_world, [GqlListItems]).
Proof.
  destruct (reconcile_never_raises env_list_fails empty_world) as (_ & Hfail & _).
  destruct (reconcile_never_raises (env_ok [paris_T3_deleted; paris_unparseable]) empty_world)
    as (_ & _ & Hnone).
  split.
  - apply Hfail. reflexivity.
  - apply (Hnone (Some [paris_T3_deleted; paris_unparseable])); reflexivity.
Defined.

(** ** Calls of [fetchWeatherFromApi] in flight *)

Module InFlightFacts.
Import InFlight.

Lemma inv_init (env : Env) : inv env init.
Proof.
  split; simpl.
  - intros i r H. discriminate H.
  - intros c cl H. rewrite lookup_empty in H. discriminate H.
  - intros c c' cl cl' H. rewrite lookup_empty in H. discriminate H.
  - intros c cl H. rewrite lookup_empty in H. discriminate H.
  - intros i r H. discriminate H.
  - intros k i H. rewrite lookup_empty in H. discriminate H.
  - reflexivity.
Qed.

Lemma flat_map_sent_insert (l : list request) (i : nat) (r r' : request) :
  l !! i = Some r -> req_city r' = req_city r ->
  flat_map sent (<[i := r']> l) = flat_map sent l.
Proof.
  revert i. induction l as [|x l IH]; intros [|i] Hi Hcity; simpl in *; try discriminate.
  - injection Hi as ->. unfold sent. rewrite Hcity. reflexivity.
  - rewrite (IH i Hi Hcity). reflexivity.
Qed.

Lemma call_preserves (env : Env) (caller : nat) (city : City.t) (s s' : state) :
  inv env s -> do_call caller city s = Some s' -> inv env s'.
Proof.
  intros [Hpend Hown Huniq Hcall Hreq Hact Hwire]. unfold do_call.
  destruct (calls s !! caller) eqn:Hfresh; [discriminate|].
  destruct (active s !! cityKey city) as [req|] eqn:Hkey; intros [= <-].
  - (* the call joins the request in flight *)
    split; simpl; auto.
    + intros c cl Hc Hrole Hret.
      apply lookup_insert_Some in Hc as [[<- <-]|[Hne Hc]]; [discriminate|eauto].
    + intros c c' cl cl' Hc Hc' Hrole Hrole'.
      apply lookup_insert_Some in Hc as [[<- <-]|[Hne Hc]]; [discriminate|].
      apply lookup_insert_Some in Hc' as [[<- <-]|[Hne' Hc']]; [discriminate|eauto].
    + intros c cl Hc.
      apply lookup_insert_Some in Hc as [[<- <-]|[Hne Hc]]; [|eauto]. simpl.
      destruct (Hact _ _ Hkey) as (r & Hr & Hk).
      exists r. repeat split; [exact Hr|exact Hk|discriminate|discriminate].
  - (* the call starts a request *)
    assert (Hbound : forall c cl, calls s !! c = Some cl ->
                                  (call_request cl < length (requests s))%nat).
    { intros c cl Hc. destruct (Hcall _ _ Hc) as (r & Hr & _).
      eapply lookup_lt_Some, Hr. }
    split; simpl.
    + intros i r Hi Hp.
      apply lookup_snoc_Some in Hi as [[Hlt Hi]|[-> <-]].
      * pose proof (Hpend _ _ Hi Hp) as Ha.
        rewrite lookup_insert_ne; [exact Ha|]. intros Heq. congruence.
      * simpl. apply lookup_insert_eq.
    + intros c cl Hc Hrole Hret.
      apply lookup_insert_Some in Hc as [[<- <-]|[Hne Hc]]; simpl.
      * apply lookup_insert_eq.
      * pose proof (Hown _ _ Hc Hrole Hret) as Ha.
        rewrite lookup_insert_ne; [exact Ha|]. intros Heq. congruence.
    + intros c c' cl cl' Hc Hc' Hrole Hrole' Hsame.
      apply lookup_insert_Some in Hc as [[<- <-]|[Hne Hc]];
        apply lookup_insert_Some in Hc' as [[<- <-]|[Hne' Hc']]; simpl in *.
      * reflexivity.
      * pose proof (Hbound _ _ Hc'). lia.
      * pose proof (Hbound _ _ Hc). lia.
      * eauto.
    + intros c cl Hc.
      apply lookup_insert_Some in Hc as [[<- <-]|[Hne Hc]]; simpl.
      * eexists. split; [apply list_lookup_middle; reflexivity|].
        simpl. repeat split; discriminate.
      * destruct (Hcall _ _ Hc) as (r & Hr & Hrest).
        exists r. split; [|exact Hrest].
        rewrite lookup_app_l; [exact Hr|]. eapply lookup_lt_Some, Hr.
    + intros i r Hi.
      apply lookup_snoc_Some in Hi as [[Hlt Hi]|[-> <-]]; [eauto|].
      simpl. split; [reflexivity|discriminate].
    + intros k i Hk.
      apply lookup_insert_Some in Hk as [[<- <-]|[Hne Hk]].
      * eexists. split; [apply list_lookup_middle; reflexivity|].
        reflexivity.
      * destruct (Hact _ _ Hk) as (r & Hr & Hrk).
        exists r. split; [|exact Hrk].
        rewrite lookup_app_l; [exact Hr|]. eapply lookup_lt_Some, Hr.
    + rewrite flat_map_app, Hwire. reflexivity.
Qed.

Lemma settle_preserves (env : Env) (req : nat) (s s' : state) :
  inv env s -> do_settle env req s = Some s' -> inv env s'.
Proof.
  intros [Hpend Hown Huniq Hcall Hreq Hact Hwire]. unfold do_settle.
  destruct (requests s !! req) as [r|] eqn:Hr; [|discriminate].
  destruct (req_settled r) eqn:Hp; [discriminate|]. intros [= <-].
  assert (Hlt : (req < length (requests s))%nat) by (eapply lookup_lt_Some, Hr).
  split; simpl; auto.
  - intros i r0 Hi Hp0.
    destruct (decide (req = i)) as [<-|Hne].
    + rewrite list_lookup_insert_eq in Hi by exact Hlt. injection Hi as <-. discriminate.
    + rewrite list_lookup_insert_ne in Hi by exact Hne. eauto.
  - intros c cl Hc. destruct (Hcall _ _ Hc) as (r0 & Hr0 & Hk & Hcity & Hret).
    destruct (decide (req = call_request cl)) as [Heq|Hne].
    + rewrite <- Heq in Hr0 |- *. rewrite Hr in Hr0. injection Hr0 as <-.
      eexists. split; [apply list_lookup_insert_eq, Hlt|]. simpl.
      repeat split; auto.
      intros o Ho. specialize (Hret o Ho). congruence.
    + exists r0. rewrite list_lookup_insert_ne by exact Hne. auto.
  - intros i r0 Hi.
    destruct (decide (req = i)) as [<-|Hne].
    + rewrite list_lookup_insert_eq in Hi by exact Hlt. injection Hi as <-. simpl.
      split; [apply (Hreq _ _ Hr)|]. intros o [= <-]. reflexivity.
    + rewrite list_lookup_insert_ne in Hi by exact Hne. eauto.
  - intros k i Hk. destruct (Hact _ _ Hk) as (r0 & Hr0 & Hrk).
    destruct (decide (req = i)) as [<-|Hne].
    + rewrite Hr in Hr0. injection Hr0 as <-.
      eexists. split; [apply list_lookup_insert_eq, Hlt|exact Hrk].
    + exists r0. rewrite list_lookup_insert_ne by exact Hne. auto.
  - rewrite Hwire. symmetry. apply (flat_map_sent_insert _ _ r); [exact Hr|reflexivity].
Qed.

Lemma resume_preserves (env : Env) (caller : nat) (s s' : state) :
  inv env s -> do_resume caller s = Some s' -> inv env s'.
Proof.
  intros [Hpend Hown Huniq Hcall Hreq Hact Hwire]. unfold do_resume.
  destruct (calls s !! caller) as [cl|] eqn:Hcl; [|discriminate].
  destruct (call_returned cl) eqn:Hret; [discriminate|].
  destruct (requests s !! call_request cl) as [r|] eqn:Hr; [|discriminate].
  destruct (req_settled r) as [o|] eqn:Hset; [|discriminate]. intros [= <-].
  (* the calls other than the one that resumes are as they were, and the
     role and the request of that one did not change *)
  assert (Hback : forall c cl0,
    <[caller := {| call_city := call_city cl; call_request := call_request cl;
                   call_role := call_role cl; call_returned := Some o |}]> (calls s) !! c
    = Some cl0 ->
    exists cl1, calls s !! c = Some cl1 /\ call_city cl1 = call_city cl0 /\
      call_request cl1 = call_request cl0 /\ call_role cl1 = call_role cl0 /\
      (c <> caller -> cl1 = cl0) /\ (c = caller -> call_returned cl0 = Some o)).
  { intros c cl0 Hc. apply lookup_insert_Some in Hc as [[<- <-]|[Hne Hc]].
    - exists cl. simpl. repeat split; auto. congruence.
    - exists cl0. repeat split; auto. congruence. }
  split; simpl; auto.
  - intros i r0 Hi Hp0. pose proof (Hpend _ _ Hi Hp0) as Ha.
    destruct (call_role cl) eqn:Hrole; [|exact Ha].
    rewrite lookup_delete_ne; [exact Ha|]. intros Heq.
    pose proof (Hown _ _ Hcl Hrole Hret) as Ho. rewrite Heq, Ha in Ho.
    injection Ho as ->. congruence.
  - intros c cl0 Hc Hrole0 Hret0.
    destruct (Hback _ _ Hc) as (cl1 & Hc1 & Hcity & Hreq1 & Hrole1 & Hsame & Hnew).
    destruct (decide (c = caller)) as [->|Hne]; [rewrite (Hnew eq_refl) in Hret0; discriminate|].
    rewrite <- (Hsame Hne) in *.
    pose proof (Hown _ _ Hc1 Hrole0 Hret0) as Ha.
    destruct (call_role cl) eqn:Hrole; [|exact Ha].
    rewrite lookup_delete_ne; [exact Ha|]. intros Heq.
    pose proof (Hown _ _ Hcl Hrole Hret) as Ho. rewrite Heq, Ha in Ho.
    injection Ho as Ho. apply Hne. symmetry.
    exact (Huniq _ _ _ _ Hcl Hc1 Hrole Hrole0 (eq_sym Ho)).
  - intros c c' cl0 cl0' Hc Hc' Hrole0 Hrole0' Hsame.
    destruct (Hback _ _ Hc) as (cl1 & Hc1 & _ & Hreq1 & Hrole1 & _).
    destruct (Hback _ _ Hc') as (cl1' & Hc1' & _ & Hreq1' & Hrole1' & _).
    apply (Huniq _ _ _ _ Hc1 Hc1'); congruence.
  - intros c cl0 Hc.
    destruct (Hback _ _ Hc) as (cl1 & Hc1 & Hcity & Hreq1 & Hrole1 & Hsame & Hnew).
    destruct (Hcall _ _ Hc1) as (r0 & Hr0 & Hk & Hrc & Hro).
    exists r0. rewrite <- Hreq1, <- Hcity, <- Hrole1.
    repeat split; auto.
    intros o0 Ho0.
    destruct (decide (c = caller)) as [->|Hne].
    + rewrite (Hnew eq_refl) in Ho0. injection Ho0 as <-.
      rewrite Hcl in Hc1. injection Hc1 as <-. rewrite Hr in Hr0. injection Hr0 as <-.
      exact Hset.
    + rewrite <- (Hsame Hne) in Ho0. auto.
  - intros k i Hk. apply Hact.
    destruct (call_role cl); [|exact Hk].
    apply lookup_delete_Some in Hk. tauto.
Qed.

Lemma step_preserves (env : Env) (a : action) (s s' : state) :
  inv env s -> step env a s = Some s' -> inv env s'.
Proof.
  destruct a; simpl; eauto using call_preserves, settle_preserves, resume_preserves.
Qed.

Lemma run_preserves (env : Env) (actions : list action) (s s' : state) :
  inv env s -> run env actions s = Some s' -> inv env s'.
Proof.
  revert s. induction actions as [|a actions IH]; intros s Hinv; simpl.
  - intros [= <-]. exact Hinv.
  - destruct (step env a s) as [s1|] eqn:Hstep; [|discriminate].
    apply IH. eapply step_preserves; eassumption.
Qed.

Lemma reachable_inv (env : Env) (s : state) : reachable env s -> inv env s.
Proof. intros [actions Hrun]. eapply run_preserves, Hrun. apply inv_init. Qed.

Lemma weather_request_identity (env : Env) (city : City.t) (snapshot : WeatherData.t) :
  weather_request env city = Ok snapshot ->
  WeatherData.city snapshot = City.name city /\
  WeatherData.lat snapshot = Some (City.lat city) /\
  WeatherData.lon snapshot = Some (City.lon city) /\
  WeatherData.country snapshot = Some (City.country city).
Proof.
  unfold weather_request.
  destruct (weather_response env _ _) as [|[|] [currentData|]]; try discriminate;
    destruct (forecast_response env _ _) as [|[|] [forecastData|]]; try discriminate.
  simpl.
  destruct (map_result _ _) as [processedForecast|]; [|discriminate]. simpl.
  destruct (first (cur_weather currentData)) as [w0|]; [|discriminate]. simpl.
  intros [= <-]. repeat split.
Qed.

(** C3.  In every state the calls of [fetchWeatherFromApi] can reach:
    two requests in flight under one key are the same request; a call made
    while the owner of the request of its key has not resumed sends no HTTP
    request and awaits that request; the calls that awaited one request
    returned the same outcome; the owner of a settled request can resume,
    and when it does the entry of its key is gone, whether the request was
    fulfilled or rejected; and the HTTP requests sent are one pair for each
    request started. *)
Theorem at_most_one_in_flight (env : Env) (s : state) :
  reachable env s ->
  (forall i j ri rj,
     requests s !! i = Some ri -> requests s !! j = Some rj ->
     in_flight ri -> in_flight rj -> req_key ri = req_key rj -> i = j) /\
  (forall c1 cl1 c2 city s',
     calls s !! c1 = Some cl1 -> call_role cl1 = Owner -> call_returned cl1 = None ->
     cityKey city = cityKey (call_city cl1) ->
     step env (Call c2 city) s = Some s' ->
     wire s' = wire s /\ requests s' = requests s /\
     exists cl2, calls s' !! c2 = Some cl2 /\ call_request cl2 = call_request cl1) /\
  (forall c1 c2 cl1 cl2 o1 o2,
     calls s !! c1 = Some cl1 -> calls s !! c2 = Some cl2 ->
     call_request cl1 = call_request cl2 ->
     call_returned cl1 = Some o1 -> call_returned cl2 = Some o2 -> o1 = o2) /\
  (forall c cl r o,
     calls s !! c = Some cl -> call_role cl = Owner -> call_returned cl = None ->
     requests s !! call_request cl = Some r -> req_settled r = Some o ->
     exists s' cl', step env (Resume c) s = Some s' /\
       active s' !! cityKey (call_city cl) = None /\
       calls s' !! c = Some cl' /\ call_returned cl' = Some o) /\
  wire s = flat_map sent (requests s).
Proof.
  intros [Hpend Hown Huniq Hcall Hreq Hact Hwire]%reachable_inv.
  split; [|split; [|split; [|split]]].
  - intros i j ri rj Hi Hj Hpi Hpj Hk.
    pose proof (Hpend _ _ Hi Hpi) as Hai. pose proof (Hpend _ _ Hj Hpj) as Haj.
    rewrite Hk, Haj in Hai. congruence.
  - intros c1 cl1 c2 city s' Hc1 Hrole Hret Hk. simpl. unfold do_call.
    destruct (calls s !! c2); [discriminate|].
    rewrite Hk, (Hown _ _ Hc1 Hrole Hret). intros [= <-]. simpl.
    repeat split. eexists. split; [apply lookup_insert_eq|reflexivity].
  - intros c1 c2 cl1 cl2 o1 o2 Hc1 Hc2 Hsame Ho1 Ho2.
    destruct (Hcall _ _ Hc1) as (r1 & Hr1 & _ & _ & Hret1).
    destruct (Hcall _ _ Hc2) as (r2 & Hr2 & _ & _ & Hret2).
    rewrite Hsame, Hr2 in Hr1. injection Hr1 as <-.
    specialize (Hret1 _ Ho1). specialize (Hret2 _ Ho2). congruence.
  - intros c cl r o Hc Hrole Hret Hr Hset. simpl. unfold do_resume.
    rewrite Hc, Hret, Hr, Hset, Hrole.
    eexists. eexists. split; [reflexivity|]. simpl.
    split; [apply lookup_delete_eq|]. split; [apply lookup_insert_eq|reflexivity].
  - exact Hwire.
Qed.

Lemma at_most_one_in_flight_witness :
  wire (state_after (env_ok []) two_calls_for_paris)
  = [HttpWeather 48 2; HttpForecast 48 2] /\
  active (state_after (env_ok []) two_calls_for_paris) = ∅ /\
  call_returned <$> (calls (state_after (env_ok []) two_calls_for_paris) !! 1%nat)
  = call_returned <$> (calls (state_after (env_ok []) two_calls_for_paris) !! 2%nat).
Proof.
  assert (Hreach : reachable (env_ok []) (state_after (env_ok []) two_calls_for_paris)).
  { exists two_calls_for_paris. reflexivity. }
  destruct (at_most_one_in_flight _ _ Hreach) as (_ & _ & _ & _ & Hwire).
  split; [rewrite Hwire; reflexivity|]. split; reflexivity.
Defined.

(** C10, as the code has it.  A call that returned a snapshot awaited a
    request of its own cache key, and the [city], [lat], [lon] and
    [country] of the snapshot are those of the city that started that
    request; for the call that started the request this is its own city.
    The answer of the provider is in none of the four fields. *)
Theorem snapshot_identity (env : Env) (s : state) (c : nat) (cl : call)
    (snapshot : WeatherData.t) :
  reachable env s ->
  calls s !! c = Some cl ->
  call_returned cl = Some (Ok snapshot) ->
  exists r, requests s !! call_request cl = Some r /\
    cityKey (req_city r) = cityKey (call_city cl) /\
    WeatherData.city snapshot = City.name (req_city r) /\
    WeatherData.lat snapshot = Some (City.lat (req_city r)) /\
    WeatherData.lon snapshot = Some (City.lon (req_city r)) /\
    WeatherData.country snapshot = Some (City.country (req_city r)) /\
    (call_role cl = Owner -> req_city r = call_city cl).
Proof.
  intros [Hpend Hown Huniq Hcall Hreq Hact Hwire]%reachable_inv Hc Hret.
  destruct (Hcall _ _ Hc) as (r & Hr & Hk & Hcity & Hset).
  destruct (Hreq _ _ Hr) as (Hkey & Hout).
  pose proof (Hout _ (Hset _ Hret)) as Hsnap. symmetry in Hsnap.
  apply weather_request_identity in Hsnap as (H1 & H2 & H3 & H4).
  exists r. repeat split; auto. congruence.
Qed.

Lemma snapshot_identity_witness :
  exists snapshot,
    call_returned <$> (calls (state_after (env_ok []) two_springfields) !! 1%nat)
    = Some (Some (Ok snapshot)) /\
    WeatherData.lat snapshot = Some (City.lat springfield_IL) /\
    WeatherData.lon snapshot = Some (City.lon springfield_IL).
Proof.
  assert (Hreach : reachable (env_ok []) (state_after (env_ok []) two_springfields)).
  { exists two_springfields. reflexivity. }
  destruct (calls (state_after (env_ok []) two_springfields) !! 1%nat) as [cl|] eqn:Hc;
    [|discriminate].
  destruct (call_returned cl) as [[snapshot|]|] eqn:Hret;
    try (exfalso; vm_compute in Hc; injection Hc as <-; discriminate).
  destruct (snapshot_identity _ _ _ _ _ Hreach Hc Hret)
    as (r & Hr & _ & _ & Hlat & Hlon & _ & Hown).
  assert (Hcity : req_city r = springfield_IL).
  { vm_compute in Hc. injection Hc as <-. vm_compute in Hr. injection Hr as <-. reflexivity. }
  exists snapshot. rewrite Hcity in Hlat, Hlon.
  split; [simpl; rewrite Hret; reflexivity|]. split; assumption.
Defined.

(** C10 as stated fails: of two overlapping calls for two towns of one name
    and country, the second is handed the snapshot of the first, whose
    coordinates are not those it asked for. *)
Lemma joined_call_gets_other_coordinates :
  cityKey springfield_MO = cityKey springfield_IL /\
  exists cl snapshot,
    calls (state_after (env_ok []) two_springfields) !! 2%nat = Some cl /\
    call_city cl = springfield_MO /\
    call_returned cl = Some (Ok snapshot) /\
    WeatherData.lat snapshot = Some 39 /\
    WeatherData.lon snapshot = Some (-89) /\
    WeatherData.lat snapshot <> Some (City.lat springfield_MO) /\
    WeatherData.lon snapshot <> Some (City.lon springfield_MO).
Proof.
  split; [reflexivity|].
  eexists. eexists. split; [vm_compute; reflexivity|].
  repeat split; try discriminate.
Qed.

End InFlightFacts.

(** * Further properties *)

(** ** Running a computation from the equations of its parts *)

Lemma catch_ok {A : Type} (body handler : Eff A) (w w1 : World) (a : A) (t : list event) :
  body w = (Ok a, w1, t) -> catch body handler w = (Ok a, w1, t).
Proof. intros H. unfold catch. rewrite H. reflexivity. Qed.

Lemma catch_throw {A : Type} (body handler : Eff A) (w w1 : World) (t : list event) :
  body w = (Throw, w1, t) ->
  catch body handler w
  = (outcome (handler w1), world_after (handler w1), t ++ calls_made (handler w1)).
Proof.
  intros H. unfold catch, outcome, world_after, calls_made. rewrite H.
  destruct (handler w1) as [[r w2] t2]. reflexivity.
Qed.

Lemma bind_ok {A B : Type} (m : Eff A) (k : A -> Eff B) (w w1 : World) (a : A)
    (t : list event) :
  m w = (Ok a, w1, t) ->
  bind m k w = (outcome (k a w1), world_after (k a w1), t ++ calls_made (k a w1)).
Proof.
  intros H. unfold bind, outcome, world_after, calls_made. rewrite H.
  destruct (k a w1) as [[r w2] t2]. reflexivity.
Qed.

Lemma bind_throw {A B : Type} (m : Eff A) (k : A -> Eff B) (w w1 : World) (t : list event) :
  m w = (Throw, w1, t) -> bind m k w = (Throw, w1, t).
Proof. intros H. unfold bind. rewrite H. reflexivity. Qed.

Lemma eff_eta {A : Type} (x : result A * World * list event) :
  x = (outcome x, world_after x, calls_made x).
Proof. destruct x as [[r w] t]. reflexivity. Qed.

(** ** WeatherService: reading through the cache *)

Lemma cacheFreshData_eq (city : City.t) (freshData : WeatherData.t) (currentTime : Z)
    (w : World) :
  cacheFreshData city freshData currentTime w =
  (Ok tt,
   {| storage :=
        put_weather_last_fetch
          (Some (<[cityKey city := currentTime]> (default ∅ (weather_last_fetch (storage w)))))
          (put_weather_data
             (Some (<[cityKey city := freshData]> (default ∅ (weather_data (storage w)))))
             (storage w));
      activeRequests := activeRequests w |},
   []).
Proof. reflexivity. Qed.

(** What [cacheFreshData] leaves behind: the snapshot and the time under
    the key of the city, and everything else as it was. *)
Lemma cacheFreshData_spec (city : City.t) (freshData : WeatherData.t) (currentTime : Z)
    (w : World) :
  let w' := world_after (cacheFreshData city freshData currentTime w) in
  cachedSnapshot w' city = Some freshData /\
  cachedTime w' city = Some currentTime /\
  (forall other, cityKey other <> cityKey city ->
     cachedSnapshot w' other = cachedSnapshot w other /\
     cachedTime w' other = cachedTime w other) /\
  pendingQueue w' = pendingQueue w /\
  recent_city_searches (storage w') = recent_city_searches (storage w) /\
  activeRequests w' = activeRequests w.
Proof.
  cbv zeta. rewrite cacheFreshData_eq.
  unfold world_after, cachedSnapshot, cachedTime, pendingQueue. simpl.
  rewrite !lookup_insert_eq. repeat split; try reflexivity.
  - rewrite lookup_insert_ne by congruence. reflexivity.
  - rewrite lookup_insert_ne by congruence. reflexivity.
Qed.

Lemma clearCityWeatherCache_frame (city : City.t) (w : World) :
  exists w', clearCityWeatherCache city w = (Ok tt, w', []) /\
    cachedSnapshot w' city = None /\
    truthy_num (cachedTime w' city) = false /\
    (forall other, cityKey other <> cityKey city ->
       cachedSnapshot w' other = cachedSnapshot w other /\
       cachedTime w' other = cachedTime w other) /\
    pendingQueue w' = pendingQueue w /\
    recent_city_searches (storage w') = recent_city_searches (storage w) /\
    activeRequests w' = activeRequests w.
Proof.
  unfold clearCityWeatherCache, catch, bind, getData, storeData, ret, throw.
  unfold cachedSnapshot, cachedTime, pendingQueue.
  destruct w as [[wd lf pq rs] ar]. simpl.
  destruct (default ∅ wd !! cityKey city) as [snap|] eqn:Hsnap; simpl;
    destruct (truthy_num (default ∅ lf !! cityKey city)) eqn:Htime; simpl;
    eexists; (split; [reflexivity|]); simpl;
    rewrite ?lookup_delete_eq; repeat split; auto;
    rewrite ?lookup_delete_ne by congruence; reflexivity.
Qed.


(** The [try] block of lines 240-258 when the fetch succeeds. *)
Lemma refresh_succeeds (env : Env) (city : City.t) (forceRefresh : bool) (w : World)
    (snapshot : WeatherData.t) (handler : Eff (option WeatherData.t)) :
  fetchOutcome env city w = Ok snapshot ->
  exists w',
    catch
      (do! (if forceRefresh then clearCityWeatherCache city else ret tt) in
       let! freshData := fetchWeatherFromApi env city in
       do! cacheFreshData city freshData (Date_now env) in
       ret (Some freshData)) handler w
    = (Ok (Some snapshot), w', fetchCalls city w) /\
    cachedSnapshot w' city = Some snapshot /\
    cachedTime w' city = Some (Date_now env) /\
    (forall other, cityKey other <> cityKey city ->
       cachedSnapshot w' other = cachedSnapshot w other /\
       cachedTime w' other = cachedTime w other) /\
    pendingQueue w' = pendingQueue w /\
    recent_city_searches (storage w') = recent_city_searches (storage w) /\
    activeRequests w' = activeRequests w.
Proof.
  intros Hfetch.
  assert (Hevict : exists w0,
    (if forceRefresh then clearCityWeatherCache city else ret tt) w = (Ok tt, w0, []) /\
    (forall other, cityKey other <> cityKey city ->
       cachedSnapshot w0 other = cachedSnapshot w other /\
       cachedTime w0 other = cachedTime w other) /\
    pendingQueue w0 = pendingQueue w /\
    recent_city_searches (storage w0) = recent_city_searches (storage w) /\
    activeRequests w0 = activeRequests w).
  { destruct forceRefresh.
    - destruct (clearCityWeatherCache_frame city w) as (w0 & H & _ & _ & Ho & Hq & Hr & Ha).
      exists w0. auto.
    - exists w. repeat split; reflexivity. }
  destruct Hevict as (w0 & Hstep & Hother & Hqueue & Hrecent & Har).
  exists (world_after (cacheFreshData city snapshot (Date_now env) w0)).
  destruct (cacheFreshData_spec city snapshot (Date_now env) w0)
    as (Hs & Ht & Hfr & Hq & Hr & Ha).
  split; [|repeat split; try congruence].
  - apply catch_ok. rewrite (bind_ok _ _ _ _ _ _ Hstep).
    assert (Hf : fetchWeatherFromApi env city w0 = (Ok snapshot, w0, fetchCalls city w)).
    { rewrite fetchWeatherFromApi_eq', (fetchOutcome_same_requests env city w w0 Har), Hfetch.
      unfold fetchCalls. rewrite Har. reflexivity. }
    rewrite (bind_ok _ _ _ _ _ _ Hf).
    rewrite (bind_ok _ _ _ _ _ _ (cacheFreshData_eq city snapshot (Date_now env) w0)).
    unfold outcome, world_after, calls_made, ret. simpl. rewrite app_nil_r. reflexivity.
  - destruct (Hfr other H) as [-> _]. apply Hother, H.
  - destruct (Hfr other H) as [_ ->]. apply Hother, H.
Qed.

Lemma getWeatherData_refresh_spec (env : Env) (city : City.t) (forceRefresh : bool)
    (w : World) (snapshot : WeatherData.t) :
  online env = true ->
  isCacheExpired (cachedTime w city) (Date_now env) forceRefresh = true ->
  fetchOutcome env city w = Ok snapshot ->
  let call := getWeatherData env city forceRefresh w in
  outcome call = Ok (Some snapshot) /\
  calls_made call = NetworkGetState :: fetchCalls city w /\
  cachedSnapshot (world_after call) city = Some snapshot /\
  cachedTime (world_after call) city = Some (Date_now env) /\
  (forall other, cityKey other <> cityKey city ->
     cachedSnapshot (world_after call) other = cachedSnapshot w other /\
     cachedTime (world_after call) other = cachedTime w other) /\
  pendingQueue (world_after call) = pendingQueue w.
Proof.
  unfold cachedTime at 1. intros Hon Hexp Hfetch. cbv zeta.
  assert (Hcall : exists w',
    getWeatherData env city forceRefresh w
    = (Ok (Some snapshot), w', NetworkGetState :: fetchCalls city w) /\
    cachedSnapshot w' city = Some snapshot /\
    cachedTime w' city = Some (Date_now env) /\
    (forall other, cityKey other <> cityKey city ->
       cachedSnapshot w' other = cachedSnapshot w other /\
       cachedTime w' other = cachedTime w other) /\
    pendingQueue w' = pendingQueue w).
  { unfold getWeatherData.
    rewrite (catch_bind_ok _ _ _ _ _ _ _ (isInternetAvailable_eq env w)).
    rewrite (catch_bind_ok _ _ _ _ _ _ _ (getData_eq weather_last_fetch w)).
    cbv beta zeta. rewrite Hon, Hexp. cbn [andb].
    match goal with
    | |- context [catch (catch ?body ?handler) _ w] =>
        destruct (refresh_succeeds env city forceRefresh w snapshot handler Hfetch)
          as (w' & Hrun & Hs & Ht & Hfr & Hq & _)
    end.
    exists w'. split; [|auto].
    rewrite (catch_ok _ _ _ _ _ _ Hrun). reflexivity. }
  destruct Hcall as (w' & -> & H).
  unfold outcome, calls_made, world_after. simpl. tauto.
Qed.

(** X1.  Online with an expired cache (or a forced refresh) and a fetch
    that succeeds, [getWeatherData] returns the fresh snapshot and leaves
    it in the cache with the time of the call; it asks for connectivity,
    sends what the fetch sends, and touches neither the pending queue nor
    the cache of a city with another key. *)
Theorem getWeatherData_fetch_success (env : Env) (city : City.t) (forceRefresh : bool)
    (w : World) (snapshot : WeatherData.t) :
  online env = true ->
  isCacheExpired (cachedTime w city) (Date_now env) forceRefresh = true ->
  fetchOutcome env city w = Ok snapshot ->
  let call := getWeatherData env city forceRefresh w in
  outcome call = Ok (Some snapshot) /\
  calls_made call = NetworkGetState :: fetchCalls city w /\
  cachedSnapshot (world_after call) city = Some snapshot /\
  cachedTime (world_after call) city = Some (Date_now env) /\
  (forall other, cityKey other <> cityKey city ->
     cachedSnapshot (world_after call) other = cachedSnapshot w other /\
     cachedTime (world_after call) other = cachedTime w other) /\
  pendingQueue (world_after call) = pendingQueue w.
Proof. exact (getWeatherData_refresh_spec env city forceRefresh w snapshot). Qed.

Lemma getWeatherData_fetch_success_witness :
  exists snapshot,
    outcome (getWeatherData (env_ok []) paris true (world_with_cache 1000))
    = Ok (Some snapshot) /\
    cachedTime (world_after (getWeatherData (env_ok []) paris true (world_with_cache 1000)))
               paris
    = Some 1700000000000.
Proof.
  assert (Hreq : exists snapshot,
            fetchOutcome (env_ok []) paris (world_with_cache 1000) = Ok snapshot).
  { eexists. vm_compute. reflexivity. }
  destruct Hreq as [snapshot Hreq]. exists snapshot.
  destruct (getWeatherData_fetch_success (env_ok []) paris true (world_with_cache 1000)
              snapshot eq_refl eq_refl Hreq) as (Hout & _ & _ & Htime & _).
  split; assumption.
Defined.

(** X2.  What a successful fetch cached is served from the cache: a second
    call without [forceRefresh] made within the hour returns the same
    snapshot after the connectivity check alone, whatever the connectivity
    then is, provided the clock of the first call did not read 0. *)
Theorem getWeatherData_then_cached (env env' : Env) (city : City.t) (forceRefresh : bool)
    (w : World) (snapshot : WeatherData.t) :
  online env = true ->
  isCacheExpired (cachedTime w city) (Date_now env) forceRefresh = true ->
  fetchOutcome env city w = Ok snapshot ->
  Date_now env <> 0 ->
  Date_now env' - Date_now env <= 3600000 ->
  let w1 := world_after (getWeatherData env city forceRefresh w) in
  getWeatherData env' city false w1 = (Ok (Some snapshot), w1, [NetworkGetState]).
Proof.
  intros Hon Hexp Hfetch Hclock Hage. cbv zeta.
  destruct (getWeatherData_refresh_spec env city forceRefresh w snapshot Hon Hexp Hfetch)
    as (_ & _ & Hsnap & Htime & _).
  apply getWeatherData_fresh; [|exact Hsnap].
  rewrite Htime.
  destruct (isCacheExpired (Some (Date_now env)) (Date_now env') false) eqn:Hexp';
    [|reflexivity].
  apply isCacheExpired_true in Hexp'.
  destruct Hexp' as [H|[H|[[t' [H Hgt]]|H]]]; try discriminate.
  - congruence.
  - injection H as <-. lia.
Qed.

Lemma getWeatherData_then_cached_witness :
  outcome (getWeatherData env_offline paris false
             (world_after (getWeatherData (env_ok []) paris false empty_world)))
  = outcome (getWeatherData (env_ok []) paris false empty_world).
Proof.
  assert (Hreq : exists snapshot, fetchOutcome (env_ok []) paris empty_world = Ok snapshot).
  { eexists. vm_compute. reflexivity. }
  destruct Hreq as [snapshot Hreq].
  assert (Hclock : Date_now (env_ok []) <> 0) by discriminate.
  assert (Hage : Date_now env_offline - Date_now (env_ok []) <= 3600000) by (simpl; lia).
  pose proof (getWeatherData_then_cached (env_ok []) env_offline paris false empty_world
                snapshot eq_refl eq_refl Hreq Hclock Hage) as H.
  cbv zeta in H. rewrite H.
  destruct (getWeatherData_refresh_spec (env_ok []) paris false empty_world
              snapshot eq_refl eq_refl Hreq) as (Hout & _).
  rewrite Hout. reflexivity.
Defined.

(** X3.  Offline with a snapshot in the cache, [getWeatherData] returns
    the snapshot whatever its age and whether or not a refresh is forced;
    it asks for connectivity, sends nothing and changes nothing. *)
Theorem getWeatherData_offline_cached (env : Env) (city : City.t) (forceRefresh : bool)
    (w : World) (cached : WeatherData.t) :
  online env = false ->
  cachedSnapshot w city = Some cached ->
  getWeatherData env city forceRefresh w = (Ok (Some cached), w, [NetworkGetState]).
Proof.
  intros Hoff Hcached.
  rewrite (getWeatherData_offline_eq env city forceRefresh w Hoff), Hcached. reflexivity.
Qed.

Lemma getWeatherData_offline_cached_witness :
  getWeatherData env_offline paris true (world_with_cache 1)
  = (Ok (Some sample_snapshot), world_with_cache 1, [NetworkGetState]).
Proof.
  apply (getWeatherData_offline_cached env_offline paris true (world_with_cache 1));
    reflexivity.
Defined.

(** Online with a forced refresh and a fetch that fails: the outcome of
    lines 240-268 and 302-305. *)
Lemma getWeatherData_forced_failure_eq (env : Env) (city : City.t) (w : World) :
  online env = true ->
  fetchOutcome env city w = Throw ->
  exists w',
    getWeatherData env city true w = (Ok None, w', NetworkGetState :: fetchCalls city w) /\
    clearCityWeatherCache city w = (Ok tt, w', []).
Proof.
  intros Hon Hfail.
  destruct (clearCityWeatherCache_frame city w)
    as (w' & Hclear & Hnone & _ & _ & _ & _ & Har).
  exists w'. split; [|exact Hclear].
  unfold getWeatherData.
  rewrite (catch_bind_ok _ _ _ _ _ _ _ (isInternetAvailable_eq env w)).
  rewrite (catch_bind_ok _ _ _ _ _ _ _ (getData_eq weather_last_fetch w)).
  cbv beta zeta. rewrite Hon.
  assert (Hexp : forall t, isCacheExpired t (Date_now env) true = true).
  { intros t. unfold isCacheExpired. apply orb_true_r. }
  rewrite Hexp. cbn [andb].
  assert (Hf : fetchWeatherFromApi env city w' = (Throw, w', fetchCalls city w)).
  { rewrite fetchWeatherFromApi_eq', (fetchOutcome_same_requests env city w w' Har), Hfail.
    unfold fetchCalls. rewrite Har. reflexivity. }
  match goal with
  | |- context [catch (catch ?body ?handler) _ w] =>
      assert (Hinner : catch body handler w = (Throw, w', fetchCalls city w))
  end.
  { rewrite (catch_bind_ok _ _ _ _ _ _ _ Hclear).
    rewrite (catch_throw _ _ _ _ _ (bind_throw _ _ _ _ _ Hf)).
    rewrite (bind_ok _ _ _ _ _ _ (getData_eq weather_data w')).
    unfold cachedSnapshot in Hnone. cbv beta zeta. rewrite Hnone.
    unfold outcome, world_after, calls_made, throw. simpl. rewrite app_nil_r. reflexivity. }
  rewrite (catch_throw _ _ _ _ _ Hinner).
  unfold outcome, world_after, calls_made, ret. simpl. rewrite app_nil_r. reflexivity.
Qed.

(** X4.  A forced refresh whose fetch fails loses the snapshot that was
    cached: the entry of the city was cleared before the fetch and is not
    put back, so the call returns [null] and a later call made offline
    finds nothing either. *)
Theorem forced_refresh_failure_evicts (env env' : Env) (city : City.t)
    (forceRefresh' : bool) (w : World) :
  online env = true ->
  fetchOutcome env city w = Throw ->
  let call := getWeatherData env city true w in
  outcome call = Ok None /\
  cachedSnapshot (world_after call) city = None /\
  (online env' = false ->
   outcome (getWeatherData env' city forceRefresh' (world_after call)) = Ok None).
Proof.
  intros Hon Hfail. cbv zeta.
  destruct (getWeatherData_forced_failure_eq env city w Hon Hfail) as (w' & -> & Hclear).
  destruct (clearCityWeatherCache_frame city w) as (w0 & Hclear0 & Hnone & _).
  rewrite Hclear in Hclear0. injection Hclear0 as <-.
  unfold outcome, world_after. simpl. repeat split; [exact Hnone|].
  intros Hoff.
  rewrite (getWeatherData_offline_eq env' city forceRefresh' w' Hoff), Hnone. reflexivity.
Qed.

Lemma forced_refresh_failure_evicts_witness :
  cachedSnapshot (world_with_cache 1000) paris = Some sample_snapshot /\
  outcome (getWeatherData env_weather_down paris true (world_with_cache 1000)) = Ok None /\
  cachedSnapshot
    (world_after (getWeatherData env_weather_down paris true (world_with_cache 1000))) paris
  = None.
Proof.
  split; [reflexivity|].
  destruct (forced_refresh_failure_evicts env_weather_down env_offline paris false
              (world_with_cache 1000) eq_refl eq_refl) as (H1 & H2 & _).
  split; assumption.
Defined.

(** X5.  Online with a time in the cache that is not expired but no
    snapshot under the key, [getWeatherData] fetches: a snapshot that
    arrives is cached with the time of the call and returned, and a fetch
    that fails gives [null] and leaves the world as it was. *)
Theorem getWeatherData_cold_cache (env : Env) (city : City.t) (w : World) :
  online env = true ->
  isCacheExpired (cachedTime w city) (Date_now env) false = false ->
  cachedSnapshot w city = None ->
  let call := getWeatherData env city false w in
  calls_made call = NetworkGetState :: fetchCalls city w /\
  match fetchOutcome env city w with
  | Ok snapshot =>
      outcome call = Ok (Some snapshot) /\
      cachedSnapshot (world_after call) city = Some snapshot /\
      cachedTime (world_after call) city = Some (Date_now env)
  | Throw => outcome call = Ok None /\ world_after call = w
  end.
Proof.
  unfold cachedTime at 1, cachedSnapshot at 1. intros Hon Hfresh Hcold. cbv zeta.
  assert (Hcall :
    getWeatherData env city false w =
    match fetchOutcome env city w with
    | Ok snapshot =>
        (Ok (Some snapshot), world_after (cacheFreshData city snapshot (Date_now env) w),
         NetworkGetState :: fetchCalls city w)
    | Throw => (Ok None, w, NetworkGetState :: fetchCalls city w)
    end).
  { unfold getWeatherData.
    rewrite (catch_bind_ok _ _ _ _ _ _ _ (isInternetAvailable_eq env w)).
    rewrite (catch_bind_ok _ _ _ _ _ _ _ (getData_eq weather_last_fetch w)).
    cbv beta zeta. rewrite Hon, Hfresh. cbn [andb].
    rewrite (catch_bind_ok _ _ _ _ _ _ _ (getData_eq weather_data w)).
    cbv beta zeta. rewrite Hcold. cbn [negb].
    destruct (fetchOutcome env city w) as [snapshot|] eqn:Hfetch.
    - assert (Hf : fetchWeatherFromApi env city w = (Ok snapshot, w, fetchCalls city w)).
      { rewrite fetchWeatherFromApi_eq', Hfetch. reflexivity. }
      rewrite (catch_bind_ok _ _ _ _ _ _ _ Hf).
      rewrite (catch_bind_ok _ _ _ _ _ _ _ (cacheFreshData_eq city snapshot (Date_now env) w)).
      unfold outcome, world_after, calls_made, catch, ret. simpl.
      rewrite app_nil_r. reflexivity.
    - assert (Hf : fetchWeatherFromApi env city w = (Throw, w, fetchCalls city w)).
      { rewrite fetchWeatherFromApi_eq', Hfetch. reflexivity. }
      rewrite (catch_throw _ _ _ _ _ (bind_throw _ _ _ _ _ Hf)).
      unfold outcome, world_after, calls_made, ret. simpl.
      rewrite app_nil_r. reflexivity. }
  rewrite Hcall.
  destruct (fetchOutcome env city w) as [snapshot|].
  - destruct (cacheFreshData_spec city snapshot (Date_now env) w) as (Hs & Ht & _).
    unfold outcome, world_after, calls_made in *. simpl. auto.
  - unfold outcome, world_after, calls_made. simpl. auto.
Qed.

Lemma getWeatherData_cold_cache_witness :
  exists snapshot,
    outcome (getWeatherData (env_ok []) paris false (world_time_only 1700000000000))
    = Ok (Some snapshot) /\
    cachedSnapshot
      (world_after (getWeatherData (env_ok []) paris false (world_time_only 1700000000000)))
      paris
    = Some snapshot.
Proof.
  pose proof (getWeatherData_cold_cache (env_ok []) paris (world_time_only 1700000000000)
                eq_refl eq_refl eq_refl) as H.
  cbv zeta in H. destruct H as (_ & H).
  destruct (fetchOutcome (env_ok []) paris (world_time_only 1700000000000))
    as [snapshot|] eqn:Hfetch; [|discriminate].
  exists snapshot. tauto.
Defined.





(** ** WeatherService: the pending requests *)

(** What the services of the cache leave alone. *)
Lemma processPendingCity_spec (env : Env) (city : City.t) (w : World) :
  exists w' t, processPendingCity env city w = (Ok tt, w', t) /\
    weather_pending_requests (storage w') = weather_pending_requests (storage w) /\
    recent_city_searches (storage w') = recent_city_searches (storage w) /\
    activeRequests w' = activeRequests w /\
    List.filter is_sleep t = [] /\
    (forall snapshot, fetchOutcome env city w = Ok snapshot ->
       cachedSnapshot w' city = Some snapshot /\ cachedTime w' city = Some (Date_now env)) /\
    (fetchOutcome env city w = Throw -> w' = w).
Proof.
  unfold processPendingCity.
  destruct (fetchOutcome env city w) as [snapshot|] eqn:Hfetch.
  - assert (Hf : fetchWeatherFromApi env city w = (Ok snapshot, w, fetchCalls city w)).
    { rewrite fetchWeatherFromApi_eq', Hfetch. reflexivity. }
    rewrite (catch_bind_ok _ _ _ _ _ _ _ Hf).
    rewrite (catch_ok _ _ _ _ _ _ (cacheFreshData_eq city snapshot (Date_now env) w)).
    destruct (cacheFreshData_spec city snapshot (Date_now env) w)
      as (Hs & Ht & _ & Hq & Hr & Ha).
    unfold pendingQueue in Hq.
    rewrite cacheFreshData_eq in Hs, Ht, Hq, Hr, Ha. unfold world_after in *. simpl in *.
    assert (Hq' : weather_pending_requests (storage w) = weather_pending_requests (storage w))
      by reflexivity.
    clear Hq. rename Hq' into Hq.
    eexists. eexists. split; [reflexivity|]. simpl.
    split; [exact Hq|]. split; [exact Hr|]. split; [exact Ha|].
    split; [|split; [intros s [= <-]; split; assumption|discriminate]].
    rewrite app_nil_r. unfold fetchCalls.
    destruct (activeRequests w !! cityKey city); reflexivity.
  - assert (Hf : fetchWeatherFromApi env city w = (Throw, w, fetchCalls city w)).
    { rewrite fetchWeatherFromApi_eq', Hfetch. reflexivity. }
    rewrite (catch_throw _ _ _ _ _ (bind_throw _ _ _ _ _ Hf)).
    eexists. eexists. split; [reflexivity|]. simpl.
    split; [reflexivity|]. split; [reflexivity|]. split; [reflexivity|].
    split; [|split; [discriminate|reflexivity]].
    rewrite app_nil_r. unfold fetchCalls.
    destruct (activeRequests w !! cityKey city); reflexivity.
Qed.

Lemma all_settled_pending (env : Env) (batch : list City.t) (w : World) :
  exists rs w' t, all_settled (processPendingCity env) batch w = (Ok rs, w', t) /\
    weather_pending_requests (storage w') = weather_pending_requests (storage w) /\
    recent_city_searches (storage w') = recent_city_searches (storage w) /\
    activeRequests w' = activeRequests w /\
    List.filter is_sleep t = [].
Proof.
  revert w. induction batch as [|city batch IH]; intros w; simpl.
  - exists [], w, []. repeat split; reflexivity.
  - destruct (processPendingCity_spec env city w) as (w1 & t1 & -> & Hq1 & Hr1 & Ha1 & Hs1 & _).
    destruct (IH w1) as (rs & w2 & t2 & -> & Hq2 & Hr2 & Ha2 & Hs2).
    eexists. eexists. eexists. split; [reflexivity|].
    rewrite List.filter_app, Hs1, Hs2. repeat split; congruence.
Qed.

Lemma processPendingBatches_spec (env : Env) (pendingRequests : list City.t)
    (fuel i : nat) (w : World) :
  (length pendingRequests <= i + 3 * fuel)%nat ->
  exists w' t, processPendingBatches env fuel pendingRequests i w = (Ok tt, w', t) /\
    weather_pending_requests (storage w') = weather_pending_requests (storage w) /\
    recent_city_searches (storage w') = recent_city_searches (storage w) /\
    activeRequests w' = activeRequests w /\
    length (List.filter is_sleep t)
    = pred (length (chunks batchSize (drop i pendingRequests))).
Proof.
  revert i w. induction fuel as [|fuel IH]; intros i w Hfuel.
  - exists w, []. rewrite drop_ge by lia. repeat split; reflexivity.
  - cbn [processPendingBatches].
    destruct (Nat.ltb_spec i (length pendingRequests)) as [Hi|Hi].
    + destruct (drop i pendingRequests) as [|c rest] eqn:Hdrop.
      { exfalso. assert (H : length (drop i pendingRequests) = 0%nat) by (rewrite Hdrop; reflexivity).
        rewrite length_drop in H. lia. }
      rewrite chunks_batch.
      assert (Hrest : drop (i + batchSize) pendingRequests = drop batchSize (c :: rest)).
      { rewrite <- Hdrop, drop_drop. reflexivity. }
      destruct (all_settled_pending env (take batchSize (c :: rest)) w)
        as (rs & w1 & t1 & Hbatch & Hq1 & Hr1 & Ha1 & Hs1).
      rewrite (bind_ok _ _ _ _ _ _ Hbatch).
      destruct (IH (i + batchSize)%nat w1) as (w2 & t2 & Hloop & Hq2 & Hr2 & Ha2 & Hs2);
        [unfold batchSize; lia|].
      rewrite Hrest in Hs2.
      assert (Hcs : chunks batchSize (drop batchSize (c :: rest)) = []
                    <-> (length pendingRequests <= i + batchSize)%nat).
      { rewrite chunks_batch_nil, <- Hrest. split.
        - intros Hnil. assert (H : length (drop (i + batchSize) pendingRequests) = 0%nat)
            by (rewrite Hnil; reflexivity).
          rewrite length_drop in H. lia.
        - intros Hge. apply drop_ge. exact Hge. }
      remember (chunks batchSize (drop batchSize (c :: rest))) as cs eqn:Hcsdef.
      destruct (Nat.ltb_spec (i + batchSize) (length pendingRequests)) as [Hlt|Hge].
      * assert (Hpause : emit (Sleep 1000) w1 = (Ok tt, w1, [Sleep 1000])) by reflexivity.
        rewrite (bind_ok _ _ _ _ _ _ Hpause), Hloop.
        unfold outcome, calls_made, world_after. cbn [fst snd].
        eexists. eexists. split; [reflexivity|].
        split; [congruence|]. split; [congruence|]. split; [congruence|].
        rewrite !List.filter_app, Hs1. cbn [List.filter is_sleep app length].
        rewrite Hs2.
        destruct cs as [|b bs]; [|reflexivity].
        exfalso. destruct Hcs as [Hcs _]. specialize (Hcs eq_refl). lia.
      * assert (Hpause : ret tt w1 = (Ok tt, w1, [])) by reflexivity.
        rewrite (bind_ok _ _ _ _ _ _ Hpause), Hloop.
        unfold outcome, calls_made, world_after. cbn [fst snd].
        eexists. eexists. split; [reflexivity|].
        split; [congruence|]. split; [congruence|]. split; [congruence|].
        rewrite !List.filter_app, Hs1. cbn [List.filter is_sleep app length].
        rewrite Hs2. destruct Hcs as [_ Hcs]. rewrite (Hcs Hge). reflexivity.
    + exists w, []. rewrite drop_ge by lia. repeat split; reflexivity.
Qed.

(** X8.  [processPendingRequests] does nothing when the device is offline
    or the queue is empty: it asks for connectivity and leaves the world,
    the queue included, as it is. *)
Theorem processPendingRequests_idle (env : Env) (w : World) :
  online env = false \/ pendingQueue w = [] ->
  processPendingRequests env w = (Ok tt, w, [NetworkGetState]).
Proof.
  intros Hidle. unfold processPendingRequests.
  rewrite (catch_bind_ok _ _ _ _ _ _ _ (isInternetAvailable_eq env w)).
  destruct (online env) eqn:Hon; cbn [negb].
  - destruct Hidle as [Hoff|Hempty]; [discriminate|].
    rewrite (catch_bind_ok _ _ _ _ _ _ _ (getData_eq weather_pending_requests w)).
    cbv beta zeta. unfold pendingQueue in Hempty. rewrite Hempty. reflexivity.
  - reflexivity.
Qed.

Lemma processPendingRequests_idle_witness :
  processPendingRequests env_offline (world_with_lists [paris] [])
  = (Ok tt, world_with_lists [paris] [], [NetworkGetState]).
Proof.
  apply (processPendingRequests_idle env_offline (world_with_lists [paris] [])).
  left. reflexivity.
Defined.

(** X9.  Online with a queue that is not empty, [processPendingRequests]
    does not throw and removes the queue from the storage whatever became
    of the fetches; it pauses once after each batch of three but the last,
    and leaves the recent searches alone. *)
Theorem processPendingRequests_clears_queue (env : Env) (w : World) :
  online env = true ->
  pendingQueue w <> [] ->
  let call := processPendingRequests env w in
  outcome call = Ok tt /\
  weather_pending_requests (storage (world_after call)) = None /\
  recentSearches (world_after call) = recentSearches w /\
  length (List.filter is_sleep (calls_made call))
  = pred (length (chunks batchSize (pendingQueue w))).
Proof.
  intros Hon Hqueue. cbv zeta. unfold processPendingRequests.
  rewrite (catch_bind_ok _ _ _ _ _ _ _ (isInternetAvailable_eq env w)).
  rewrite Hon. cbn [negb].
  rewrite (catch_bind_ok _ _ _ _ _ _ _ (getData_eq weather_pending_requests w)).
  cbv beta zeta. fold (pendingQueue w).
  destruct (Nat.eqb_spec (length (pendingQueue w)) 0) as [Hlen|Hlen].
  { destruct (pendingQueue w); [contradiction|discriminate]. }
  destruct (processPendingBatches_spec env (pendingQueue w) (length (pendingQueue w)) 0 w)
    as (w1 & t1 & Hloop & _ & Hr & _ & Hs); [lia|].
  rewrite drop_0 in Hs.
  rewrite (catch_bind_ok _ _ _ _ _ _ _ Hloop).
  unfold outcome, world_after, calls_made, catch, removeData, recentSearches. simpl.
  rewrite app_nil_r, Hr. auto.
Qed.

Lemma processPendingRequests_clears_queue_witness :
  outcome (processPendingRequests env_weather_down (world_with_lists [paris; lyon] []))
  = Ok tt /\
  pendingQueue
    (world_after (processPendingRequests env_weather_down (world_with_lists [paris; lyon] [])))
  = [].
Proof.
  assert (Hq : pendingQueue (world_with_lists [paris; lyon] []) <> []) by discriminate.
  pose proof (processPendingRequests_clears_queue env_weather_down
                (world_with_lists [paris; lyon] []) eq_refl Hq) as H.
  cbv zeta in H. destruct H as (Hout & Hnone & _).
  split; [exact Hout|]. unfold pendingQueue. rewrite Hnone. reflexivity.
Defined.

(** X10.  A request made offline is served once the device was online:
    when a city with nothing cached is asked for offline while the queue
    is empty, and [processPendingRequests] then runs online with a fetch
    that succeeds, the queue is empty again and a call made offline
    returns the snapshot that was fetched. *)
Theorem pending_request_is_served (offline_env online_env : Env) (city : City.t)
    (force1 force2 : bool) (w : World) (snapshot : WeatherData.t) :
  online offline_env = false ->
  online online_env = true ->
  cachedSnapshot w city = None ->
  pendingQueue w = [] ->
  fetchOutcome online_env city w = Ok snapshot ->
  let w1 := world_after (getWeatherData offline_env city force1 w) in
  let w2 := world_after (processPendingRequests online_env w1) in
  pendingQueue w1 = [city] /\
  pendingQueue w2 = [] /\
  getWeatherData offline_env city force2 w2 = (Ok (Some snapshot), w2, [NetworkGetState]).
Proof.
  intros Hoff Hon Hcold Hempty Hfetch. cbv zeta.
  set (w1 := {| storage := put_weather_pending_requests (Some [city]) (storage w);
                activeRequests := activeRequests w |}).
  assert (Hfirst : getWeatherData offline_env city force1 w = (Ok None, w1, [NetworkGetState])).
  { rewrite (getWeatherData_offline_eq offline_env city force1 w Hoff), Hcold, Hempty.
    reflexivity. }
  rewrite Hfirst. unfold world_after. cbn [fst snd].
  assert (Hq1 : pendingQueue w1 = [city]) by reflexivity.
  split; [exact Hq1|].
  assert (Hfetch1 : fetchOutcome online_env city w1 = Ok snapshot).
  { rewrite <- Hfetch. apply fetchOutcome_same_requests. reflexivity. }
  assert (Hrun : exists w2,
    processPendingRequests online_env w1 = (Ok tt, w2, NetworkGetState :: fetchCalls city w1) /\
    pendingQueue w2 = [] /\ cachedSnapshot w2 city = Some snapshot).
  { unfold processPendingRequests.
    rewrite (catch_bind_ok _ _ _ _ _ _ _ (isInternetAvailable_eq online_env w1)).
    rewrite Hon. cbn [negb].
    rewrite (catch_bind_ok _ _ _ _ _ _ _ (getData_eq weather_pending_requests w1)).
    cbv beta zeta. fold (pendingQueue w1). rewrite Hq1.
    cbn [length Nat.eqb processPendingBatches Nat.ltb Nat.leb take drop batchSize
         all_settled Nat.add].
    destruct (processPendingCity_spec online_env city w1)
      as (w2 & t2 & Hcity & Hq2 & _ & _ & _ & Hcached & _).
    destruct (Hcached snapshot Hfetch1) as [Hs _].
    assert (Ht2 : t2 = fetchCalls city w1).
    { unfold processPendingCity in Hcity.
      assert (Hf : fetchWeatherFromApi online_env city w1
                   = (Ok snapshot, w1, fetchCalls city w1)).
      { rewrite fetchWeatherFromApi_eq', Hfetch1. reflexivity. }
      rewrite (catch_bind_ok _ _ _ _ _ _ _ Hf) in Hcity.
      rewrite (catch_ok _ _ _ _ _ _ (cacheFreshData_eq city snapshot (Date_now online_env) w1))
        in Hcity.
      unfold calls_made in Hcity. simpl in Hcity. rewrite app_nil_r in Hcity.
      injection Hcity as _ Ht. congruence. }
    subst t2.
    unfold catch, bind, ret, removeData. rewrite Hcity. simpl.
    eexists. split; [rewrite !app_nil_r; reflexivity|].
    split; [reflexivity|exact Hs]. }
  destruct Hrun as (w2 & -> & Hq2 & Hs2).
  cbn [fst snd]. split; [exact Hq2|].
  rewrite (getWeatherData_offline_eq offline_env city force2 w2 Hoff), Hs2. reflexivity.
Qed.

Lemma pending_request_is_served_witness :
  exists snapshot,
    outcome
      (getWeatherData env_offline paris false
         (world_after
            (processPendingRequests (env_ok [])
               (world_after (getWeatherData env_offline paris false empty_world)))))
    = Ok (Some snapshot).
Proof.
  assert (Hreq : exists snapshot, fetchOutcome (env_ok []) paris empty_world = Ok snapshot).
  { eexists. vm_compute. reflexivity. }
  destruct Hreq as [snapshot Hreq]. exists snapshot.
  pose proof (pending_request_is_served env_offline (env_ok []) paris false false empty_world
                snapshot eq_refl eq_refl eq_refl eq_refl Hreq) as H.
  cbv zeta in H. destruct H as (_ & _ & ->). reflexivity.
Defined.

(** ** GeoService: the recent searches *)

Lemma getRecentSearches_eq (w : World) :
  getRecentSearches w = (Ok (recentSearches w), w, []).
Proof. reflexivity. Qed.

Lemma addToRecentSearches_eq (city : City.t) (w : World) :
  addToRecentSearches city w =
  (Ok tt,
   if existsb (sameCity city) (recentSearches w) then w
   else {| storage := put_recent_city_searches
                        (Some (take 10 (city :: recentSearches w))) (storage w);
           activeRequests := activeRequests w |},
   []).
Proof.
  unfold addToRecentSearches.
  rewrite (catch_bind_ok _ _ _ _ _ _ _ (getRecentSearches_eq w)).
  cbv beta zeta. fold (sameCity city).
  destruct (existsb (sameCity city) (recentSearches w)); reflexivity.
Qed.

Lemma existsb_take_false {A : Type} (p : A -> bool) (n : nat) (l : list A) :
  existsb p l = false -> existsb p (take n l) = false.
Proof.
  revert n. induction l as [|x l IH]; intros [|n]; simpl; auto.
  intros [Hx Hl]%orb_false_iff. rewrite Hx. simpl. auto.
Qed.

Lemma distinctCities_take (n : nat) (l : list City.t) :
  distinctCities l = true -> distinctCities (take n l) = true.
Proof.
  revert n. induction l as [|c l IH]; intros [|n]; simpl; auto.
  intros [Hc Hl]%andb_true_iff. apply negb_true_iff in Hc.
  rewrite (existsb_take_false _ n l Hc). simpl. auto.
Qed.

Lemma addToRecentSearches_spec (city : City.t) (w : World) :
  let w' := world_after (addToRecentSearches city w) in
  addToRecentSearches city w = (Ok tt, w', []) /\
  recentSearches w'
  = (if existsb (sameCity city) (recentSearches w) then recentSearches w
     else take 10 (city :: recentSearches w)) /\
  existsb (sameCity city) (recentSearches w') = true /\
  addToRecentSearches city w' = (Ok tt, w', []) /\
  ((length (recentSearches w) <= 10)%nat -> (length (recentSearches w') <= 10)%nat) /\
  (distinctCities (recentSearches w) = true -> distinctCities (recentSearches w') = true) /\
  pendingQueue w' = pendingQueue w /\
  (forall c, cachedSnapshot w' c = cachedSnapshot w c).
Proof.
  cbv zeta. rewrite (addToRecentSearches_eq city w). unfold world_after. cbn [fst snd].
  destruct (existsb (sameCity city) (recentSearches w)) eqn:Hin.
  - repeat split; auto.
    rewrite addToRecentSearches_eq, Hin. reflexivity.
  - set (w' := {| storage := _; activeRequests := activeRequests w |}).
    assert (Hrecent : recentSearches w' = take 10 (city :: recentSearches w)) by reflexivity.
    assert (Hfound : existsb (sameCity city) (recentSearches w') = true).
    { rewrite Hrecent. simpl. rewrite sameCity_refl. reflexivity. }
    repeat split; auto.
    + rewrite addToRecentSearches_eq, Hfound. reflexivity.
    + intros _. rewrite Hrecent, length_take. apply Nat.le_min_l.
    + intros Hdistinct. rewrite Hrecent. apply distinctCities_take.
      simpl. rewrite Hin, Hdistinct. reflexivity.
Qed.

(** X11.  [addToRecentSearches] does not throw and sends nothing.  A
    city whose name and country are in the list leaves it as it is;
    another city goes to the front and the list is cut to ten entries.
    Either way the city is in the list afterwards, adding it again changes
    nothing, a list of at most ten entries stays so, and a list without
    two entries of one name and country stays so. *)
Theorem addToRecentSearches_remembers (city : City.t) (w : World) :
  let w' := world_after (addToRecentSearches city w) in
  addToRecentSearches city w = (Ok tt, w', []) /\
  recentSearches w'
  = (if existsb (sameCity city) (recentSearches w) then recentSearches w
     else take 10 (city :: recentSearches w)) /\
  existsb (sameCity city) (recentSearches w') = true /\
  addToRecentSearches city w' = (Ok tt, w', []) /\
  ((length (recentSearches w) <= 10)%nat -> (length (recentSearches w') <= 10)%nat) /\
  (distinctCities (recentSearches w) = true -> distinctCities (recentSearches w') = true) /\
  pendingQueue w' = pendingQueue w /\
  (forall c, cachedSnapshot w' c = cachedSnapshot w c).
Proof. exact (addToRecentSearches_spec city w). Qed.

Lemma addToRecentSearches_remembers_witness :
  recentSearches (world_after (addToRecentSearches paris (world_with_lists [] [lyon])))
  = [paris; lyon] /\
  (length (recentSearches
             (world_after (addToRecentSearches paris (world_with_lists [] [lyon])))) <= 10)%nat.
Proof.
  pose proof (addToRecentSearches_remembers paris (world_with_lists [] [lyon])) as H.
  cbv zeta in H. destruct H as (_ & Hrecent & _ & _ & Hlen & _).
  split; [rewrite Hrecent; reflexivity|]. apply Hlen. simpl. lia.
Defined.

(** ** GeoService: the search *)








(** ** Favourites: the toggle *)

Lemma isFavoriteItem_isMatchingItem (weatherData : WeatherData.t) (weatherId : option Z)
    (item : FavoriteItem.t) :
  isFavoriteItem (WeatherData.city weatherData) weatherId item = true ->
  isMatchingItem weatherData item = true.
Proof.
  unfold isFavoriteItem, isMatchingItem, JSON_parse.
  destruct (String.eqb (toLowerCase (FavoriteItem.name item))
                       (toLowerCase (WeatherData.city weatherData))); simpl;
    [|discriminate].
  destruct (FavoriteItem.metadata item) as [[|m]|]; simpl.
  - destruct (String.eqb (FavoriteItem.content item) ""); simpl; [discriminate|reflexivity].
  - destruct (String.eqb (FavoriteItem.content item) ""); simpl; [discriminate|].
    destruct (is_true_value (Metadata.deleted m)); simpl; [discriminate|reflexivity].
  - reflexivity.
Qed.

(** X14.  Every record that makes [checkIfCityInFavorites] answer yes for
    the city (and any weather id) of a snapshot is in the matching set of
    [toggleFavorite] for that snapshot: what made the city a favourite is
    among what the toggle marks as deleted. *)
Theorem favorite_items_are_matched (weatherData : WeatherData.t) (weatherId : option Z)
    (item : FavoriteItem.t) :
  isFavoriteItem (WeatherData.city weatherData) weatherId item = true ->
  isMatchingItem weatherData item = true.
Proof. exact (isFavoriteItem_isMatchingItem weatherData weatherId item). Qed.

Lemma favorite_items_are_matched_witness :
  isMatchingItem sample_snapshot paris_T2 = true.
Proof.
  apply (favorite_items_are_matched sample_snapshot (Some 10) paris_T2). reflexivity.
Defined.

Lemma markDeleted_eq (env : Env) (weatherData : WeatherData.t) (item : FavoriteItem.t)
    (w : World) :
  markDeleted env weatherData item w
  = (Ok (match upsertItem_response env (deletionOf env weatherData item) with
         | Ok _ => true
         | Throw => false
         end), w, [GqlUpsert (deletionOf env weatherData item)]).
Proof.
  unfold markDeleted. fold (deletionOf env weatherData item).
  unfold catch, bind, emit, lift, ret.
  destruct (upsertItem_response env (deletionOf env weatherData item)) as [[]|]; reflexivity.
Qed.

Lemma all_settled_markDeleted (env : Env) (weatherData : WeatherData.t)
    (items : list FavoriteItem.t) (w : World) :
  all_settled (markDeleted env weatherData) items w
  = (Ok (map (fun item =>
                Ok (match upsertItem_response env (deletionOf env weatherData item) with
                    | Ok _ => true
                    | Throw => false
                    end)) items),
     w, map (fun item => GqlUpsert (deletionOf env weatherData item)) items).
Proof.
  induction items as [|item items IH]; simpl; [reflexivity|].
  rewrite markDeleted_eq, IH. reflexivity.
Qed.

Lemma length_filter_pos {A : Type} (p : A -> bool) (l : list A) :
  (0 <? length (List.filter p l))%nat = existsb p l.
Proof.
  induction l as [|x l IH]; simpl; [reflexivity|].
  destruct (p x); simpl; [reflexivity|exact IH].
Qed.

Lemma isCityInFavorites_eq (env : Env) (cityName : string) (weatherId : option Z) (w : World) :
  isCityInFavorites env cityName weatherId w =
  (match listItems_response env with
   | Ok listItems => Ok (existsb (isFavoriteItem cityName weatherId) (default [] listItems))
   | Throw => Ok false
   end, w, [GqlListItems]).
Proof.
  unfold isCityInFavorites, catch. rewrite checkIfCityInFavorites_eq.
  destruct (listItems_response env); reflexivity.
Qed.

(** X15.  [toggleFavorite] on a snapshot whose city is a favourite: it
    lists the items twice, then sends one upsert for each item of the
    matching set, in the order of the list, that carries the id and the
    name of the item, empty content and the deletion marker; it sends no
    other upsert, does not throw, and returns whether one of these upserts
    was accepted.  The matching set is not empty. *)
Theorem toggleFavorite_removes (env : Env) (weatherData : WeatherData.t) (w : World)
    (listItems : option (list FavoriteItem.t)) :
  listItems_response env = Ok listItems ->
  existsb (isFavoriteItem (WeatherData.city weatherData)
                          (Some (WeatherData.weatherId weatherData)))
          (default [] listItems) = true ->
  let matchingItems := List.filter (isMatchingItem weatherData) (default [] listItems) in
  toggleFavorite env weatherData w
  = (Ok (existsb (fun item =>
                    match upsertItem_response env (deletionOf env weatherData item) with
                    | Ok _ => true
                    | Throw => false
                    end) matchingItems),
     w,
     [GqlListItems; GqlListItems]
     ++ map (fun item => GqlUpsert (deletionOf env weatherData item)) matchingItems) /\
  matchingItems <> [].
Proof.
  intros Hlist Hfav. cbv zeta.
  set (matchingItems := List.filter (isMatchingItem weatherData) (default [] listItems)).
  assert (Hne : matchingItems <> []).
  { apply existsb_exists in Hfav as (item & Hin & Hitem).
    apply isFavoriteItem_isMatchingItem in Hitem.
    intros Hnil. assert (Hm : In item matchingItems) by (apply filter_In; auto).
    rewrite Hnil in Hm. exact Hm. }
  split; [|exact Hne].
  unfold toggleFavorite.
  assert (Hcheck : isCityInFavorites env (WeatherData.city weatherData)
                     (Some (WeatherData.weatherId weatherData)) w
                   = (Ok true, w, [GqlListItems])).
  { rewrite isCityInFavorites_eq, Hlist, Hfav. reflexivity. }
  rewrite (catch_bind_ok _ _ _ _ _ _ _ Hcheck).
  assert (Hquery : emit GqlListItems w = (Ok tt, w, [GqlListItems])) by reflexivity.
  rewrite (catch_bind_ok _ _ _ _ _ _ _ Hquery).
  assert (Hresp : lift (listItems_response env) w = (Ok listItems, w, [])).
  { unfold lift. rewrite Hlist. reflexivity. }
  rewrite (catch_bind_ok _ _ _ _ _ _ _ Hresp).
  cbv beta zeta. fold matchingItems.
  destruct matchingItems as [|item rest] eqn:Hm; [contradiction|].
  change (0 <? length (item :: rest))%nat with true. cbv iota.
  rewrite (catch_bind_ok _ _ _ _ _ _ _ (all_settled_markDeleted env weatherData (item :: rest) w)).
  rewrite (count_true_map
             (fun item0 => match upsertItem_response env (deletionOf env weatherData item0) with
                           | Ok _ => true
                           | Throw => false
                           end) (item :: rest)).
  rewrite length_filter_pos.
  unfold outcome, world_after, calls_made, catch, ret. cbn [fst snd].
  rewrite !app_nil_r. reflexivity.
Qed.

Lemma toggleFavorite_removes_witness :
  toggleFavorite (env_ok [paris_T1; paris_T2; paris_T3_deleted]) sample_snapshot empty_world
  = (Ok true, empty_world,
     [GqlListItems; GqlListItems;
      GqlUpsert (deletionOf (env_ok [paris_T1; paris_T2; paris_T3_deleted]) sample_snapshot paris_T1);
      GqlUpsert (deletionOf (env_ok [paris_T1; paris_T2; paris_T3_deleted]) sample_snapshot paris_T2)]).
Proof.
  destruct (toggleFavorite_removes (env_ok [paris_T1; paris_T2; paris_T3_deleted])
              sample_snapshot empty_world (Some [paris_T1; paris_T2; paris_T3_deleted])
              eq_refl eq_refl) as (Hrun & _).
  rewrite Hrun. reflexivity.
Defined.

(** X16.  [toggleFavorite] on a snapshot whose city is no favourite, or
    when the list of items cannot be read: after the list query it sends
    one upsert without an id, built from the snapshot, and returns whether
    it was accepted; it does not throw. *)
Theorem toggleFavorite_adds (env : Env) (weatherData : WeatherData.t) (w : World) :
  (listItems_response env = Throw \/
   exists listItems, listItems_response env = Ok listItems /\
     existsb (isFavoriteItem (WeatherData.city weatherData)
                             (Some (WeatherData.weatherId weatherData)))
             (default [] listItems) = false) ->
  toggleFavorite env weatherData w
  = (Ok (match upsertItem_response env (insertionOf weatherData) with
         | Ok _ => true
         | Throw => false
         end), w, [GqlListItems; GqlUpsert (insertionOf weatherData)]) /\
  ItemInput.id (insertionOf weatherData) = None.
Proof.
  intros Hnot. split; [|reflexivity].
  assert (Hcheck : isCityInFavorites env (WeatherData.city weatherData)
                     (Some (WeatherData.weatherId weatherData)) w
                   = (Ok false, w, [GqlListItems])).
  { rewrite isCityInFavorites_eq.
    destruct Hnot as [->|(listItems & -> & ->)]; reflexivity. }
  unfold toggleFavorite.
  rewrite (catch_bind_ok _ _ _ _ _ _ _ Hcheck). cbv beta iota.
  pose proof (saveFavoriteCity_eq env (convertToFavoriteData weatherData) w) as Hsave.
  cbv zeta in Hsave.
  change {| ItemInput.id := _; ItemInput.name := _; ItemInput.content := _;
            ItemInput.metadata := MetadataWeather (convertToFavoriteData weatherData) |}
    with (insertionOf weatherData) in Hsave.
  destruct (upsertItem_response env (insertionOf weatherData)) as [[]|] eqn:Hup.
  - rewrite (catch_bind_ok _ _ _ _ _ _ _ Hsave). reflexivity.
  - rewrite (catch_throw _ _ _ _ _ (bind_throw _ _ _ _ _ Hsave)). reflexivity.
Qed.

Lemma toggleFavorite_adds_witness :
  toggleFavorite env_list_fails sample_snapshot empty_world
  = (Ok true, empty_world, [GqlListItems; GqlUpsert (insertionOf sample_snapshot)]).
Proof.
  destruct (toggleFavorite_adds env_list_fails sample_snapshot empty_world) as (Hrun & _).
  { left. reflexivity. }
  rewrite Hrun. reflexivity.
Defined.



(** ** Favourites: the candidates of a reconciliation *)

Lemma Map_get_absent (key : string) (m : cityMap_t) :
  ~ In key (map fst m) -> Map_get key m = None.
Proof.
  induction m as [|[k x] m IH]; simpl; [reflexivity|].
  intros Hnot. destruct (String.eqb_spec k key) as [->|Hne]; [tauto|].
  apply IH. tauto.
Qed.

Lemma fold_dedupeItem_distinct (l : list FavoriteItem.t) (m : cityMap_t) :
  NoDup (map dedupeKey l) ->
  (forall x, In x l -> ~ In (dedupeKey x) (map fst m)) ->
  fold_left dedupeItem l m = m ++ map (fun x => (dedupeKey x, x)) l.
Proof.
  revert m. induction l as [|item l IH]; intros m Hnd Hfresh; simpl.
  - rewrite app_nil_r. reflexivity.
  - simpl in Hnd. apply NoDup_cons in Hnd as [Hitem Hnd].
    rewrite list_elem_of_In in Hitem.
    rewrite dedupeItem_eq. unfold keepMostRecent.
    rewrite (Map_get_absent _ _ (Hfresh item (or_introl eq_refl))).
    rewrite (Map_set_absent _ _ _ (Map_get_absent _ _ (Hfresh item (or_introl eq_refl)))).
    rewrite IH; [rewrite <- app_assoc; reflexivity|exact Hnd|].
    intros x Hx. rewrite map_app. simpl. intros [Hin|[Heq|[]]]%in_app_or.
    + exact (Hfresh x (or_intror Hx) Hin).
    + apply Hitem. rewrite Heq. apply in_map. exact Hx.
Qed.

Lemma filter_all {A : Type} (p : A -> bool) (l : list A) :
  (forall x, In x l -> p x = true) -> List.filter p l = l.
Proof.
  induction l as [|x l IH]; simpl; intros Hall; [reflexivity|].
  rewrite (Hall x (or_introl eq_refl)), IH; [reflexivity|]. auto.
Qed.

Lemma uniqueFavorites_of_distinct (l : list FavoriteItem.t) :
  (forall x, In x l -> isValidItem x = true) ->
  NoDup (map dedupeKey l) ->
  uniqueFavorites l = l.
Proof.
  intros Hvalid Hnd. unfold uniqueFavorites, Map_values.
  rewrite (filter_all _ _ Hvalid).
  rewrite (fold_dedupeItem_distinct l [] Hnd) by (intros x _ []).
  simpl. rewrite map_map. simpl. apply map_id.
Qed.

Lemma uniqueFavorites_dedupeKeys (allItems : list FavoriteItem.t) :
  map dedupeKey (uniqueFavorites allItems)
  = map fst (fold_left dedupeItem (List.filter isValidItem allItems) []).
Proof.
  unfold uniqueFavorites, Map_values.
  destruct (uniqueFavorites_inv allItems) as (_ & Hent & _).
  induction (fold_left dedupeItem (List.filter isValidItem allItems) []) as [|[k v] m IH];
    simpl; [reflexivity|].
  destruct (Hent k v (or_introl eq_refl)) as (_ & -> & _).
  rewrite IH; [reflexivity|]. intros k' v' Hin. apply Hent. right. exact Hin.
Qed.

(** X18.  A list of records that all pass the deletion filter and have
    pairwise distinct keys is its own list of candidates: nothing is
    dropped and the order is kept. *)
Theorem uniqueFavorites_keeps_distinct (allItems : list FavoriteItem.t) :
  (forall item, In item allItems -> isValidItem item = true) ->
  NoDup (map dedupeKey allItems) ->
  uniqueFavorites allItems = allItems.
Proof. exact (uniqueFavorites_of_distinct allItems). Qed.

Lemma uniqueFavorites_keeps_distinct_witness :
  uniqueFavorites five_favorites = five_favorites.
Proof.
  apply (uniqueFavorites_keeps_distinct five_favorites).
  - intros item Hin. simpl in Hin.
    repeat (destruct Hin as [<-|Hin]; [reflexivity|]). destruct Hin.
  - vm_compute. repeat (apply NoDup_cons_2; [by (intros Hin; repeat (apply elem_of_cons in Hin as [Hin|Hin]; [discriminate|]); apply elem_of_nil in Hin)|]).
    apply NoDup_nil_2.
Defined.

(** X19.  The deduplication is idempotent: the candidates of the
    candidates are the candidates. *)
Theorem uniqueFavorites_idempotent (allItems : list FavoriteItem.t) :
  uniqueFavorites (uniqueFavorites allItems) = uniqueFavorites allItems.
Proof.
  apply uniqueFavorites_of_distinct.
  - apply uniqueFavorites_valid.
  - rewrite uniqueFavorites_dedupeKeys.
    exact (proj1 (uniqueFavorites_inv allItems)).
Qed.

Lemma date_gt_after (a b c : option Z) :
  a <> None ->
  date_gt a b = false -> date_gt c b = true -> date_gt c a = true.
Proof.
  destruct a as [x|], b as [y|], c as [z|]; simpl; try discriminate; try congruence.
  rewrite !Z.gtb_ltb, Z.ltb_ge, !Z.ltb_lt. lia.
Qed.

Lemma dedupeFirst_step (processed : list FavoriteItem.t) (m : cityMap_t)
    (item : FavoriteItem.t) :
  (forall x, In x processed -> FavoriteItem.updatedAt x <> None) ->
  dedupeInv processed m ->
  dedupeFirst processed m ->
  dedupeFirst (processed ++ [item]) (dedupeItem m item).
Proof.
  intros Hdated (Hnd & Hent & Hkeys) Hfirst.
  assert (Hold : forall k v, In (k, v) m ->
            exists before after, processed ++ [item] = before ++ v :: after /\
              forall x, In x before -> dedupeKey x = k ->
                date_gt (FavoriteItem.updatedAt v) (FavoriteItem.updatedAt x) = true).
  { intros k v Hkv. destruct (Hfirst k v Hkv) as (before & after & -> & Hbefore).
    exists before, (after ++ [item]). split; [|exact Hbefore].
    rewrite <- app_assoc. reflexivity. }
  rewrite dedupeItem_eq. unfold keepMostRecent.
  set (key := dedupeKey item).
  destruct (Map_get key m) as [existing|] eqn:Hget.
  - apply Map_get_In in Hget as Hin.
    destruct (Hent _ _ Hin) as (_ & _ & Hmax).
    destruct (date_gt (FavoriteItem.updatedAt item) (FavoriteItem.updatedAt existing)) eqn:Hgt.
    + intros k v Hkv. destruct (In_Map_set _ _ _ _ _ Hnd Hkv) as [[-> ->]|[_ Hkv']].
      * exists processed, []. split; [reflexivity|].
        intros x Hx Hxk.
        exact (date_gt_after _ _ _ (Hdated x Hx) (Hmax x Hx Hxk) Hgt).
      * exact (Hold k v Hkv').
    + exact Hold.
  - rewrite (Map_set_absent _ _ _ Hget).
    pose proof (Map_get_None _ _ Hget) as Hfresh.
    intros k v [Hkv|[[= <- <-]|[]]]%in_app_or.
    + exact (Hold k v Hkv).
    + exists processed, []. split; [reflexivity|].
      intros x Hx Hxk. exfalso. apply Hfresh. rewrite <- Hxk. auto.
Qed.

Lemma dedupeFirst_fold (items processed : list FavoriteItem.t) (m : cityMap_t) :
  (forall x, In x (processed ++ items) -> FavoriteItem.updatedAt x <> None) ->
  dedupeInv processed m ->
  dedupeFirst processed m ->
  dedupeFirst (processed ++ items) (fold_left dedupeItem items m).
Proof.
  revert processed m. induction items as [|item items IH];
    intros processed m Hdated Hinv Hfirst; simpl.
  - rewrite app_nil_r. exact Hfirst.
  - replace (processed ++ item :: items) with ((processed ++ [item]) ++ items) in *
      by (rewrite <- app_assoc; reflexivity).
    apply IH.
    + exact Hdated.
    + apply dedupeInv_step, Hinv.
    + apply dedupeFirst_step; [|exact Hinv|exact Hfirst].
      intros x Hx. apply Hdated. apply in_or_app. left. apply in_or_app. left. exact Hx.
Qed.

Lemma filter_split {A : Type} (p : A -> bool) (l before after : list A) (f : A) :
  List.filter p l = before ++ f :: after ->
  exists before' after', l = before' ++ f :: after' /\
    List.filter p before' = before /\ List.filter p after' = after.
Proof.
  revert before. induction l as [|y l IH]; intros before; simpl.
  - destruct before; discriminate.
  - destruct (p y) eqn:Hy.
    + destruct before as [|y0 before]; simpl; intros [= -> Hrest].
      * exists [], l. simpl. auto.
      * destruct (IH _ Hrest) as (before' & after' & -> & Hb & Ha).
        exists (y0 :: before'), after'. simpl. rewrite Hy, Hb. auto.
    + intros Hrest. destruct (IH _ Hrest) as (before' & after' & -> & Hb & Ha).
      exists (y :: before'), after'. simpl. rewrite Hy. auto.
Qed.

(** X20.  When the records that pass the deletion filter have valid
    dates, the candidate of a key is the first of the most recent records
    of the key: it is more recent than every surviving record of its key
    listed before it, and no surviving record of its key listed after it
    is more recent. *)
Theorem uniqueFavorites_first_of_newest (allItems : list FavoriteItem.t)
    (f : FavoriteItem.t) :
  (forall item, In item allItems -> isValidItem item = true ->
     FavoriteItem.updatedAt item <> None) ->
  In f (uniqueFavorites allItems) ->
  exists before after, allItems = before ++ f :: after /\
    (forall item, In item before -> isValidItem item = true ->
       dedupeKey item = dedupeKey f ->
       date_gt (FavoriteItem.updatedAt f) (FavoriteItem.updatedAt item) = true) /\
    (forall item, In item after -> isValidItem item = true ->
       dedupeKey item = dedupeKey f ->
       date_gt (FavoriteItem.updatedAt item) (FavoriteItem.updatedAt f) = false).
Proof.
  intros Hdated Hf.
  apply (proj1 (In_uniqueFavorites allItems f)) in Hf.
  assert (Hfirst : dedupeFirst (List.filter isValidItem allItems)
                     (fold_left dedupeItem (List.filter isValidItem allItems) [])).
  { apply (dedupeFirst_fold (List.filter isValidItem allItems) [] []).
    - simpl. intros x [Hx Hv]%filter_In. auto.
    - apply dedupeInv_nil.
    - intros k v []. }
  destruct (Hfirst _ _ Hf) as (before & after & Hsplit & Hbefore).
  destruct (uniqueFavorites_inv allItems) as (_ & Hent & _).
  destruct (Hent _ _ Hf) as (_ & _ & Hmax).
  destruct (filter_split _ _ _ _ _ Hsplit) as (before' & after' & -> & Hb & Ha).
  exists before', after'. split; [reflexivity|]. split.
  - intros item Hin Hvalid Hkey. apply Hbefore; [|exact Hkey].
    rewrite <- Hb. apply filter_In. auto.
  - intros item Hin Hvalid Hkey. apply Hmax; [|exact Hkey].
    apply filter_In. split; [|exact Hvalid].
    apply in_or_app. right. right. exact Hin.
Qed.

Lemma uniqueFavorites_first_of_newest_witness :
  uniqueFavorites [paris_T1; paris_T2; paris_T2_again] = [paris_T2] /\
  exists before after, [paris_T1; paris_T2; paris_T2_again] = before ++ paris_T2 :: after /\
    (forall item, In item before -> isValidItem item = true ->
       dedupeKey item = dedupeKey paris_T2 ->
       date_gt (FavoriteItem.updatedAt paris_T2) (FavoriteItem.updatedAt item) = true) /\
    (forall item, In item after -> isValidItem item = true ->
       dedupeKey item = dedupeKey paris_T2 ->
       date_gt (FavoriteItem.updatedAt item) (FavoriteItem.updatedAt paris_T2) = false).
Proof.
  split; [reflexivity|].
  apply (uniqueFavorites_first_of_newest [paris_T1; paris_T2; paris_T2_again] paris_T2).
  - intros item Hin _. simpl in Hin.
    repeat (destruct Hin as [<-|Hin]; [discriminate|]). destruct Hin.
  - left. reflexivity.
Defined.

(** ** Favourites: one candidate of a reconciliation *)



Lemma metadataGeo_value (favorite : FavoriteItem.t) (m : Metadata.t) :
  FavoriteItem.metadata favorite = Some (JValue m) ->
  metadataGeo favorite
  = (if truthy_num (Metadata.lat m) then Metadata.lat m else None,
     if truthy_num (Metadata.lon m) then Metadata.lon m else None,
     if truthy_str (Metadata.country m) then Metadata.country m else None).
Proof. intros Hm. unfold metadataGeo, JSON_parse. rewrite Hm. reflexivity. Qed.

(** X21.  A candidate whose metadata has a latitude and a longitude other
    than 0 is refreshed without a geo search: [updateFavorite] asks neither
    for the network state nor the geocoding service, and the weather
    request it sends, if any, is for the stored coordinates. *)
Theorem stored_coordinates_skip_search (env : Env) (favorite : FavoriteItem.t) (w : World)
    (m : Metadata.t) (lat lon : Z) :
  FavoriteItem.metadata favorite = Some (JValue m) ->
  Metadata.lat m = Some lat -> lat <> 0 ->
  Metadata.lon m = Some lon -> lon <> 0 ->
  List.filter is_geo_call (calls_made (updateFavorite env favorite w)) = [] /\
  forall lat' lon', In (HttpWeather lat' lon') (calls_made (updateFavorite env favorite w)) ->
    lat' = lat /\ lon' = lon.
Proof.
  intros Hm Hlat Hlat0 Hlon Hlon0.
  rewrite updateFavorite_pipeline. unfold calls_made. cbn [snd].
  unfold pipeline, resolveCity. rewrite (metadataGeo_value _ _ Hm), Hlat, Hlon.
  simpl truthy_num.
  apply Z.eqb_neq in Hlat0, Hlon0. rewrite Hlat0, Hlon0. simpl negb. cbv iota.
  rewrite Hlat0, Hlon0. simpl orb. cbv iota.
  unfold refreshResolved, fetchCalls. cbn [City.lat City.lon].
  match goal with |- context [fetchOutcome env ?c w] =>
    destruct (fetchOutcome env c w); destruct (activeRequests w !! cityKey c) end;
    cbn [fst snd app List.filter is_geo_call]; (split; [reflexivity|]);
    intros lat' lon' Hin; simpl in Hin;
    repeat (destruct Hin as [Hin|Hin]; [try discriminate; injection Hin as <- <-; auto|]);
    destruct Hin.
Qed.

Lemma stored_coordinates_skip_search_witness :
  List.filter is_geo_call (calls_made (updateFavorite (env_ok []) paris_T1 empty_world)) = [] /\
  forall lat' lon',
    In (HttpWeather lat' lon') (calls_made (updateFavorite (env_ok []) paris_T1 empty_world)) ->
    lat' = 48 /\ lon' = 2.
Proof.
  apply (stored_coordinates_skip_search (env_ok []) paris_T1 empty_world
           {| Metadata.deleted := Some false; Metadata.weatherId := Some 10;
              Metadata.lat := Some 48; Metadata.lon := Some 2;
              Metadata.country := Some "FR" |} 48 2);
    [reflexivity|reflexivity|lia|reflexivity|lia].
Defined.

(** X22.  A candidate that lacks a coordinate (0 counting as missing, as
    does metadata that cannot be read) and for which the geo search finds
    no city is given up: [updateFavorite] returns false, and sends neither
    a weather request nor an upsert. *)
Theorem unresolved_candidate_is_skipped (env : Env) (favorite : FavoriteItem.t) (w : World) :
  (forall m lat lon, FavoriteItem.metadata favorite = Some (JValue m) ->
     Metadata.lat m = Some lat -> Metadata.lon m = Some lon -> lat = 0 \/ lon = 0) ->
  outcome (searchCities env (FavoriteItem.name favorite) w) = Ok [] ->
  updateFavorite env favorite w
  = (Ok false, w, calls_made (searchCities env (FavoriteItem.name favorite) w)) /\
  List.filter is_weather_fetch (calls_made (updateFavorite env favorite w)) = [] /\
  List.filter is_upsert (calls_made (updateFavorite env favorite w)) = [].
Proof.
  intros Hmissing Hsearch.
  assert (Hresolve : resolveCity env favorite w = searchedCity env favorite w).
  { unfold resolveCity.
    destruct (metadataGeo favorite) as [[[lat|] [lon|]] country] eqn:Hgeo; try reflexivity.
    destruct (FavoriteItem.metadata favorite) as [[|m]|] eqn:Hm;
      try (unfold metadataGeo, JSON_parse in Hgeo; rewrite Hm in Hgeo; discriminate).
    rewrite (metadataGeo_value _ _ Hm) in Hgeo.
    destruct (Metadata.lat m) as [la|] eqn:Hla; [|discriminate].
    destruct (Metadata.lon m) as [lo|] eqn:Hlo; [|simpl in Hgeo; destruct (la =? 0); discriminate].
    simpl in Hgeo.
    destruct (Z.eqb_spec la 0) as [->|Hla0]; [discriminate|].
    destruct (Z.eqb_spec lo 0) as [->|Hlo0]; [discriminate|].
    destruct (Hmissing m la lo eq_refl Hla Hlo); contradiction. }
  assert (Hrun : updateFavorite env favorite w
                 = (Ok false, w, calls_made (searchCities env (FavoriteItem.name favorite) w))).
  { rewrite updateFavorite_pipeline. unfold pipeline. rewrite Hresolve.
    unfold searchedCity, outcome, calls_made in *.
    destruct (searchCities env (FavoriteItem.name favorite) w) as [[r w'] t].
    simpl in Hsearch. subst r. reflexivity. }
  split; [exact Hrun|]. rewrite Hrun. unfold calls_made. cbn [snd].
  destruct (searchCities_spec env (FavoriteItem.name favorite) w)
    as (cities & t & -> & [->|[->| ->]]); split; reflexivity.
Qed.

Lemma unresolved_candidate_is_skipped_witness :
  updateFavorite env_offline paris_unparseable empty_world = (Ok false, empty_world, [NetworkGetState]).
Proof.
  destruct (unresolved_candidate_is_skipped env_offline paris_unparseable empty_world)
    as (Hrun & _).
  - intros m lat lon Hm. discriminate Hm.
  - reflexivity.
  - rewrite Hrun. reflexivity.
Defined.

(** ** Favourites: the upserts of a reconciliation *)





(** ** Calls of [fetchWeatherFromApi] in flight: the entries and progress *)

Module InFlightMore.
Import InFlight.

Lemma entriesOwned_init : entriesOwned init.
Proof. intros k i H. simpl in H. rewrite lookup_empty in H. discriminate H. Qed.

Lemma entriesOwned_step (env : Env) (a : action) (s s' : state) :
  entriesOwned s -> step env a s = Some s' -> entriesOwned s'.
Proof.
  intros Howned. destruct a as [caller city|req|caller]; simpl.
  - unfold do_call.
    destruct (calls s !! caller) eqn:Hfresh; [discriminate|].
    destruct (active s !! cityKey city) as [req|] eqn:Hkey; intros [= <-];
      intros k i Hk; simpl in *.
    + destruct (Howned k i Hk) as (c & cl & Hc & Hrest).
      exists c, cl. split; [|exact Hrest].
      rewrite lookup_insert_ne; [exact Hc|]. intros <-. congruence.
    + apply lookup_insert_Some in Hk as [[<- <-]|[Hne Hk]].
      * eexists caller, _. split; [apply lookup_insert_eq|]. simpl. auto.
      * destruct (Howned k i Hk) as (c & cl & Hc & Hrest).
        exists c, cl. split; [|exact Hrest].
        rewrite lookup_insert_ne; [exact Hc|]. intros <-. congruence.
  - unfold do_settle.
    destruct (requests s !! req) as [r|]; [|discriminate].
    destruct (req_settled r); [discriminate|]. intros [= <-]. exact Howned.
  - unfold do_resume.
    destruct (calls s !! caller) as [cl|] eqn:Hcl; [|discriminate].
    destruct (call_returned cl) eqn:Hret; [discriminate|].
    destruct (requests s !! call_request cl) as [r|]; [|discriminate].
    destruct (req_settled r) as [o|]; [|discriminate]. intros [= <-].
    intros k i Hk. simpl in *.
    assert (Hentry : active s !! k = Some i /\
                     (call_role cl = Owner -> k <> cityKey (call_city cl))).
    { destruct (call_role cl); [|split; [exact Hk|discriminate]].
      apply lookup_delete_Some in Hk as [Hne Hk]. split; [exact Hk|]. intros _. congruence. }
    destruct Hentry as [Hk' Hne].
    destruct (Howned k i Hk') as (c & cl0 & Hc & Hrole & Hret0 & Hkey & Hreq).
    exists c, cl0. split; [|auto].
    rewrite lookup_insert_ne; [exact Hc|]. intros <-.
    rewrite Hcl in Hc. injection Hc as <-. exact (Hne Hrole (eq_sym Hkey)).
Qed.

Lemma entriesOwned_run (env : Env) (actions : list action) (s s' : state) :
  entriesOwned s -> run env actions s = Some s' -> entriesOwned s'.
Proof.
  revert s. induction actions as [|a actions IH]; intros s Howned; simpl.
  - intros [= <-]. exact Howned.
  - destruct (step env a s) as [s1|] eqn:Hstep; [|discriminate].
    apply IH. exact (entriesOwned_step env a s s1 Howned Hstep).
Qed.

(** X24.  [activeRequests] holds no stale entry: in every state the
    interleaved calls can reach, a key has an entry exactly when a call
    that started a request for the key has not yet resumed, and the entry
    is that request.  When every call has returned the map is empty, so a
    later call for any city sends its own HTTP requests. *)
Theorem entry_iff_suspended_owner (env : Env) (s : state) :
  reachable env s ->
  (forall k i, active s !! k = Some i <->
     exists c cl, calls s !! c = Some cl /\ call_role cl = Owner /\
       call_returned cl = None /\ cityKey (call_city cl) = k /\ call_request cl = i) /\
  ((forall c cl, calls s !! c = Some cl -> call_returned cl <> None) ->
   active s = ∅ /\
   forall caller city s', do_call caller city s = Some s' ->
     wire s' = wire s ++ [HttpWeather (City.lat city) (City.lon city);
                          HttpForecast (City.lat city) (City.lon city)]).
Proof.
  intros Hreach.
  pose proof (InFlightFacts.reachable_inv env s Hreach) as Hinv.
  destruct Hreach as (actions & Hrun).
  pose proof (entriesOwned_run env actions init s entriesOwned_init Hrun) as Howned.
  split.
  - intros k i. split; [apply Howned|].
    intros (c & cl & Hc & Hrole & Hret & <- & <-).
    exact (inv_owner env s Hinv c cl Hc Hrole Hret).
  - intros Hdone.
    assert (Hempty : active s = ∅).
    { apply map_eq. intros k. rewrite lookup_empty.
      destruct (active s !! k) as [i|] eqn:Hk; [|reflexivity].
      destruct (Howned k i Hk) as (c & cl & Hc & _ & Hret & _).
      destruct (Hdone c cl Hc Hret). }
    split; [exact Hempty|].
    intros caller city s'. unfold do_call.
    destruct (calls s !! caller); [discriminate|].
    rewrite Hempty, lookup_empty. intros [= <-]. reflexivity.
Qed.

Lemma entry_iff_suspended_owner_witness :
  (active (state_after (env_ok []) two_suspended_calls) !! "Paris-FR" = Some 0%nat <->
   exists c cl, calls (state_after (env_ok []) two_suspended_calls) !! c = Some cl /\
     call_role cl = Owner /\ call_returned cl = None /\
     cityKey (call_city cl) = "Paris-FR" /\ call_request cl = 0%nat) /\
  active (state_after (env_ok []) two_calls_for_paris) = ∅.
Proof.
  split.
  - apply (entry_iff_suspended_owner (env_ok []) (state_after (env_ok []) two_suspended_calls)).
    exists two_suspended_calls. reflexivity.
  - apply (entry_iff_suspended_owner (env_ok []) (state_after (env_ok []) two_calls_for_paris)).
    + exists two_calls_for_paris. reflexivity.
    + intros c cl Hc. apply elem_of_map_to_list in Hc.
      vm_compute in Hc.
      apply elem_of_cons in Hc as [Hc|Hc]; [injection Hc as _ ->; discriminate|].
      apply elem_of_cons in Hc as [Hc|Hc]; [injection Hc as _ ->; discriminate|].
      apply elem_of_nil in Hc. destruct Hc.
Defined.

(** X25.  No call is stuck: in every state the interleaved calls can
    reach, a suspended call returns after at most two steps, the settling
    of its request (when that is still in flight) and its own resumption;
    what it returns is what the request settled with. *)
Theorem suspended_call_can_return (env : Env) (s : state) (c : nat) (cl : call) :
  reachable env s ->
  calls s !! c = Some cl ->
  call_returned cl = None ->
  exists actions s' r o,
    (actions = [Resume c] \/ actions = [Settle (call_request cl); Resume c]) /\
    run env actions s = Some s' /\
    requests s' !! call_request cl = Some r /\ req_settled r = Some o /\
    calls s' !! c
    = Some {| call_city := call_city cl; call_request := call_request cl;
              call_role := call_role cl; call_returned := Some o |}.
Proof.
  intros Hreach Hc Hret.
  pose proof (InFlightFacts.reachable_inv env s Hreach) as Hinv.
  destruct (inv_call env s Hinv c cl Hc) as (r & Hr & _).
  destruct (req_settled r) as [o|] eqn:Hset.
  - eexists [Resume c], _, r, o. split; [left; reflexivity|].
    simpl. unfold do_resume. rewrite Hc, Hret, Hr, Hset.
    split; [reflexivity|]. simpl.
    split; [exact Hr|]. split; [reflexivity|]. apply lookup_insert_eq.
  - set (r' := {| req_key := req_key r; req_city := req_city r;
                  req_settled := Some (weather_request env (req_city r)) |}).
    assert (Hr' : <[call_request cl := r']> (requests s) !! call_request cl = Some r').
    { apply list_lookup_insert_eq. eapply lookup_lt_Some, Hr. }
    eexists [Settle (call_request cl); Resume c], _, r', _.
    split; [right; reflexivity|].
    simpl. unfold do_settle. rewrite Hr, Hset. fold r'.
    unfold do_resume. simpl. rewrite Hc, Hret, Hr'. simpl.
    split; [reflexivity|]. simpl.
    split; [exact Hr'|]. split; [reflexivity|]. apply lookup_insert_eq.
Qed.

Lemma suspended_call_can_return_witness :
  exists actions s' r o,
    (actions = [Resume 2%nat] \/ actions = [Settle 0%nat; Resume 2%nat]) /\
    run (env_ok []) actions (state_after (env_ok []) two_suspended_calls) = Some s' /\
    requests s' !! 0%nat = Some r /\ req_settled r = Some o /\
    calls s' !! 2%nat
    = Some {| call_city := paris; call_request := 0%nat;
              call_role := Joiner; call_returned := Some o |}.
Proof.
  apply (suspended_call_can_return (env_ok []) (state_after (env_ok []) two_suspended_calls)
           2%nat {| call_city := paris; call_request := 0%nat;
                    call_role := Joiner; call_returned := None |}).
  - exists two_suspended_calls. reflexivity.
  - reflexivity.
  - reflexivity.
Defined.

End InFlightMore.

(** ** WeatherService: the forecast of a snapshot *)

Lemma map_result_Ok {A B : Type} (f : A -> result B) (l : list A) (ys : list B) :
  map_result f l = Ok ys ->
  length ys = length l /\
  forall i y, ys !! i = Some y -> exists x, l !! i = Some x /\ f x = Ok y.
Proof.
  revert ys. induction l as [|x l IH]; intros ys; simpl.
  - intros [= <-]. split; [reflexivity|]. intros i y H. discriminate H.
  - destruct (f x) as [y0|] eqn:Hx; [|discriminate]. simpl.
    destruct (map_result f l) as [ys0|]; [|discriminate]. simpl.
    intros [= <-]. destruct (IH ys0 eq_refl) as (Hlen & Hnth).
    split; [simpl; rewrite Hlen; reflexivity|].
    intros [|i] y; simpl.
    + intros [= <-]. exists x. auto.
    + apply Hnth.
Qed.

Lemma filter_index_lookup {A : Type} (l : list A) (s i : nat) :
  filter_index (fun index => (index mod 8 =? 0)%nat) s l !! i
  = l !! ((8 - s mod 8) mod 8 + 8 * i)%nat.
Proof.
  revert s i. induction l as [|x l IH]; intros s i; [reflexivity|].
  cbn [filter_index].
  destruct (Nat.eqb_spec (s mod 8) 0) as [Hs|Hs].
  - destruct i as [|i].
    + replace ((8 - s mod 8) mod 8 + 8 * 0)%nat with 0%nat by lia_mod. reflexivity.
    + replace ((8 - s mod 8) mod 8 + 8 * S i)%nat
        with (S ((8 - S s mod 8) mod 8 + 8 * i))%nat by lia_mod.
      cbn [lookup list_lookup]. apply IH.
  - replace ((8 - s mod 8) mod 8 + 8 * i)%nat
      with (S ((8 - S s mod 8) mod 8 + 8 * i))%nat by lia_mod.
    change ((x :: l) !! S ((8 - S s mod 8) mod 8 + 8 * i)%nat)
      with (l !! ((8 - S s mod 8) mod 8 + 8 * i)%nat).
    apply IH.
Qed.

Lemma filter_index_length {A : Type} (l : list A) (s : nat) :
  length (filter_index (fun index => (index mod 8 =? 0)%nat) s l)
  = ((s + length l + 7) / 8 - (s + 7) / 8)%nat.
Proof.
  revert s. induction l as [|x l IH]; intros s.
  - simpl length. lia_mod.
  - cbn [filter_index length].
    destruct (Nat.eqb_spec (s mod 8) 0) as [Hs|Hs]; cbn [length]; rewrite IH; lia_mod.
Qed.

(** X26.  The forecast of a snapshot: when the request for a city
    succeeds, both HTTP responses were [ok], and the forecast of the
    snapshot has one day for every eighth sample of the provider, the
    first five at most, in the order of the samples; a day carries the
    weekday of its sample and the rounded temperature. *)
Theorem weather_request_forecast (env : Env) (city : City.t) (snapshot : WeatherData.t) :
  weather_request env city = Ok snapshot ->
  exists currentData forecastData,
    weather_response env (City.lat city) (City.lon city) = Response true (Some currentData) /\
    forecast_response env (City.lat city) (City.lon city) = Response true (Some forecastData) /\
    length (WeatherData.forecast snapshot) = Nat.min 5 ((length forecastData + 7) / 8) /\
    forall i day, WeatherData.forecast snapshot !! i = Some day ->
      exists item, forecastData !! (8 * i)%nat = Some item /\
        ForecastDay.date day = toLocaleWeekday env (fc_dt item * 1000) /\
        ForecastDay.temperature day = Math_round (fc_main_temp item).
Proof.
  intros Hreq. unfold weather_request in Hreq.
  destruct (weather_response env _ _) as [|[|] [currentData|]]; try discriminate;
    destruct (forecast_response env _ _) as [|[|] [forecastData|]]; try discriminate.
  simpl negb in Hreq. cbv iota in Hreq.
  destruct (map_result _ _) as [processedForecast|] eqn:Hmap; [|discriminate].
  destruct (first (cur_weather currentData)) as [w0|]; [|discriminate].
  injection Hreq as <-. cbn [WeatherData.forecast].
  exists currentData, forecastData. split; [reflexivity|]. split; [reflexivity|].
  destruct (map_result_Ok _ _ _ Hmap) as (Hlen & Hnth).
  split.
  - rewrite Hlen, length_take, filter_index_length. lia_mod.
  - intros i day Hday. destruct (Hnth i day Hday) as (item & Hitem & Hmake).
    apply lookup_take_Some in Hitem as [Hitem _].
    rewrite filter_index_lookup in Hitem.
    exists item. split; [exact Hitem|].
    destruct (first (fc_weather item)); [|discriminate].
    simpl in Hmake. injection Hmake as <-. split; reflexivity.
Qed.

Lemma weather_request_forecast_witness :
  exists snapshot, weather_request env_long_forecast paris = Ok snapshot /\
    length (WeatherData.forecast snapshot) = 5%nat.
Proof.
  assert (Hreq : exists snapshot, weather_request env_long_forecast paris = Ok snapshot)
    by (eexists; vm_compute; reflexivity).
  destruct Hreq as (snapshot & Hreq). exists snapshot. split; [exact Hreq|].
  destruct (weather_request_forecast env_long_forecast paris snapshot Hreq)
    as (currentData & forecastData & _ & Hforecast & Hlen & _).
  rewrite Hlen. injection Hforecast as <-. reflexivity.
Defined.

(** ** AppInitService *)

Lemma updateAllFavorites_total (env : Env) (w : World) :
  exists count, updateAllFavorites env w
                = (Ok count, w, calls_made (updateAllFavorites env w)).
Proof.
  rewrite updateAllFavorites_eq.
  destruct (listItems_response env); eexists; reflexivity.
Qed.

(** X27.  [initializeApp] never throws and leaves the storage as it is.
    Offline it does nothing after the connectivity check; without a token
    it sends no query; online and with a token it runs one
    reconciliation. *)
Theorem initializeApp_gates (env : Env) (token : option string) (w : World) :
  (online env = false -> initializeApp env token w = (Ok tt, w, [NetworkGetState])) /\
  (truthy_str token = false ->
   initializeApp env token w = (Ok tt, w, [NetworkGetState])) /\
  (online env = true -> truthy_str token = true ->
   initializeApp env token w
   = (Ok tt, w, NetworkGetState :: calls_made (updateAllFavorites env w))).
Proof.
  unfold initializeApp.
  rewrite (catch_bind_ok _ _ _ _ _ _ _ (isInternetAvailable_eq env w)).
  split; [|split].
  - intros ->. reflexivity.
  - intros ->. destruct (online env); reflexivity.
  - intros -> ->. simpl negb. cbv iota.
    destruct (updateAllFavorites_total env w) as (count & Hrun).
    rewrite (catch_bind_ok _ _ _ _ _ _ _ Hrun).
    unfold catch, ret. cbn [fst snd]. rewrite app_nil_r. reflexivity.
Qed.

Lemma initializeApp_gates_witness :
  initializeApp env_offline (Some "token") empty_world = (Ok tt, empty_world, [NetworkGetState]) /\
  initializeApp (env_ok []) None empty_world = (Ok tt, empty_world, [NetworkGetState]) /\
  initializeApp (env_ok []) (Some "token") empty_world
  = (Ok tt, empty_world, [NetworkGetState; GqlListItems]).
Proof.
  destruct (initializeApp_gates env_offline (Some "token") empty_world) as (Hoff & _).
  destruct (initializeApp_gates (env_ok []) None empty_world) as (_ & Hnone & _).
  destruct (initializeApp_gates (env_ok []) (Some "token") empty_world) as (_ & _ & Hrun).
  split; [exact (Hoff eq_refl)|]. split; [exact (Hnone eq_refl)|].
  rewrite (Hrun eq_refl eq_refl). reflexivity.
Defined.

(** ** AuthContext *)

(** X28.  [verifyToken] accepts a token exactly when it is not empty, it
    decodes, its payload has an expiry other than 0, and the current time
    in milliseconds is not after the expiry in seconds times 1000.  A
    token accepted at some time is accepted at every earlier time, and it
    is still accepted at the millisecond of its expiry. *)
Theorem verifyToken_expiry (jwtDecode : string -> result (option JWTPayload))
    (currentTime : Z) (token : string) :
  (verifyToken jwtDecode currentTime token = true <->
   token <> "" /\
   exists payload seconds, jwtDecode token = Ok (Some payload) /\
     exp payload = Some seconds /\ seconds <> 0 /\ currentTime <= seconds * 1000) /\
  (verifyToken jwtDecode currentTime token = true ->
   (forall earlier, earlier <= currentTime -> verifyToken jwtDecode earlier token = true) /\
   exists payload seconds, jwtDecode token = Ok (Some payload) /\
     exp payload = Some seconds /\
     verifyToken jwtDecode (seconds * 1000) token = true /\
     verifyToken jwtDecode (seconds * 1000 + 1) token = false).
Proof.
  assert (Hspec : forall now,
    verifyToken jwtDecode now token = true <->
    token <> "" /\
    exists payload seconds, jwtDecode token = Ok (Some payload) /\
      exp payload = Some seconds /\ seconds <> 0 /\ now <= seconds * 1000).
  { intros now. unfold verifyToken.
    destruct (String.eqb_spec token "") as [->|Hne].
    - split; [discriminate|]. intros [H _]. contradiction.
    - destruct (jwtDecode token) as [[payload|]|]; simpl.
      + destruct (exp payload) as [seconds|] eqn:Hexp; simpl.
        * destruct (Z.eqb_spec seconds 0) as [->|Hs]; simpl.
          -- split; [discriminate|].
             intros (_ & p & s & [= <-] & Hp & Hs & _). rewrite Hexp in Hp. congruence.
          -- rewrite Z.gtb_ltb. destruct (Z.ltb_spec (seconds * 1000) now) as [Hlt|Hge].
             ++ split; [discriminate|].
                intros (_ & p & s & [= <-] & Hp & _ & Hle).
                rewrite Hexp in Hp. injection Hp as <-. lia.
             ++ split; [|reflexivity]. intros _. split; [exact Hne|].
                exists payload, seconds. auto.
        * split; [discriminate|].
          intros (_ & p & s & [= <-] & Hp & _). rewrite Hexp in Hp. discriminate.
      + split; [discriminate|]. intros (_ & p & s & H & _). discriminate.
      + split; [discriminate|]. intros (_ & p & s & H & _). discriminate. }
  split; [apply Hspec|].
  intros (Hne & payload & seconds & Hdecode & Hexp & Hs & Hle)%Hspec.
  split.
  - intros earlier Hearlier. apply Hspec. split; [exact Hne|].
    exists payload, seconds. repeat split; auto. lia.
  - exists payload, seconds. split; [exact Hdecode|]. split; [exact Hexp|]. split.
    + apply Hspec. split; [exact Hne|]. exists payload, seconds. repeat split; auto. lia.
    + destruct (verifyToken jwtDecode (seconds * 1000 + 1) token) eqn:Hlate; [|reflexivity].
      apply Hspec in Hlate as (_ & p & s & Hd & Hp & _ & Hle').
      rewrite Hdecode in Hd. injection Hd as <-. rewrite Hexp in Hp. injection Hp as <-. lia.
Qed.

Lemma verifyToken_expiry_witness :
  verifyToken sample_jwtDecode 1700000000000 "token" = true /\
  verifyToken sample_jwtDecode 1700000000001 "token" = false /\
  verifyToken sample_jwtDecode 0 "bad" = false.
Proof.
  destruct (verifyToken_expiry sample_jwtDecode 1600000000000 "token") as (_ & Hvalid).
  destruct (Hvalid eq_refl) as (_ & payload & seconds & Hdecode & Hexp & Hat & Hafter).
  injection Hdecode as <-. injection Hexp as <-.
  split; [exact Hat|]. split; [exact Hafter|reflexivity].
Defined.

(** ** WeatherService: the queue of pending requests *)

Lemma sameCity_sym (a b : City.t) : sameCity a b = sameCity b a.
Proof.
  unfold sameCity.
  rewrite (String.eqb_sym (City.name b)), (String.eqb_sym (City.country b)). reflexivity.
Qed.

Lemma distinctCities_snoc (l : list City.t) (city : City.t) :
  distinctCities l = true ->
  existsb (sameCity city) l = false ->
  distinctCities (l ++ [city]) = true.
Proof.
  induction l as [|c l IH]; simpl; [reflexivity|].
  intros [Hc Hl]%andb_prop [Hcity Hrest]%orb_false_elim.
  rewrite existsb_app. simpl.
  apply negb_true_iff in Hc. rewrite Hc, sameCity_sym, Hcity. simpl.
  exact (IH Hl Hrest).
Qed.

(** X29.  [storePendingRequest] does not throw and touches the queue
    only: afterwards the queue holds a city of the given name and country,
    the cities queued before keep their places, a queue without duplicates
    stays without duplicates, and storing the city again changes
    nothing. *)
Theorem storePendingRequest_queues_once (city : City.t) (w : World) :
  distinctCities (pendingQueue w) = true ->
  exists w', storePendingRequest city w = (Ok tt, w', []) /\
    existsb (sameCity city) (pendingQueue w') = true /\
    (pendingQueue w' = pendingQueue w \/ pendingQueue w' = pendingQueue w ++ [city]) /\
    distinctCities (pendingQueue w') = true /\
    storePendingRequest city w' = (Ok tt, w', []) /\
    (forall c, cachedSnapshot w' c = cachedSnapshot w c /\ cachedTime w' c = cachedTime w c) /\
    recentSearches w' = recentSearches w.
Proof.
  intros Hdistinct. rewrite storePendingRequest_eq.
  destruct (existsb (sameCity city) (pendingQueue w)) eqn:Hqueued.
  - exists w. split; [reflexivity|]. split; [exact Hqueued|]. split; [left; reflexivity|].
    split; [exact Hdistinct|]. split; [|auto].
    rewrite storePendingRequest_eq, Hqueued. reflexivity.
  - eexists. split; [reflexivity|].
    assert (Hq : pendingQueue
                   {| storage := put_weather_pending_requests
                                   (Some (pendingQueue w ++ [city])) (storage w);
                      activeRequests := activeRequests w |}
                 = pendingQueue w ++ [city]) by reflexivity.
    assert (Hin : existsb (sameCity city) (pendingQueue w ++ [city]) = true).
    { rewrite existsb_app. simpl. rewrite sameCity_refl, orb_true_r. reflexivity. }
    rewrite Hq. split; [exact Hin|]. split; [right; reflexivity|].
    split; [exact (distinctCities_snoc _ _ Hdistinct Hqueued)|].
    split; [|split; [intros c; split; reflexivity|reflexivity]].
    rewrite storePendingRequest_eq, Hq, Hin. reflexivity.
Qed.

Lemma storePendingRequest_queues_once_witness :
  exists w', storePendingRequest lyon (world_with_lists [paris] []) = (Ok tt, w', []) /\
    pendingQueue w' = [paris; lyon] /\
    storePendingRequest lyon w' = (Ok tt, w', []).
Proof.
  destruct (storePendingRequest_queues_once lyon (world_with_lists [paris] []) eq_refl)
    as (w' & Hrun & _ & _ & _ & Hagain & _).
  exists w'. split; [exact Hrun|]. split; [|exact Hagain].
  injection Hrun as <-. reflexivity.
Defined.

